(** * Career-Conversations: the chat turn controller and the question store

    A shallow embedding of [src/app.py] (the notifier, the two tools, the
    dispatch of tool calls, the prompt builders, the evaluator, the
    regeneration step and the chat loop) and of [database/question_db.py]
    (the seven operations of [QuestionDB]).

    External collaborators (the LLM service, the notification endpoint,
    objects imported from libraries, the SQL engine's failures) are oracles
    of an environment; every interaction with them is recorded in a trace of
    events, so that "how many calls, with which request, in which order" are
    statements about lists. *)

From Stdlib Require Import String Ascii List ZArith Bool Arith Lia.
From Stdlib Require Import DecimalString.
From Stdlib Require Import Sorted Permutation.
Import ListNotations.
Set Warnings "-register-all".
Local Open Scope string_scope.
Local Open Scope list_scope.

(** ** Python values *)

(** What [json.loads] can produce, and what [json.dumps] can serialise.
    A float is kept as the text of its Python [repr]. *)
Inductive json : Type :=
| JNull
| JBool (b : bool)
| JInt (z : Z)
| JFloat (repr : string)
| JStr (s : string)
| JArr (items : list json)
| JObj (fields : list (string * json)).

(** The functions of [src/app.py] that can be reached through the module
    namespace. *)
Inductive func : Type :=
| F_push
| F_record_user_details
| F_record_unknown_question.

(** An object bound to a name of the module namespace: plain data, one of the
    module's own functions, or an object that comes from a library (an
    imported function, class or module, a client instance). *)
Inductive pyobj : Type :=
| PData (j : json)
| PFunc (f : func)
| POpaque (name : string).

Inductive exn : Type :=
| JSONDecodeError
| TypeError
| AttributeError
| ExternalError (what : string).

(** String concatenation; [++] is kept for lists. *)
Infix "+++" := String.append (right associativity, at level 60).

Definition nl : string := String "010"%char EmptyString.
Definition dq : string := String "034"%char EmptyString.

Definition string_of_Z (z : Z) : string :=
  NilEmpty.string_of_int (Z.to_int z).

(** Python's truth value of an object ([if tool]). *)
Definition json_truthy (j : json) : bool :=
  match j with
  | JNull => false
  | JBool b => b
  | JInt z => negb (z =? 0)%Z
  | JFloat r => negb ((r =? "0.0") || (r =? "-0.0"))
  | JStr s => negb (s =? "")
  | JArr l => match l with [] => false | _ => true end
  | JObj l => match l with [] => false | _ => true end
  end.

Definition truthy (o : option pyobj) : bool :=
  match o with
  | None => false
  | Some (PData j) => json_truthy j
  | Some (PFunc _) => true
  | Some (POpaque _) => true
  end.

(** *** [json.dumps]

    Default settings: separators [", "] and [": "], [ensure_ascii=True].
    A character of a Python string is one [ascii] here (code points below
    256). *)
Definition hex_digit (n : nat) : ascii :=
  match n with
  | 0 => "0" | 1 => "1" | 2 => "2" | 3 => "3" | 4 => "4"
  | 5 => "5" | 6 => "6" | 7 => "7" | 8 => "8" | 9 => "9"
  | 10 => "a" | 11 => "b" | 12 => "c" | 13 => "d" | 14 => "e"
  | _ => "f"
  end%char.

Definition escape_char (c : ascii) : string :=
  let n := nat_of_ascii c in
  if Nat.eqb n 34 then "\" +++ dq
  else if Nat.eqb n 92 then "\\"
  else if Nat.eqb n 10 then "\n"
  else if Nat.eqb n 13 then "\r"
  else if Nat.eqb n 9 then "\t"
  else if Nat.eqb n 8 then "\b"
  else if Nat.eqb n 12 then "\f"
  else if Nat.leb 32 n && Nat.leb n 126 then String c EmptyString
  else "\u00" +++ String (hex_digit (n / 16)) (String (hex_digit (n mod 16)) EmptyString).

Fixpoint escape_string (s : string) : string :=
  match s with
  | EmptyString => EmptyString
  | String c rest => escape_char c +++ escape_string rest
  end.

Definition encode_string (s : string) : string := dq +++ escape_string s +++ dq.

Fixpoint json_dumps (j : json) : string :=
  match j with
  | JNull => "null"
  | JBool true => "true"
  | JBool false => "false"
  | JInt z => string_of_Z z
  | JFloat r => r
  | JStr s => encode_string s
  | JArr l =>
      "[" +++
      (fix items (l : list json) : string :=
         match l with
         | [] => ""
         | x :: r =>
             match r with
             | [] => json_dumps x
             | _ => json_dumps x +++ ", " +++ items r
             end
         end) l +++ "]"
  | JObj kvs =>
      "{" +++
      (fix members (kvs : list (string * json)) : string :=
         match kvs with
         | [] => ""
         | (k, v) :: r =>
             match r with
             | [] => encode_string k +++ ": " +++ json_dumps v
             | _ => encode_string k +++ ": " +++ json_dumps v +++ ", " +++ members r
             end
         end) kvs +++ "}"
  end.

(** [json.dumps(result)] on an arbitrary object: only plain data is
    serialisable. *)
Definition dumps (o : pyobj) : exn + string :=
  match o with
  | PData j => inr (json_dumps j)
  | PFunc _ => inl TypeError
  | POpaque _ => inl TypeError
  end.

(** ** Conversations *)

(** A [ToolInvocation]: [tool_call.id], [tool_call.function.name] and
    [tool_call.function.arguments]. *)
Record tool_call : Type := {
  tc_id : string;
  tc_name : string;
  tc_arguments : string
}.

(** An entry of the list sent to the LLM: a dictionary with a role and a
    content, a tool-role dictionary, or the message object of a completion
    appended as it is. *)
Inductive chat_message : Type :=
| Msg (role content : string)
| ToolMsg (content : string) (tool_call_id : string)
| MessageObj (content : option string) (tool_calls : list tool_call).

(** The first choice of a chat completion. *)
Record completion : Type := {
  finish_reason : string;
  content : option string;
  tool_calls : list tool_call
}.

Record Evaluation : Type := {
  is_acceptable : bool;
  feedback : string
}.

(** ** The environment and its trace *)

(** One interaction with the outside world: the request and the answer
    (a value, or the exception the call raised). *)
Inductive event : Type :=
| EvCreate (messages : list chat_message) (tools : option json) (answer : exn + completion)
| EvParse (messages : list chat_message) (answer : exn + option Evaluation)
| EvPost (token user : option string) (text : string) (answer : exn + nat)
| EvPrint (line : string)
| EvForeign (name : string) (kwargs : list (string * json)) (answer : exn + pyobj).

(** The parts of the Python runtime that are not modelled in detail. *)
Record PyRuntime : Type := {
  (** [json.loads]; [None] is [JSONDecodeError]. *)
  json_loads : string -> option json;
  (** [repr] of a list or of a dictionary, as an f-string prints it. *)
  py_repr : json -> string;
  (** [repr] of the history list, as [f"{history}"] prints it. *)
  repr_history : list chat_message -> string
}.

(** The outside world.  Every oracle sees the trace so far, so the answer of
    a service may depend on every earlier interaction. *)
Record env : Type := {
  (** [openai.chat.completions.create(model, messages[, tools])] *)
  llm_create : list event -> list chat_message -> option json -> exn + completion;
  (** [openai.beta.chat.completions.parse(...)], then [.parsed] *)
  llm_parse : list event -> list chat_message -> exn + option Evaluation;
  (** [requests.post]: the HTTP status, or a transport error *)
  requests_post : list event -> option string -> option string -> string -> exn + nat;
  os_getenv : string -> option string;
  (** calling an object that comes from a library *)
  foreign_call : list event -> string -> list (string * json) -> exn + pyobj;
  (** names the interpreter or the launcher binds in the module namespace
      ([__name__], [me] when run as a script, ...) *)
  interp_globals : string -> option pyobj
}.

(** ** Computations

    A computation reads the trace so far and returns an outcome together
    with the events it emitted itself. *)
Inductive outcome (A : Type) : Type :=
| Ret (a : A)
| Raise (e : exn)
| OutOfFuel.
Arguments Ret {A} a.
Arguments Raise {A} e.
Arguments OutOfFuel {A}.

Definition M (A : Type) : Type := list event -> outcome A * list event.

Definition ret {A} (a : A) : M A := fun _ => (Ret a, []).
Definition raise {A} (e : exn) : M A := fun _ => (Raise e, []).
Definition diverge {A} : M A := fun _ => (OutOfFuel, []).

Definition bind {A B} (c : M A) (k : A -> M B) : M B :=
  fun past =>
    match c past with
    | (Ret a, ev1) =>
        match k a (past ++ ev1) with
        | (o, ev2) => (o, ev1 ++ ev2)
        end
    | (Raise e, ev1) => (Raise e, ev1)
    | (OutOfFuel, ev1) => (OutOfFuel, ev1)
    end.

Declare Scope app_scope.
Delimit Scope app_scope with app.
Declare Scope db_scope.
Delimit Scope db_scope with db.
Reserved Notation "x <- c ;; k" (at level 61, c at next level, right associativity).
Reserved Notation "c ;;; k" (at level 61, right associativity).
Notation "x <- c ;; k" := (bind c (fun x => k)) : app_scope.
Notation "c ;;; k" := (bind c (fun _ => k)) : app_scope.
Local Open Scope app_scope.

(** Perform one external interaction: record it, then return or raise what
    the oracle answered. *)
Definition interact {A} (record : exn + A -> event) (answer : exn + A) : M A :=
  fun _ => (match answer with inr a => Ret a | inl x => Raise x end, [record answer]).

Definition lift {A} (r : exn + A) : M A :=
  match r with inr a => ret a | inl x => raise x end.

Definition print (line : string) : M unit :=
  fun _ => (Ret tt, [EvPrint line]).

Definition str_opt (o : option string) : string :=
  match o with Some s => s | None => "None" end.

Definition py_str (py : PyRuntime) (j : json) : string :=
  match j with
  | JNull => "None"
  | JBool true => "True"
  | JBool false => "False"
  | JInt z => string_of_Z z
  | JFloat r => r
  | JStr s => s
  | JArr _ | JObj _ => py_repr py j
  end.

Fixpoint assoc (k : string) (kvs : list (string * json)) : option json :=
  match kvs with
  | [] => None
  | (k', v) :: rest => if k' =? k then Some v else assoc k rest
  end.

Definition keys_within (allowed : list string) (kvs : list (string * json)) : bool :=
  forallb (fun kv => existsb (String.eqb (fst kv)) allowed) kvs.

(** ** A small runtime for the examples

    A decoder for the JSON texts without floats and without [\u] escapes,
    which is what the examples below feed to the program; the theorems hold
    for every runtime. *)
Definition is_ws (c : ascii) : bool :=
  let n := nat_of_ascii c in
  Nat.eqb n 32 || Nat.eqb n 9 || Nat.eqb n 10 || Nat.eqb n 13.

Fixpoint skip_ws (s : string) : string :=
  match s with
  | String c r => if is_ws c then skip_ws r else s
  | EmptyString => s
  end.

Definition digit_of (c : ascii) : option Z :=
  let n := nat_of_ascii c in
  if Nat.leb 48 n && Nat.leb n 57 then Some (Z.of_nat (n - 48)) else None.

Fixpoint read_digits (s : string) (acc : Z) (seen : nat) : Z * nat * string :=
  match s with
  | String c r =>
      match digit_of c with
      | Some d => read_digits r (10 * acc + d)%Z (S seen)
      | None => (acc, seen, s)
      end
  | EmptyString => (acc, seen, s)
  end.

Definition starts_number_tail (s : string) : bool :=
  match s with
  | String c _ => (c =? ".")%char || (c =? "e")%char || (c =? "E")%char
  | EmptyString => false
  end.

Definition read_int (s : string) : option (Z * string) :=
  let '(neg, body) :=
    match s with
    | String "-"%char r => (true, r)
    | _ => (false, s)
    end in
  let leading_zero :=
    match body with
    | String "0"%char (String c _) =>
        match digit_of c with Some _ => true | None => false end
    | _ => false
    end in
  match read_digits body 0%Z 0 with
  | (v, seen, rest) =>
      if Nat.eqb seen 0 || leading_zero || starts_number_tail rest then None
      else Some (if neg then (- v)%Z else v, rest)
  end.

Fixpoint read_string (s : string) : option (string * string) :=
  match s with
  | EmptyString => None
  | String c r =>
      let n := nat_of_ascii c in
      if Nat.eqb n 34 then Some (EmptyString, r)
      else if Nat.eqb n 92 then
        match r with
        | String e r' =>
            let decoded :=
              if (e =? "n")%char then Some "010"%char
              else if (e =? "t")%char then Some "009"%char
              else if (e =? "r")%char then Some "013"%char
              else if (e =? "b")%char then Some "008"%char
              else if (e =? "f")%char then Some "012"%char
              else if (e =? "/")%char then Some "/"%char
              else if (e =? "\")%char then Some "\"%char
              else if Nat.eqb (nat_of_ascii e) 34 then Some "034"%char
              else None in
            match decoded, read_string r' with
            | Some d, Some (body, rest) => Some (String d body, rest)
            | _, _ => None
            end
        | EmptyString => None
        end
      else if Nat.ltb n 32 then None
      else
        match read_string r with
        | Some (body, rest) => Some (String c body, rest)
        | None => None
        end
  end.

(** A Python dictionary keeps the position of a key's first insertion and
    the value of its last. *)
Fixpoint dict_set (k : string) (v : json) (kvs : list (string * json)) : list (string * json) :=
  match kvs with
  | [] => [(k, v)]
  | (k', v') :: rest =>
      if (k' =? k)%string then (k', v) :: rest else (k', v') :: dict_set k v rest
  end.

Definition strip_prefix (p s : string) : option string :=
  if String.prefix p s
  then Some (String.substring (String.length p) (String.length s - String.length p) s)
  else None.

Fixpoint read_value (fuel : nat) (s : string) {struct fuel} : option (json * string) :=
  match fuel with
  | 0 => None
  | S f =>
      match skip_ws s with
      | EmptyString => None
      | String c r =>
          if (c =? "{")%char then
            match skip_ws r with
            | String "}"%char r' => Some (JObj [], r')
            | _ =>
                match read_members f r [] with
                | Some (kvs, rest) => Some (JObj kvs, rest)
                | None => None
                end
            end
          else if (c =? "[")%char then
            match skip_ws r with
            | String "]"%char r' => Some (JArr [], r')
            | _ =>
                match read_items f r [] with
                | Some (l, rest) => Some (JArr l, rest)
                | None => None
                end
            end
          else if Nat.eqb (nat_of_ascii c) 34 then
            match read_string r with
            | Some (body, rest) => Some (JStr body, rest)
            | None => None
            end
          else
            match strip_prefix "null" (String c r),
                  strip_prefix "true" (String c r),
                  strip_prefix "false" (String c r) with
            | Some rest, _, _ => Some (JNull, rest)
            | _, Some rest, _ => Some (JBool true, rest)
            | _, _, Some rest => Some (JBool false, rest)
            | None, None, None =>
                match read_int (String c r) with
                | Some (z, rest) => Some (JInt z, rest)
                | None => None
                end
            end
      end
  end
with read_items (fuel : nat) (s : string) (acc : list json) {struct fuel}
  : option (list json * string) :=
  match fuel with
  | 0 => None
  | S f =>
      match read_value f s with
      | Some (v, rest) =>
          match skip_ws rest with
          | String ","%char rest' => read_items f rest' (acc ++ [v])
          | String "]"%char rest' => Some (acc ++ [v], rest')
          | _ => None
          end
      | None => None
      end
  end
with read_members (fuel : nat) (s : string) (acc : list (string * json)) {struct fuel}
  : option (list (string * json) * string) :=
  match fuel with
  | 0 => None
  | S f =>
      match skip_ws s with
      | String c r =>
          if Nat.eqb (nat_of_ascii c) 34 then
            match read_string r with
            | Some (k, rest) =>
                match skip_ws rest with
                | String ":"%char rest' =>
                    match read_value f rest' with
                    | Some (v, rest'') =>
                        match skip_ws rest'' with
                        | String ","%char more => read_members f more (dict_set k v acc)
                        | String "}"%char more => Some (dict_set k v acc, more)
                        | _ => None
                        end
                    | None => None
                    end
                | _ => None
                end
            | None => None
            end
          else None
      | EmptyString => None
      end
  end.

Definition sample_json_loads (s : string) : option json :=
  match read_value (2 * String.length s + 2) s with
  | Some (v, rest) =>
      match skip_ws rest with
      | EmptyString => Some v
      | _ => None
      end
  | None => None
  end.

Definition sample_repr_message (m : chat_message) : string :=
  match m with
  | Msg role c => "{'role': '" +++ role +++ "', 'content': '" +++ c +++ "'}"
  | ToolMsg c i => "{'role': 'tool', 'content': '" +++ c +++ "', 'tool_call_id': '" +++ i +++ "'}"
  | MessageObj c _ => "ChatCompletionMessage(content=" +++ str_opt c +++ ")"
  end.

Definition sample_runtime : PyRuntime := {|
  json_loads := sample_json_loads;
  py_repr := json_dumps;
  repr_history := fun h => "[" +++ String.concat ", " (map sample_repr_message h) +++ "]"
|}.


(** ** [src/app.py] *)

(** The function-calling schemas and the list advertised to the LLM. *)
Definition record_user_details_json : json :=
  JObj [
    ("name", JStr "record_user_details");
    ("description", JStr "Use this tool to record that a user is interested in being in touch and provided an email address");
    ("parameters", JObj [
      ("type", JStr "object");
      ("properties", JObj [
        ("email", JObj [
          ("type", JStr "string");
          ("description", JStr "The email address of this user")]);
        ("name", JObj [
          ("type", JStr "string");
          ("description", JStr "The user's name, if they provided it")]);
        ("notes", JObj [
          ("type", JStr "string");
          ("description", JStr "Any additional information about the conversation that's worth recording to give context")])]);
      ("required", JArr [JStr "email"]);
      ("additionalProperties", JBool false)])].

Definition record_unknown_question_json : json :=
  JObj [
    ("name", JStr "record_unknown_question");
    ("description", JStr "Always use this tool to record any question that couldn't be answered as you didn't know the answer");
    ("parameters", JObj [
      ("type", JStr "object");
      ("properties", JObj [
        ("question", JObj [
          ("type", JStr "string");
          ("description", JStr "The question that couldn't be answered")])]);
      ("required", JArr [JStr "question"]);
      ("additionalProperties", JBool false)])].

Definition tools : json :=
  JArr [JObj [("type", JStr "function"); ("function", record_user_details_json)];
        JObj [("type", JStr "function"); ("function", record_unknown_question_json)]].

(** The names the module's own text binds at its top level, in the order of
    the source: the imports, the client, the three functions, the two
    schemas, [tools] and the two classes. *)
Definition module_globals : list (string * pyobj) :=
  [ ("load_dotenv", POpaque "load_dotenv");
    ("OpenAI", POpaque "OpenAI");
    ("json", POpaque "json");
    ("os", POpaque "os");
    ("requests", POpaque "requests");
    ("PdfReader", POpaque "PdfReader");
    ("gr", POpaque "gr");
    ("BaseModel", POpaque "BaseModel");
    ("openai", POpaque "openai");
    ("push", PFunc F_push);
    ("record_user_details", PFunc F_record_user_details);
    ("record_unknown_question", PFunc F_record_unknown_question);
    ("record_user_details_json", PData record_user_details_json);
    ("record_unknown_question_json", PData record_unknown_question_json);
    ("tools", PData tools);
    ("Evaluation", POpaque "Evaluation");
    ("Me", POpaque "Me") ].

Fixpoint lookup_global (name : string) (g : list (string * pyobj)) : option pyobj :=
  match g with
  | [] => None
  | (k, o) :: rest => if k =? name then Some o else lookup_global name rest
  end%string.

Record Me : Type := {
  name : string;
  linkedin : string;
  summary : string
}.

(** What [Me.__init__] reads: the client constructor, the pages of a PDF
    (each with the text [extract_text] gives, if any) and a text file. *)
Record files : Type := {
  new_client : exn + unit;
  pdf_pages : string -> exn + list (option string);
  read_text : string -> exn + string
}.

(** [Me.__init__]: the text of every page that has some is appended to
    [linkedin], then the summary is read. *)
Definition Me_init (F : files) : exn + Me :=
  match new_client F with
  | inl x => inl x
  | inr _ =>
      match pdf_pages F "me/profile_summary.pdf" with
      | inl x => inl x
      | inr pages =>
          let linkedin :=
            fold_left (fun acc page =>
                         match page with
                         | Some text => if (text =? "")%string then acc else acc +++ text
                         | None => acc
                         end) pages "" in
          match read_text F "me/summary.txt" with
          | inl x => inl x
          | inr summary =>
              inr {| name := "Michael Di Giatnomasso";
                     linkedin := linkedin;
                     summary := summary |}
          end
      end
  end.

Definition page_text (page : option string) : string :=
  match page with Some text => text | None => "" end.

Definition test_files : files := {|
  new_client := inr tt;
  pdf_pages := fun _ => inr [None; Some "Page 1 content"; Some ""; Some "Page 2 content"];
  read_text := fun _ => inr "Summary"
|}.

(** ** [database/question_db.py]: the store *)

(** Modelled from the spec: the table [unanswered_questions], whose DDL is
    not among the source files: an identifier generated by the store, the
    question text, three nullable columns and a defaulted creation time. *)
Record row : Type := {
  row_id : Z;
  question_text : string;
  category : option string;
  asked_by : option string;
  notes : option string;
  created_at : nat
}.

(** The seven statements the class sends. *)
Inductive statement : Type :=
| Insert (question_text : string) (category asked_by notes : option string)
| SelectAll
| SelectSearch (keyword : string)
| SelectByCategory (category : string)
| Delete (question_id : Z)
| UpdateNotes (notes : string) (question_id : Z)
| SelectStats.

(** What a cursor hands back: the [RETURNING id] column, a whole row, or a
    [(category, count)] pair. *)
Inductive result_row : Type :=
| RId (i : Z)
| RRow (r : row)
| RStat (category : option string) (count : nat).

Inductive db_action : Type :=
| AConnect
| ACursor
| AExecute (s : statement)
| ACommit.

Inductive db_event : Type :=
| DbConnect (conn : nat)
| DbConnectFailed
| DbCursor (conn : nat)
| DbCursorClosed (conn : nat)
| DbExecute (conn : nat) (s : statement)
| DbExecuteFailed (conn : nat) (s : statement)
| DbCommit (conn : nat)
| DbCommitFailed (conn : nat)
| DbClose (conn : nat).

(** The server and the client library: the committed rows, the identifier
    sequence, the open connections (each with the rows its transaction has
    written and not yet committed) and the log of what happened. *)
Record store : Type := {
  rows : list row;
  id_seq : Z;
  conns : list (nat * option (list row));
  log : list db_event
}.

(** The engine and the network, as far as the class can observe them. *)
Record db_env : Type := {
  (** [Some e]: this action raises [e] (connection refused, constraint
      violation, lost connection, ...) *)
  db_fault : list db_event -> db_action -> option exn;
  (** [now()] for the default of [created_at] *)
  db_now : list db_event -> nat;
  (** the engine's full-text match of a keyword against a question text *)
  fts_match : string -> string -> bool
}.

Definition dbM (A : Type) : Type := store -> outcome A * store.

Definition db_ret {A} (a : A) : dbM A := fun s => (Ret a, s).
Definition db_raise {A} (e : exn) : dbM A := fun s => (Raise e, s).

Definition db_bind {A B} (c : dbM A) (k : A -> dbM B) : dbM B :=
  fun s =>
    match c s with
    | (Ret a, s1) => k a s1
    | (Raise e, s1) => (Raise e, s1)
    | (OutOfFuel, s1) => (OutOfFuel, s1)
    end.

Notation "x <- c ;; k" := (db_bind c (fun x => k)) : db_scope.
Notation "c ;;; k" := (db_bind c (fun _ => k)) : db_scope.

(** [try: body finally: final] *)
Definition try_finally {A} (body : dbM A) (final : dbM unit) : dbM A :=
  fun s =>
    match body s with
    | (o, s1) =>
        match final s1 with
        | (Ret _, s2) => (o, s2)
        | (Raise e, s2) => (Raise e, s2)
        | (OutOfFuel, s2) => (OutOfFuel, s2)
        end
    end.

Definition emit (e : db_event) (s : store) : store :=
  {| rows := rows s; id_seq := id_seq s; conns := conns s;
     log := log s ++ [e] |}.

Fixpoint set_txn (conn : nat) (t : option (list row))
    (cs : list (nat * option (list row))) : list (nat * option (list row)) :=
  match cs with
  | [] => []
  | (c, t') :: rest =>
      if Nat.eqb c conn then (c, t) :: rest else (c, t') :: set_txn conn t rest
  end.

Fixpoint get_txn (conn : nat) (cs : list (nat * option (list row))) : option (list row) :=
  match cs with
  | [] => None
  | (c, t) :: rest => if Nat.eqb c conn then t else get_txn conn rest
  end.

(** A handle no open connection has. *)
Definition fresh_handle (cs : list (nat * option (list row))) : nat :=
  S (list_max (map fst cs)).

Definition drop_conn (conn : nat) (cs : list (nat * option (list row)))
  : list (nat * option (list row)) :=
  filter (fun ct => negb (Nat.eqb (fst ct) conn)) cs.

(** *** The statements *)

Fixpoint insert_desc {A} (key : A -> nat) (x : A) (l : list A) : list A :=
  match l with
  | [] => [x]
  | y :: rest => if Nat.leb (key y) (key x) then x :: l else y :: insert_desc key x rest
  end.

(** [ORDER BY key DESC]; rows with equal keys keep their relative order. *)
Definition order_desc {A} (key : A -> nat) (l : list A) : list A :=
  fold_right (insert_desc key) [] l.

Definition opt_string_eqb (a b : option string) : bool :=
  match a, b with
  | Some x, Some y => (x =? y)%string
  | None, None => true
  | _, _ => false
  end.

Fixpoint bump (c : option string) (acc : list (option string * nat))
  : list (option string * nat) :=
  match acc with
  | [] => [(c, 1)]
  | (c', n) :: rest =>
      if opt_string_eqb c' c then (c', S n) :: rest else (c', n) :: bump c rest
  end.

(** [GROUP BY category] with [COUNT] *)
Definition group_count (l : list row) : list (option string * nat) :=
  fold_left (fun acc r => bump (category r) acc) l [].

Definition set_notes (n : string) (r : row) : row :=
  {| row_id := row_id r; question_text := question_text r; category := category r;
     asked_by := asked_by r; notes := Some n; created_at := created_at r |}.

(** What a statement does to the rows and to the sequence, and what it
    returns, at time [now]. *)
Definition run_statement (match_text : string -> string -> bool) (now : nat)
    (st : statement) (table : list row) (seq : Z)
  : list row * Z * list result_row :=
  match st with
  | Insert q c a n =>
      let i := (seq + 1)%Z in
      (table ++ [{| row_id := i; question_text := q; category := c;
                    asked_by := a; notes := n; created_at := now |}],
       i, [RId i])
  | SelectAll =>
      (table, seq, map RRow (order_desc created_at table))
  | SelectSearch keyword =>
      (table, seq,
       map RRow (order_desc created_at
                   (filter (fun r => match_text keyword (question_text r)) table)))
  | SelectByCategory c =>
      (table, seq,
       map RRow (order_desc created_at
                   (filter (fun r => opt_string_eqb (category r) (Some c)) table)))
  | Delete i =>
      (filter (fun r => negb (row_id r =? i)%Z) table, seq,
       map (fun r => RId (row_id r)) (filter (fun r => (row_id r =? i)%Z) table))
  | UpdateNotes n i =>
      (map (fun r => if (row_id r =? i)%Z then set_notes n r else r) table, seq,
       map (fun r => RId (row_id r)) (filter (fun r => (row_id r =? i)%Z) table))
  | SelectStats =>
      (table, seq,
       map (fun cn => RStat (fst cn) (snd cn)) (order_desc snd (group_count table)))
  end.

(** ** Observations on traces *)

Definition is_create (e : event) : bool :=
  match e with EvCreate _ _ _ => true | _ => false end.

Definition is_parse (e : event) : bool :=
  match e with EvParse _ _ => true | _ => false end.

Definition is_post (e : event) : bool :=
  match e with EvPost _ _ _ _ => true | _ => false end.

(** A completion whose content the chat turn takes as a reply: a call with
    tools advertised that did not stop on a tool request, or the call of
    the regeneration step (which advertises no tools). *)
Definition reply_producing (e : event) : bool :=
  match e with
  | EvCreate _ (Some _) (inr c) => negb (finish_reason c =? "tool_calls")%string
  | EvCreate _ None (inr _) => true
  | _ => false
  end.

(** The call of the regeneration step: the only one without tools. *)
Definition is_regeneration (e : event) : bool :=
  match e with EvCreate _ None _ => true | _ => false end.

Definition count (p : event -> bool) (evs : list event) : nat :=
  length (filter p evs).

(** The completions the LLM returned, in order. *)
Fixpoint completions (evs : list event) : list completion :=
  match evs with
  | [] => []
  | EvCreate _ _ (inr c) :: rest => c :: completions rest
  | _ :: rest => completions rest
  end.

(** A tool-role entry that answers the tool call [tc]. *)
Definition answers (tc : tool_call) (m : chat_message) : Prop :=
  exists content, m = ToolMsg content (tc_id tc).

(** ** Environments for the examples *)

Definition test_getenv (k : string) : option string :=
  if (k =? "PUSHOVER_TOKEN")%string then Some "test-pushover-token"
  else if (k =? "PUSHOVER_USER")%string then Some "test-pushover-user"
  else None.

(** The LLM answers its [n]-th call with the [n]-th entry of [creates]; the
    evaluator and the notification endpoint always answer the same. *)
Definition scripted_env (creates : list (exn + completion))
    (parse : exn + option Evaluation) (post : exn + nat) : env := {|
  llm_create := fun past _ _ =>
    nth (count is_create past) creates (inl (ExternalError "no more completions"));
  llm_parse := fun _ _ => parse;
  requests_post := fun _ _ _ _ => post;
  os_getenv := test_getenv;
  foreign_call := fun _ _ _ => inl TypeError;
  interp_globals := fun _ => None
|}.

Definition stop_with (text : string) : completion :=
  {| finish_reason := "stop"; content := Some text; tool_calls := [] |}.

Definition ask_tools (tcs : list tool_call) : completion :=
  {| finish_reason := "tool_calls"; content := None; tool_calls := tcs |}.

Definition accept : exn + option Evaluation :=
  inr (Some {| is_acceptable := true; feedback := "Good" |}).

Definition reject : exn + option Evaluation :=
  inr (Some {| is_acceptable := false; feedback := "Too vague" |}).

Definition email_args : string :=
  "{" +++ dq +++ "email" +++ dq +++ ": " +++ dq +++ "test@example.com" +++ dq +++ "}".

Definition question_args : string :=
  "{" +++ dq +++ "question" +++ dq +++ ": " +++ dq +++ "Test?" +++ dq +++ "}".

Definition text_args : string :=
  "{" +++ dq +++ "text" +++ dq +++ ": " +++ dq +++ "hi" +++ dq +++ "}".

Definition call_details : tool_call :=
  {| tc_id := "call_1"; tc_name := "record_user_details"; tc_arguments := email_args |}.

Definition call_question : tool_call :=
  {| tc_id := "call_2"; tc_name := "record_unknown_question"; tc_arguments := question_args |}.

Definition call_unknown : tool_call :=
  {| tc_id := "call_789"; tc_name := "does_not_exist"; tc_arguments := "{}" |}.

Definition call_push : tool_call :=
  {| tc_id := "call_3"; tc_name := "push"; tc_arguments := text_args |}.

Definition call_malformed : tool_call :=
  {| tc_id := "call_123"; tc_name := "record_user_details"; tc_arguments := "not valid json" |}.

Definition call_unknown_malformed : tool_call :=
  {| tc_id := "call_4"; tc_name := "does_not_exist"; tc_arguments := "not valid json" |}.

Definition test_me : Me :=
  {| name := "Michael Di Giatnomasso"; linkedin := "LinkedIn"; summary := "Summary" |}.

(** The scenario of the spec: the LLM first asks for [record_user_details]
    (and, here, for a tool that does not exist), then answers. *)
Definition env_one_round : env :=
  scripted_env [inr (ask_tools [call_details; call_unknown]);
                inr (stop_with "I've recorded your details!")]
               accept (inr 200).

(** The evaluator rejects the first answer; the LLM answers the
    regeneration call with another text. *)
Definition env_rejected : env :=
  scripted_env [inr (stop_with "Initial reply"); inr (stop_with "Improved reply")]
               reject (inr 200).

(** The notification endpoint cannot be reached: [requests.post] raises. *)
Definition env_transport_down : env :=
  scripted_env [inr (ask_tools [call_question]); inr (stop_with "Noted")]
               accept (inl (ExternalError "requests.exceptions.ConnectionError")).

(** The notification endpoint answers with a server error. *)
Definition env_server_error : env :=
  scripted_env [inr (ask_tools [call_question]); inr (stop_with "Noted")]
               accept (inr 500).

(** The LLM asks for [push], a function of the module that is not among the
    advertised tools. *)
Definition env_asks_push : env :=
  scripted_env [inr (ask_tools [call_push]); inr (stop_with "Done")] accept (inr 200).

(** The second tool call of the round has malformed arguments. *)
Definition env_malformed : env :=
  scripted_env [inr (ask_tools [call_question; call_malformed; call_details]);
                inr (stop_with "never reached")]
               accept (inr 200).

(** A tool call with an unknown name and malformed arguments. *)
Definition env_unknown_malformed : env :=
  scripted_env [inr (ask_tools [call_unknown_malformed]); inr (stop_with "never reached")]
               accept (inr 200).

(** An LLM that asks for a tool in every completion. *)
Definition env_always_tools : env := {|
  llm_create := fun _ _ _ => inr (ask_tools [call_unknown]);
  llm_parse := fun _ _ => accept;
  requests_post := fun _ _ _ _ => inr 200;
  os_getenv := test_getenv;
  foreign_call := fun _ _ _ => inl TypeError;
  interp_globals := fun _ => None
|}.

(** A store engine that never fails, and one whose statements are all
    rejected. *)
Definition contains (keyword text : string) : bool :=
  match String.index 0 keyword text with Some _ => true | None => false end.

Definition db_no_faults : db_env := {|
  db_fault := fun _ _ => None;
  db_now := fun l => length l;
  fts_match := contains
|}.

Definition db_rejects_statements : db_env := {|
  db_fault := fun _ a =>
    match a with
    | AExecute _ => Some (ExternalError "psycopg2.Error")
    | _ => None
    end;
  db_now := fun l => length l;
  fts_match := contains
|}.

Definition db_unreachable : db_env := {|
  db_fault := fun _ a =>
    match a with
    | AConnect => Some (ExternalError "psycopg2.OperationalError")
    | _ => None
    end;
  db_now := fun l => length l;
  fts_match := contains
|}.

Definition empty_store : store :=
  {| rows := []; id_seq := 0%Z; conns := []; log := [] |}.

Definition two_rows : store :=
  {| rows := [ {| row_id := 1; question_text := "How do I switch from marketing to data analysis?";
                  category := Some "Career Change"; asked_by := Some "user_101";
                  notes := None; created_at := 10 |};
               {| row_id := 2; question_text := "What is your favourite colour?";
                  category := None; asked_by := None; notes := None; created_at := 20 |} ];
     id_seq := 2%Z; conns := []; log := [] |}.

(** The LLM answers at once and the evaluator accepts. *)
Definition env_direct : env :=
  scripted_env [inr (stop_with "Reply")] accept (inr 200).

(** The LLM service fails on the call that follows the first tool round. *)
Definition env_llm_fails_later : env :=
  scripted_env [inr (ask_tools [call_question]); inl (ExternalError "API Error")]
               accept (inr 200).

(** The evaluator call fails. *)
Definition env_evaluator_down : env :=
  scripted_env [inr (stop_with "Reply")] (inl (ExternalError "API Error")) (inr 200).

(** The evaluator's completion carries no parsed evaluation. *)
Definition env_evaluator_unparsed : env :=
  scripted_env [inr (stop_with "Reply")] (inr None) (inr 200).

(** The LLM service fails on the first call of the turn. *)
Definition env_llm_down : env :=
  scripted_env [inl (ExternalError "API Error")] accept (inr 200).

Definition user_said : string := "My email is test@example.com".

Definition earlier : list chat_message :=
  [Msg "user" "Hello"; Msg "assistant" "Hi, how can I help?"].

Section Program.

Variable py : PyRuntime.
Variable E : env.

(** [globals().get(tool_name)] *)
Definition globals_get (tool_name : string) : option pyobj :=
  match lookup_global tool_name module_globals with
  | Some o => Some o
  | None => interp_globals E tool_name
  end.

Definition push (text : json) : M unit :=
  fun past =>
    let token := os_getenv E "PUSHOVER_TOKEN" in
    let user := os_getenv E "PUSHOVER_USER" in
    (interact (EvPost token user (py_str py text))
              (requests_post E past token user (py_str py text)) ;;;
     ret tt) past.

Definition status_success : json := JObj [("status", JStr "success")].

Definition record_user_details (email name notes : json) : M json :=
  push (JStr ("Recording interest from " +++ py_str py name +++ " with email "
              +++ py_str py email +++ " and notes " +++ py_str py notes)) ;;;
  ret status_success.

Definition record_unknown_question (question : json) : M json :=
  push (JStr (py_str py question +++ " it appears I don't know how to answer that")) ;;;
  ret status_success.

Definition arg_or (k : string) (default : json) (kwargs : list (string * json)) : json :=
  match assoc k kwargs with Some v => v | None => default end.

(** A call of one of the module's functions with keyword arguments: an unexpected
    keyword or a missing required parameter is a [TypeError], raised before
    the body runs. *)
Definition call_func (f : func) (kwargs : list (string * json)) : M pyobj :=
  match f with
  | F_push =>
      if keys_within ["text"] kwargs then
        match assoc "text" kwargs with
        | Some text => push text ;;; ret (PData JNull)
        | None => raise TypeError
        end
      else raise TypeError
  | F_record_user_details =>
      if keys_within ["email"; "name"; "notes"] kwargs then
        match assoc "email" kwargs with
        | Some email =>
            r <- record_user_details email
                   (arg_or "name" (JStr "Name not provided") kwargs)
                   (arg_or "notes" (JStr "not provided") kwargs) ;;
            ret (PData r)
        | None => raise TypeError
        end
      else raise TypeError
  | F_record_unknown_question =>
      if keys_within ["question"] kwargs then
        match assoc "question" kwargs with
        | Some question => r <- record_unknown_question question ;; ret (PData r)
        | None => raise TypeError
        end
      else raise TypeError
  end.

(** The call of [tool] with [arguments] unpacked as keywords: [arguments]
    must be a mapping and [tool] callable. *)
Definition call (tool : pyobj) (arguments : json) : M pyobj :=
  match arguments with
  | JObj kwargs =>
      match tool with
      | PFunc f => call_func f kwargs
      | PData _ => raise TypeError
      | POpaque nm =>
          fun past => interact (EvForeign nm kwargs) (foreign_call E past nm kwargs) past
      end
  | _ => raise TypeError
  end.

(** The body of the [for] loop of [handle_tool_calls], for one tool call. *)
Definition handle_tool_call (tool_call : tool_call) : M chat_message :=
  let tool_name := tc_name tool_call in
  arguments <- lift (match json_loads py (tc_arguments tool_call) with
                     | Some j => inr j
                     | None => inl JSONDecodeError
                     end) ;;
  print ("Tool called: " +++ tool_name) ;;;
  let tool := globals_get tool_name in
  result <- (if truthy tool
             then match tool with
                  | Some t => call t arguments
                  | None => ret (PData (JObj []))
                  end
             else ret (PData (JObj []))) ;;
  content <- lift (dumps result) ;;
  ret (ToolMsg content (tc_id tool_call)).

Fixpoint handle_tool_calls_from (results : list chat_message) (tool_calls : list tool_call)
  : M (list chat_message) :=
  match tool_calls with
  | [] => ret results
  | tool_call :: rest =>
      r <- handle_tool_call tool_call ;;
      handle_tool_calls_from (results ++ [r]) rest
  end.

Definition handle_tool_calls (tool_calls : list tool_call) : M (list chat_message) :=
  handle_tool_calls_from [] tool_calls.

(** The eight blanks that start each continuation line of the two long
    f-strings (the backslash removes the line break, not the indentation). *)
Definition indent : string := "        ".

Definition system_prompt (self : Me) : string :=
  let n := name self in
  ("You are acting as " +++ n +++ ". You are answering questions on " +++ n +++ "'s website, "
   +++ indent +++ "particularly questions related to " +++ n +++ "'s career, background, skills and experience. "
   +++ indent +++ "Your responsibility is to represent " +++ n +++ " for interactions on the website as faithfully as possible. "
   +++ indent +++ "You are given a summary of " +++ n +++ "'s background profile which you can use to answer questions. "
   +++ indent +++ "Be professional and engaging, as if talking to a potential client or future employer who came across the website. "
   +++ indent +++ "If you don't know the answer to any question, use your record_unknown_question tool to record the question that you couldn't answer, even if it's about something trivial or unrelated to career. "
   +++ indent +++ "If the user is engaging in discussion, try to steer them towards getting in touch via email; ask for their email and record it using your record_user_details tool. ")
  +++ (nl +++ nl +++ "## Summary:" +++ nl +++ summary self +++ nl +++ nl
       +++ "## Summary Profile:" +++ nl +++ linkedin self +++ nl +++ nl)
  +++ ("With this context, please chat with the user, always staying in character as " +++ n +++ ".").

Definition evaluator_system_prompt (self : Me) : string :=
  let n := name self in
  ("You are an evaluator that decides whether a response to a question is acceptable. "
   +++ indent +++ "You are provided with a conversation between a User and an Agent. Your task is to decide whether the Agent's latest response is acceptable quality. "
   +++ indent +++ "The Agent is playing the role of " +++ n +++ " and is representing " +++ n +++ " on their website. "
   +++ indent +++ "The Agent has been instructed to be professional and engaging, as if talking to a potential client or future employer who came across the website. "
   +++ indent +++ "The Agent is expected to not answer any other random and disconnected questions and should redirect them to questions about " +++ n +++ " and information about their summary. "
   +++ indent +++ "When the Agent is using record_user_details tool make sure the agent asks the user for a name and email. "
   +++ indent +++ "The Agent has been provided with context on " +++ n +++ " in the form of their profile summary. Here's the information:")
  +++ (nl +++ nl +++ "## Summary:" +++ nl +++ summary self +++ nl +++ nl
       +++ "## Profile Summary:" +++ nl +++ linkedin self +++ nl +++ nl)
  +++ "With this context, please evaluate the latest response, replying with whether the response is acceptable and your feedback.".

Definition evaluator_user_prompt (reply : option string) (message : string)
    (history : list chat_message) : string :=
  ("Here's the conversation between the User and the Agent: " +++ nl +++ nl
   +++ repr_history py history +++ nl +++ nl)
  +++ ("Here's the latest message from the User: " +++ nl +++ nl +++ message +++ nl +++ nl)
  +++ ("Here's the latest response from the Agent: " +++ nl +++ nl +++ str_opt reply +++ nl +++ nl)
  +++ "Please evaluate the response, replying with whether it is acceptable as a bool and your feedback as a string answer.".

Definition create (messages : list chat_message) (tools : option json) : M completion :=
  fun past => interact (EvCreate messages tools) (llm_create E past messages tools) past.

Definition evaluate (self : Me) (reply : option string) (message : string)
    (history : list chat_message) : M (option Evaluation) :=
  let messages := [Msg "system" (evaluator_system_prompt self)]
                  ++ [Msg "user" (evaluator_user_prompt reply message history)] in
  fun past => interact (EvParse messages) (llm_parse E past messages) past.

Definition rerun (self : Me) (reply : option string) (message : string)
    (history : list chat_message) (feedback : string) : M (option string) :=
  let updated_system_prompt :=
    (system_prompt self +++ nl +++ nl +++ "## Previous answer rejected" +++ nl
     +++ "You just tried to reply, but the quality control rejected your reply" +++ nl)
    +++ ("## Your attempted answer:" +++ nl +++ str_opt reply +++ nl +++ nl)
    +++ ("## Reason for rejection:" +++ nl +++ feedback +++ nl +++ nl) in
  let messages := [Msg "system" updated_system_prompt] ++ history ++ [Msg "user" message] in
  response <- create messages None ;;
  ret (content response).

(** One iteration of the [while not done] loop: the new working
    conversation when the LLM asked for tools, the response when it did
    not. *)
Definition chat_round (messages : list chat_message) : M (list chat_message + completion) :=
  response <- create messages (Some tools) ;;
  if finish_reason response =? "tool_calls" then
    let message_obj := MessageObj (content response) (tool_calls response) in
    results <- handle_tool_calls (tool_calls response) ;;
    ret (inl ((messages ++ [message_obj]) ++ results))
  else
    ret (inr response).

(** The loop itself; it has no bound in the source, so the model counts
    iterations down from [fuel] and reports [OutOfFuel] when they are used
    up. *)
Fixpoint chat_loop (fuel : nat) (messages : list chat_message) : M completion :=
  match fuel with
  | 0 => diverge
  | S fuel' =>
      r <- chat_round messages ;;
      match r with
      | inl messages' => chat_loop fuel' messages'
      | inr response => ret response
      end
  end.

Definition chat (self : Me) (fuel : nat) (message : string) (history : list chat_message)
  : M (option string) :=
  let messages := [Msg "system" (system_prompt self)] ++ history ++ [Msg "user" message] in
  response <- chat_loop fuel messages ;;
  let reply := content response in
  evaluation <- evaluate self reply message history ;;
  match evaluation with
  | None => raise AttributeError
  | Some evaluation =>
      if negb (is_acceptable evaluation) then
        print "eval" ;;;
        print (feedback evaluation) ;;;
        rerun self reply message history (feedback evaluation)
      else
        ret reply
  end.

(** ** [database/question_db.py]: the class *)

Variable D : db_env.
Local Open Scope db_scope.

(** [psycopg2.connect(self.connection_string)] *)
Definition _get_connection : dbM nat :=
  fun s =>
    match db_fault D (log s) AConnect with
    | Some e => (Raise e, emit DbConnectFailed s)
    | None =>
        let conn := fresh_handle (conns s) in
        (Ret conn,
         {| rows := rows s; id_seq := id_seq s;
            conns := conns s ++ [(conn, None)];
            log := log s ++ [DbConnect conn] |})
    end.

(** [conn.cursor()] *)
Definition cursor (conn : nat) : dbM unit :=
  fun s =>
    match db_fault D (log s) ACursor with
    | Some e => (Raise e, s)
    | None => (Ret tt, emit (DbCursor conn) s)
    end.

Definition cursor_close (conn : nat) : dbM unit :=
  fun s => (Ret tt, emit (DbCursorClosed conn) s).

(** [with conn.cursor() as cur: body] *)
Definition with_cursor {A} (conn : nat) (body : dbM A) : dbM A :=
  cursor conn ;;; try_finally body (cursor_close conn).

(** [cur.execute(statement, parameters)]: the statement works on the rows
    of the connection's transaction, or on the committed rows when it
    starts one; the sequence advances outside any transaction. *)
Definition execute (conn : nat) (st : statement) : dbM (list result_row) :=
  fun s =>
    match db_fault D (log s) (AExecute st) with
    | Some e => (Raise e, emit (DbExecuteFailed conn st) s)
    | None =>
        let table := match get_txn conn (conns s) with
                     | Some t => t
                     | None => rows s
                     end in
        match run_statement (fts_match D) (db_now D (log s)) st table (id_seq s) with
        | (table', seq', res) =>
            (Ret res,
             {| rows := rows s; id_seq := seq';
                conns := set_txn conn (Some table') (conns s);
                log := log s ++ [DbExecute conn st] |})
        end
    end.

Definition fetchone (res : list result_row) : option result_row := hd_error res.
Definition fetchall (res : list result_row) : list result_row := res.

(** [conn.commit()] *)
Definition commit (conn : nat) : dbM unit :=
  fun s =>
    match db_fault D (log s) ACommit with
    | Some e => (Raise e, emit (DbCommitFailed conn) s)
    | None =>
        (Ret tt,
         {| rows := match get_txn conn (conns s) with
                    | Some t => t
                    | None => rows s
                    end;
            id_seq := id_seq s;
            conns := set_txn conn None (conns s);
            log := log s ++ [DbCommit conn] |})
    end.

(** [conn.close()]: what the transaction wrote and did not commit is lost. *)
Definition close (conn : nat) : dbM unit :=
  fun s =>
    (Ret tt,
     {| rows := rows s; id_seq := id_seq s;
        conns := drop_conn conn (conns s);
        log := log s ++ [DbClose conn] |}).

Definition add_question (question_text : string)
    (category asked_by notes : option string) : dbM Z :=
  conn <- _get_connection ;;
  try_finally
    (with_cursor conn
       (res <- execute conn (Insert question_text category asked_by notes) ;;
        match fetchone res with
        | Some (RId question_id) =>
            commit conn ;;;
            db_ret question_id
        | _ => db_raise TypeError
        end))
    (close conn).

Definition get_all_questions : dbM (list result_row) :=
  conn <- _get_connection ;;
  try_finally
    (with_cursor conn
       (res <- execute conn SelectAll ;;
        db_ret (fetchall res)))
    (close conn).

Definition search_questions (keyword : string) : dbM (list result_row) :=
  conn <- _get_connection ;;
  try_finally
    (with_cursor conn
       (res <- execute conn (SelectSearch keyword) ;;
        db_ret (fetchall res)))
    (close conn).

Definition get_by_category (category : string) : dbM (list result_row) :=
  conn <- _get_connection ;;
  try_finally
    (with_cursor conn
       (res <- execute conn (SelectByCategory category) ;;
        db_ret (fetchall res)))
    (close conn).

Definition is_not_none {A} (o : option A) : bool :=
  match o with Some _ => true | None => false end.

Definition delete_question (question_id : Z) : dbM bool :=
  conn <- _get_connection ;;
  try_finally
    (with_cursor conn
       (res <- execute conn (Delete question_id) ;;
        let result := fetchone res in
        commit conn ;;;
        db_ret (is_not_none result)))
    (close conn).

Definition update_notes (question_id : Z) (notes : string) : dbM bool :=
  conn <- _get_connection ;;
  try_finally
    (with_cursor conn
       (res <- execute conn (UpdateNotes notes question_id) ;;
        let result := fetchone res in
        commit conn ;;;
        db_ret (is_not_none result)))
    (close conn).

Definition get_category_stats : dbM (list result_row) :=
  conn <- _get_connection ;;
  try_finally
    (with_cursor conn
       (res <- execute conn SelectStats ;;
        db_ret (fetchall res)))
    (close conn).

(** The operations of the class, as data, to state a property of all of
    them at once. *)
Inductive operation : Type :=
| OpAdd (question_text : string) (category asked_by notes : option string)
| OpList
| OpSearch (keyword : string)
| OpByCategory (category : string)
| OpDelete (question_id : Z)
| OpUpdateNotes (question_id : Z) (notes : string)
| OpStats.

Inductive op_result : Type :=
| ResId (i : Z)
| ResRows (l : list result_row)
| ResBool (b : bool).

Definition map_outcome {A B} (f : A -> B) (o : outcome A) : outcome B :=
  match o with
  | Ret a => Ret (f a)
  | Raise e => Raise e
  | OutOfFuel => OutOfFuel
  end.

Definition run_operation (op : operation) (s : store) : outcome op_result * store :=
  match op with
  | OpAdd q c a n => let (o, s') := add_question q c a n s in (map_outcome ResId o, s')
  | OpList => let (o, s') := get_all_questions s in (map_outcome ResRows o, s')
  | OpSearch k => let (o, s') := search_questions k s in (map_outcome ResRows o, s')
  | OpByCategory c => let (o, s') := get_by_category c s in (map_outcome ResRows o, s')
  | OpDelete i => let (o, s') := delete_question i s in (map_outcome ResBool o, s')
  | OpUpdateNotes i n => let (o, s') := update_notes i n s in (map_outcome ResBool o, s')
  | OpStats => let (o, s') := get_category_stats s in (map_outcome ResRows o, s')
  end.

(** *** The common shape of the seven operations

    Every method opens a connection and, inside [try ... finally
    conn.close()] and [with conn.cursor()], executes one statement and then
    returns a value computed from the result ([TReturn]), commits and
    returns ([TCommitReturn]), or raises ([TRaise]).  [scoped_run] is what
    such a method evaluates to, case by case. *)
Inductive tail (A : Type) : Type :=
| TReturn (v : A)
| TCommitReturn (v : A)
| TRaise (e : exn).
Arguments TReturn {A} v.
Arguments TCommitReturn {A} v.
Arguments TRaise {A} e.

Definition run_tail {A} (conn : nat) (t : tail A) : dbM A :=
  match t with
  | TReturn v => db_ret v
  | TCommitReturn v => commit conn ;;; db_ret v
  | TRaise e => db_raise e
  end.

Definition scoped_run {A} (st : statement) (k : list result_row -> tail A) (s : store)
  : outcome A * store :=
  match db_fault D (log s) AConnect with
  | Some e => (Raise e, emit DbConnectFailed s)
  | None =>
      let conn := fresh_handle (conns s) in
      let l1 := log s ++ [DbConnect conn] in
      match db_fault D l1 ACursor with
      | Some e =>
          (Raise e,
           {| rows := rows s; id_seq := id_seq s; conns := conns s;
              log := l1 ++ [DbClose conn] |})
      | None =>
          let l2 := l1 ++ [DbCursor conn] in
          match db_fault D l2 (AExecute st) with
          | Some e =>
              (Raise e,
               {| rows := rows s; id_seq := id_seq s; conns := conns s;
                  log := l2 ++ [DbExecuteFailed conn st; DbCursorClosed conn; DbClose conn] |})
          | None =>
              match run_statement (fts_match D) (db_now D l2) st (rows s) (id_seq s) with
              | (table', seq', res) =>
                  let l3 := l2 ++ [DbExecute conn st] in
                  match k res with
                  | TReturn v =>
                      (Ret v,
                       {| rows := rows s; id_seq := seq'; conns := conns s;
                          log := l3 ++ [DbCursorClosed conn; DbClose conn] |})
                  | TRaise e =>
                      (Raise e,
                       {| rows := rows s; id_seq := seq'; conns := conns s;
                          log := l3 ++ [DbCursorClosed conn; DbClose conn] |})
                  | TCommitReturn v =>
                      match db_fault D l3 ACommit with
                      | Some e =>
                          (Raise e,
                           {| rows := rows s; id_seq := seq'; conns := conns s;
                              log := l3 ++ [DbCommitFailed conn; DbCursorClosed conn;
                                            DbClose conn] |})
                      | None =>
                          (Ret v,
                           {| rows := table'; id_seq := seq'; conns := conns s;
                              log := l3 ++ [DbCommit conn; DbCursorClosed conn;
                                            DbClose conn] |})
                      end
                  end
              end
          end
      end
  end.

Definition map_tail {A B} (f : A -> B) (t : tail A) : tail B :=
  match t with
  | TReturn v => TReturn (f v)
  | TCommitReturn v => TCommitReturn (f v)
  | TRaise e => TRaise e
  end.

(** The statement an operation sends. *)
Definition statement_of (op : operation) : statement :=
  match op with
  | OpAdd q c a n => Insert q c a n
  | OpList => SelectAll
  | OpSearch k => SelectSearch k
  | OpByCategory c => SelectByCategory c
  | OpDelete i => Delete i
  | OpUpdateNotes i n => UpdateNotes n i
  | OpStats => SelectStats
  end.

(** What can happen on a connection between its opening and its closing:
    the call for a cursor fails, or the cursor is opened, the one statement
    is sent (and fails, or succeeds and is or is not followed by a commit
    that succeeds or fails) and the cursor is closed. *)
Definition inside_connection (conn : nat) (st : statement) (inner : list db_event) : Prop :=
  inner = []
  \/ inner = [DbCursor conn; DbExecuteFailed conn st; DbCursorClosed conn]
  \/ inner = [DbCursor conn; DbExecute conn st; DbCursorClosed conn]
  \/ inner = [DbCursor conn; DbExecute conn st; DbCommit conn; DbCursorClosed conn]
  \/ inner = [DbCursor conn; DbExecute conn st; DbCommitFailed conn; DbCursorClosed conn].

Definition is_raise {A} (o : outcome A) : bool :=
  match o with Raise _ => true | _ => false end.

(** The events a tool call can cause: a line printed, a notification, a
    call of a library object; never an LLM call. *)
Definition tool_event (e : event) : bool :=
  match e with
  | EvPrint _ | EvPost _ _ _ _ | EvForeign _ _ _ => true
  | EvCreate _ _ _ | EvParse _ _ => false
  end.

(** What one tool round appends to the working conversation: the message
    object of the completion, then the tool-role entries. *)
Definition block_messages (b : completion * list chat_message) : list chat_message :=
  MessageObj (content (fst b)) (tool_calls (fst b)) :: snd b.

(** The completion asked for tools and every tool call has its entry, in
    the order of the requests. *)
Definition well_answered (b : completion * list chat_message) : Prop :=
  finish_reason (fst b) = "tool_calls" /\ Forall2 answers (tool_calls (fst b)) (snd b).

(** The state of the loop after [k] tool rounds, none of which raised:
    the working conversation and the events emitted so far.  [None] when
    one of the first [k] iterations was not a completed tool round. *)
Fixpoint run_rounds (k : nat) (messages : list chat_message) (past : list event)
  : option (list chat_message * list event) :=
  match k with
  | 0 => Some (messages, [])
  | S k' =>
      match chat_round messages past with
      | (Ret (inl messages'), evs) =>
          match run_rounds k' messages' (past ++ evs) with
          | Some (m, evs') => Some (m, evs ++ evs')
          | None => None
          end
      | _ => None
      end
  end.

(** A computation that emits only tool events. *)
Definition quiet {A} (c : M A) : Prop :=
  forall past, forallb tool_event (snd (c past)) = true.

Create HintDb quiet.

Ltac break_match :=
  match goal with
  | |- context [match ?x with _ => _ end] => destruct x eqn:?
  end.

(** The lines printed, in order. *)
Fixpoint printed (evs : list event) : list string :=
  match evs with
  | [] => []
  | EvPrint line :: rest => line :: printed rest
  | _ :: rest => printed rest
  end.

(** The tool call names one of the module's own functions. *)
Definition names_function (tc : tool_call) : bool :=
  match globals_get (tc_name tc) with
  | Some (PFunc _) => true
  | _ => false
  end.

(** The operations that only read. *)
Definition is_query (op : operation) : bool :=
  match op with
  | OpList | OpSearch _ | OpByCategory _ | OpStats => true
  | OpAdd _ _ _ _ | OpDelete _ | OpUpdateNotes _ _ => false
  end.

Definition is_commit (e : db_event) : bool :=
  match e with DbCommit _ => true | _ => false end.

(** The identifiers of the rows are pairwise distinct and none is beyond
    the last value the sequence gave out. *)
Definition ids_consistent (s : store) : Prop :=
  NoDup (map row_id (rows s))
  /\ Forall (fun r => (row_id r <= id_seq s)%Z) (rows s).

(** Newest first. *)
Definition newest_first (l : list row) : Prop :=
  StronglySorted (fun r1 r2 => created_at r2 <= created_at r1) l.

(** The number of rows of a category ([None]: no category). *)
Definition rows_of_category (c : option string) (l : list row) : nat :=
  length (filter (fun r => opt_string_eqb (category r) c) l).

(** What an operation returns when nothing fails: the identifier the
    sequence gives out, whether a row has the identifier, or the rows its
    statement selects (read at time [now]). *)
Definition expected_value (op : operation) (s : store) (now : nat) : op_result :=
  match op with
  | OpAdd _ _ _ _ => ResId (id_seq s + 1)%Z
  | OpDelete i | OpUpdateNotes i _ =>
      ResBool (existsb (fun r => (row_id r =? i)%Z) (rows s))
  | OpList | OpSearch _ | OpByCategory _ | OpStats =>
      ResRows (snd (run_statement (fts_match D) now (statement_of op) (rows s) (id_seq s)))
  end.

(** ** Properties of [src/app.py] *)

Local Close Scope db_scope.
Local Open Scope app_scope.

Lemma bind_Ret_inv {A B} (c : M A) (k : A -> M B) past b evs :
  bind c k past = (Ret b, evs) ->
  exists a ev1 ev2,
    c past = (Ret a, ev1) /\ k a (past ++ ev1) = (Ret b, ev2) /\ evs = ev1 ++ ev2.
Proof.
  unfold bind. destruct (c past) as [[a | e |] ev1]; try discriminate.
  destruct (k a (past ++ ev1)) as [o ev2] eqn:Hk. intros H. inversion H; subst.
  exists a, ev1, ev2. auto.
Qed.

Lemma bind_Ret {A B} (c : M A) (k : A -> M B) past a ev1 :
  c past = (Ret a, ev1) ->
  bind c k past = (fst (k a (past ++ ev1)), ev1 ++ snd (k a (past ++ ev1))).
Proof.
  intros H. unfold bind. rewrite H. destruct (k a (past ++ ev1)); reflexivity.
Qed.

Lemma bind_Raise {A B} (c : M A) (k : A -> M B) past e ev1 :
  c past = (Raise e, ev1) -> bind c k past = (Raise e, ev1).
Proof. intros H. unfold bind. rewrite H. reflexivity. Qed.

Lemma bind_OutOfFuel {A B} (c : M A) (k : A -> M B) past ev1 :
  c past = (OutOfFuel, ev1) -> bind c k past = (OutOfFuel, ev1).
Proof. intros H. unfold bind. rewrite H. reflexivity. Qed.

Lemma handle_tool_call_answers tc past r evs :
  handle_tool_call tc past = (Ret r, evs) -> answers tc r.
Proof.
  unfold handle_tool_call. intros H.
  apply bind_Ret_inv in H as (arguments & ev1 & ev2 & _ & H & _).
  apply bind_Ret_inv in H as (u & ev3 & ev4 & _ & H & _).
  apply bind_Ret_inv in H as (result & ev5 & ev6 & _ & H & _).
  apply bind_Ret_inv in H as (content & ev7 & ev8 & _ & H & _).
  unfold ret in H. inversion H. exists content. reflexivity.
Qed.

Lemma handle_tool_calls_from_answers tcs : forall acc past results evs,
  handle_tool_calls_from acc tcs past = (Ret results, evs) ->
  exists rs, results = acc ++ rs /\ Forall2 answers tcs rs.
Proof.
  induction tcs as [| tc rest IH]; intros acc past results evs H; simpl in H.
  - unfold ret in H. inversion H; subst. exists []. split.
    + now rewrite app_nil_r.
    + constructor.
  - apply bind_Ret_inv in H as (r & ev1 & ev2 & Hr & H & _).
    apply IH in H as (rs & -> & Hrs).
    exists (r :: rs). split.
    + now rewrite <- app_assoc.
    + constructor; [eapply handle_tool_call_answers; eauto | assumption].
Qed.

Lemma handle_tool_calls_answers tcs past results evs :
  handle_tool_calls tcs past = (Ret results, evs) -> Forall2 answers tcs results.
Proof.
  intros H. apply handle_tool_calls_from_answers in H as (rs & -> & Hrs). exact Hrs.
Qed.

Lemma quiet_bind {A B} (c : M A) (k : A -> M B) :
  quiet c -> (forall a, quiet (k a)) -> quiet (bind c k).
Proof.
  intros Hc Hk past. unfold bind. specialize (Hc past).
  destruct (c past) as [[a | e |] ev1]; simpl in *; auto.
  specialize (Hk a (past ++ ev1)).
  destruct (k a (past ++ ev1)) as [o ev2]. simpl in *.
  now rewrite forallb_app, Hc, Hk.
Qed.

Lemma quiet_ret {A} (a : A) : quiet (ret a).
Proof. intros past. reflexivity. Qed.

Lemma quiet_raise {A} (e : exn) : quiet (@raise A e).
Proof. intros past. reflexivity. Qed.

Lemma quiet_lift {A} (r : exn + A) : quiet (lift r).
Proof. destruct r; [apply quiet_raise | apply quiet_ret]. Qed.

Lemma quiet_print line : quiet (print line).
Proof. intros past. reflexivity. Qed.

Lemma quiet_push text : quiet (push text).
Proof. intros past. unfold push, bind, interact, ret. now destruct (requests_post _ _ _ _ _). Qed.

#[local] Hint Resolve quiet_ret quiet_raise quiet_lift quiet_print quiet_push : quiet.

Lemma quiet_call_func f kwargs : quiet (call_func f kwargs).
Proof.
  destruct f; simpl; unfold record_user_details, record_unknown_question;
    repeat break_match; auto with quiet;
    repeat (apply quiet_bind; intros; auto with quiet).
Qed.

Lemma quiet_call tool arguments : quiet (call tool arguments).
Proof.
  unfold call. destruct arguments; auto with quiet.
  destruct tool; auto with quiet.
  - apply quiet_call_func.
  - intros past. unfold interact. reflexivity.
Qed.

Lemma handle_tool_call_events tc past :
  forallb tool_event (snd (handle_tool_call tc past)) = true.
Proof.
  revert past. change (quiet (handle_tool_call tc)). unfold handle_tool_call.
  apply quiet_bind; [apply quiet_lift | intros arguments].
  apply quiet_bind; [apply quiet_print | intros _].
  apply quiet_bind.
  - destruct (truthy _); [| apply quiet_ret].
    destruct (globals_get _); [apply quiet_call | apply quiet_ret].
  - intros result. apply quiet_bind; [apply quiet_lift | intros; apply quiet_ret].
Qed.

Lemma handle_tool_calls_from_events tcs : forall acc past,
  forallb tool_event (snd (handle_tool_calls_from acc tcs past)) = true.
Proof.
  induction tcs as [| tc rest IH]; intros acc past; simpl.
  - reflexivity.
  - unfold bind. pose proof (handle_tool_call_events tc past) as H1.
    destruct (handle_tool_call tc past) as [[r | e |] ev1]; simpl in *; auto.
    specialize (IH (acc ++ [r]) (past ++ ev1)).
    destruct (handle_tool_calls_from (acc ++ [r]) rest (past ++ ev1)) as [o ev2].
    simpl in *. rewrite forallb_app, H1, IH. reflexivity.
Qed.

Lemma handle_tool_calls_events tcs past :
  forallb tool_event (snd (handle_tool_calls tcs past)) = true.
Proof. apply handle_tool_calls_from_events. Qed.

Lemma tool_events_completions evs :
  forallb tool_event evs = true -> completions evs = [].
Proof.
  induction evs as [| e evs IH]; simpl; [reflexivity |].
  intros H. apply andb_prop in H as [He Hevs].
  destruct e; simpl in He; try discriminate; auto.
Qed.

Lemma tool_events_count p evs :
  (forall e, tool_event e = true -> p e = false) ->
  forallb tool_event evs = true -> count p evs = 0.
Proof.
  intros Hp. unfold count. induction evs as [| e evs IH]; simpl; [reflexivity |].
  intros H. apply andb_prop in H as [He Hevs]. rewrite (Hp e He). auto.
Qed.

Lemma completions_app evs1 evs2 :
  completions (evs1 ++ evs2) = completions evs1 ++ completions evs2.
Proof.
  induction evs1 as [| e evs1 IH]; simpl; [reflexivity |].
  destruct e as [m t [x | c] | | | |]; simpl; rewrite ?IH; reflexivity.
Qed.

Lemma count_app p evs1 evs2 : count p (evs1 ++ evs2) = count p evs1 + count p evs2.
Proof. unfold count. rewrite filter_app, length_app. reflexivity. Qed.

(** What a completed tool round is. *)
Lemma chat_round_inl_inv messages past messages' evs :
  chat_round messages past = (Ret (inl messages'), evs) ->
  exists response results evs_h,
    llm_create E past messages (Some tools) = inr response
    /\ finish_reason response = "tool_calls"
    /\ handle_tool_calls (tool_calls response)
         (past ++ [EvCreate messages (Some tools) (inr response)]) = (Ret results, evs_h)
    /\ messages' = messages ++ block_messages (response, results)
    /\ evs = EvCreate messages (Some tools) (inr response) :: evs_h.
Proof.
  unfold chat_round, create. intros H.
  apply bind_Ret_inv in H as (response & ev1 & ev2 & Hc & H & ->).
  unfold interact in Hc.
  destruct (llm_create E past messages (Some tools)) as [x | c] eqn:Hllm;
    inversion Hc; subst.
  destruct (finish_reason response =? "tool_calls")%string eqn:Hf.
  - apply bind_Ret_inv in H as (results & ev3 & ev4 & Hh & H & ->).
    unfold ret in H. inversion H; subst.
    exists response, results, ev3. repeat split; auto.
    + now apply String.eqb_eq.
    + unfold block_messages. simpl. now rewrite <- app_assoc.
    + simpl. now rewrite app_nil_r.
  - unfold ret in H. inversion H.
Qed.

Lemma chat_round_first_event messages past :
  exists o rest,
    chat_round messages past
    = (o, EvCreate messages (Some tools) (llm_create E past messages (Some tools)) :: rest).
Proof.
  unfold chat_round, create, bind, interact.
  destruct (llm_create E past messages (Some tools)) as [x | c]; [eauto |].
  destruct (finish_reason c =? "tool_calls")%string; simpl.
  - destruct (handle_tool_calls (tool_calls c) _) as [[r | e |] evh]; simpl; eauto.
  - eauto.
Qed.

Lemma chat_loop_first_event fuel messages past :
  exists o rest,
    chat_loop (S fuel) messages past
    = (o, EvCreate messages (Some tools) (llm_create E past messages (Some tools)) :: rest).
Proof.
  simpl. destruct (chat_round_first_event messages past) as (o & rest & H).
  unfold bind. rewrite H. destruct o as [[m' | r] | e |]; simpl; eauto.
  destruct (chat_loop fuel m' _) as [o' ev']. simpl. eauto.
Qed.

(** The loop after [k] completed tool rounds is the loop started afresh on
    the conversation those rounds built. *)
Lemma chat_loop_after_rounds k : forall messages past m evs fuel,
  run_rounds k messages past = Some (m, evs) ->
  chat_loop (k + fuel) messages past
  = (fst (chat_loop fuel m (past ++ evs)), evs ++ snd (chat_loop fuel m (past ++ evs))).
Proof.
  induction k as [| k IH]; intros messages past m evs fuel H; simpl in H.
  - inversion H; subst. rewrite app_nil_r. simpl. now destruct (chat_loop fuel m past).
  - destruct (chat_round messages past) as [[[m1 | r] | e |] ev1] eqn:Hr; try discriminate.
    destruct (run_rounds k m1 (past ++ ev1)) as [[m2 ev2] |] eqn:Hk; try discriminate.
    inversion H; subst. simpl. unfold bind. rewrite Hr.
    rewrite (IH _ _ _ _ fuel Hk). simpl. rewrite <- !app_assoc. reflexivity.
Qed.

Lemma run_rounds_shape k : forall messages past m evs,
  run_rounds k messages past = Some (m, evs) ->
  exists blocks,
    length blocks = k
    /\ m = messages ++ flat_map block_messages blocks
    /\ Forall well_answered blocks
    /\ completions evs = map fst blocks
    /\ count is_create evs = k.
Proof.
  induction k as [| k IH]; intros messages past m evs H; simpl in H.
  - inversion H; subst. exists []. simpl. rewrite app_nil_r. repeat split; auto.
  - destruct (chat_round messages past) as [[[m1 | r] | e |] ev1] eqn:Hr; try discriminate.
    destruct (run_rounds k m1 (past ++ ev1)) as [[m2 ev2] |] eqn:Hk; try discriminate.
    inversion H; subst. clear H.
    apply chat_round_inl_inv in Hr as (response & results & evh & Hllm & Hf & Hh & -> & ->).
    apply IH in Hk as (blocks & Hlen & -> & Hwa & Hcs & Hcount).
    pose proof (handle_tool_calls_events (tool_calls response)
                  (past ++ [EvCreate messages (Some tools) (inr response)])) as Hev.
    rewrite Hh in Hev. simpl in Hev.
    exists ((response, results) :: blocks). repeat split.
    + simpl. now rewrite Hlen.
    + simpl. now rewrite <- app_assoc.
    + constructor; [split; simpl; [assumption |] | assumption].
      eapply handle_tool_calls_answers; eauto.
    + simpl. rewrite completions_app, (tool_events_completions _ Hev), Hcs. reflexivity.
    + rewrite count_app, Hcount.
      change (EvCreate messages (Some tools) (inr response) :: evh)
        with ([EvCreate messages (Some tools) (inr response)] ++ evh).
      rewrite count_app, (tool_events_count is_create evh); [reflexivity | | assumption].
      intros e He. destruct e; simpl in *; congruence.
Qed.

Lemma chat_round_inr_inv messages past response evs :
  chat_round messages past = (Ret (inr response), evs) ->
  llm_create E past messages (Some tools) = inr response
  /\ finish_reason response <> "tool_calls"
  /\ evs = [EvCreate messages (Some tools) (inr response)].
Proof.
  unfold chat_round, create. intros H.
  apply bind_Ret_inv in H as (r & ev1 & ev2 & Hc & H & ->).
  unfold interact in Hc.
  destruct (llm_create E past messages (Some tools)) as [x | c] eqn:Hllm;
    inversion Hc; subst.
  destruct (finish_reason r =? "tool_calls")%string eqn:Hf.
  - apply bind_Ret_inv in H as (results & ev3 & ev4 & Hh & H & ->).
    unfold ret in H. inversion H.
  - unfold ret in H. inversion H; subst. repeat split; auto.
    now apply String.eqb_neq.
Qed.

(** A loop that returns went through some number of completed tool rounds
    and then received a completion that does not ask for tools. *)
Lemma chat_loop_Ret_inv fuel : forall messages past response evs,
  chat_loop fuel messages past = (Ret response, evs) ->
  exists k m evs1,
    k < fuel
    /\ run_rounds k messages past = Some (m, evs1)
    /\ llm_create E (past ++ evs1) m (Some tools) = inr response
    /\ finish_reason response <> "tool_calls"
    /\ evs = evs1 ++ [EvCreate m (Some tools) (inr response)].
Proof.
  induction fuel as [| fuel IH]; intros messages past response evs H; simpl in H.
  - discriminate.
  - apply bind_Ret_inv in H as (r & ev1 & ev2 & Hr & H & ->).
    destruct r as [m1 | resp].
    + apply IH in H as (k & m & evs1 & Hk & Hrr & Hllm & Hf & ->).
      exists (S k), m, (ev1 ++ evs1).
      split; [lia |]. split; [simpl; now rewrite Hr, Hrr |].
      split; [now rewrite app_assoc |].
      split; [assumption | now rewrite app_assoc].
    + unfold ret in H. inversion H; subst.
      apply chat_round_inr_inv in Hr as (Hllm & Hf & ->).
      exists 0, messages, [].
      split; [lia |]. split; [reflexivity |].
      split; [now rewrite app_nil_r |].
      split; [assumption | reflexivity].
Qed.

Lemma run_rounds_counts k messages past m evs :
  run_rounds k messages past = Some (m, evs) ->
  count is_parse evs = 0 /\ count reply_producing evs = 0
  /\ count is_regeneration evs = 0.
Proof.
  revert messages past m evs.
  induction k as [| k IH]; intros messages past m evs H; simpl in H.
  - inversion H; subst. auto.
  - destruct (chat_round messages past) as [[[m1 | r] | e |] ev1] eqn:Hr; try discriminate.
    destruct (run_rounds k m1 (past ++ ev1)) as [[m2 ev2] |] eqn:Hk; try discriminate.
    inversion H; subst. clear H.
    apply chat_round_inl_inv in Hr as (response & results & evh & Hllm & Hf & Hh & -> & ->).
    apply IH in Hk as (H1 & H2 & H3).
    pose proof (handle_tool_calls_events (tool_calls response)
                  (past ++ [EvCreate messages (Some tools) (inr response)])) as Hev.
    rewrite Hh in Hev. simpl in Hev.
    change (EvCreate messages (Some tools) (inr response) :: evh)
      with ([EvCreate messages (Some tools) (inr response)] ++ evh).
    rewrite !count_app, H1, H2, H3.
    rewrite !(tool_events_count _ evh) by
      (try assumption; intros e He; destruct e; simpl in *; congruence).
    unfold count. simpl. rewrite Hf. simpl. auto.
Qed.

Lemma chat_loop_Ret_counts fuel messages past response evs :
  chat_loop fuel messages past = (Ret response, evs) ->
  count is_parse evs = 0 /\ count reply_producing evs = 1
  /\ count is_regeneration evs = 0.
Proof.
  intros H. apply chat_loop_Ret_inv in H as (k & m & evs1 & _ & Hrr & _ & Hf & ->).
  apply run_rounds_counts in Hrr as (H1 & H2 & H3).
  rewrite !count_app, H1, H2, H3. unfold count. simpl.
  apply String.eqb_neq in Hf. rewrite Hf. simpl. auto.
Qed.

Lemma bind_events_prefix {A B} (c : M A) (k : A -> M B) past :
  exists o rest, bind c k past = (o, snd (c past) ++ rest).
Proof.
  unfold bind. destruct (c past) as [[a | e |] ev1]; simpl.
  - destruct (k a (past ++ ev1)) as [o ev2]. eauto.
  - exists (Raise e), []. now rewrite app_nil_r.
  - exists OutOfFuel, []. now rewrite app_nil_r.
Qed.

(** C1. The request of every LLM call of a chat turn.  After [k] completed
    tool rounds the working conversation is the system entry with the
    persona prompt, the supplied history in order and the new user message,
    followed by [k] blocks, one per round: the assistant message of that
    round's completion, then exactly one tool-role entry per requested tool
    call, each with the [tool_call_id] of its request, in the order of the
    requests; and the next LLM call of the turn is issued with exactly that
    conversation.  With [k = 0] this is the first call. *)
Theorem chat_working_conversation (self : Me) (message : string)
    (history : list chat_message) (past : list event)
    (k : nat) (m : list chat_message) (evs : list event) :
  run_rounds k ([Msg "system" (system_prompt self)] ++ history ++ [Msg "user" message]) past
  = Some (m, evs) ->
  (exists blocks,
      length blocks = k
      /\ m = ([Msg "system" (system_prompt self)] ++ history ++ [Msg "user" message])
             ++ flat_map block_messages blocks
      /\ Forall well_answered blocks
      /\ completions evs = map fst blocks)
  /\ forall fuel, k < fuel ->
       exists o rest,
         chat self fuel message history past
         = (o, evs ++ EvCreate m (Some tools) (llm_create E (past ++ evs) m (Some tools)) :: rest).
Proof.
  intros H. split.
  - apply run_rounds_shape in H as (blocks & H1 & H2 & H3 & H4 & _). eauto.
  - intros fuel Hk.
    assert (exists f, fuel = k + S f) as (f & ->) by (exists (fuel - S k); lia).
    unfold chat.
    match goal with
    | |- exists o rest, bind ?c ?kont past = _ =>
        destruct (bind_events_prefix c kont past) as (o & rest & Hb)
    end.
    rewrite Hb, (chat_loop_after_rounds _ _ _ _ _ _ H).
    destruct (chat_loop_first_event f m (past ++ evs)) as (o' & rest' & Hl).
    rewrite Hl. cbn [snd]. exists o, (rest' ++ rest).
    now rewrite <- app_assoc.
Qed.

Lemma evaluate_run self reply message history past :
  evaluate self reply message history past
  = (match llm_parse E past
             [Msg "system" (evaluator_system_prompt self);
              Msg "user" (evaluator_user_prompt reply message history)] with
     | inr a => Ret a
     | inl x => Raise x
     end,
     [EvParse [Msg "system" (evaluator_system_prompt self);
               Msg "user" (evaluator_user_prompt reply message history)]
        (llm_parse E past
           [Msg "system" (evaluator_system_prompt self);
            Msg "user" (evaluator_user_prompt reply message history)])]).
Proof. reflexivity. Qed.

Lemma rerun_run self reply message history fb past :
  exists request,
    rerun self reply message history fb past
    = (match llm_create E past request None with
       | inr c => Ret (content c)
       | inl x => Raise x
       end,
       [EvCreate request None (llm_create E past request None)]).
Proof.
  unfold rerun, create, bind, interact, ret.
  match goal with
  | |- context [llm_create E past ?r None] => exists r
  end.
  destruct (llm_create E past _ None); reflexivity.
Qed.

(** What follows the loop in [chat], once the loop has produced its
    response. *)
Lemma chat_after_loop self fuel message history past response evs :
  chat_loop fuel ([Msg "system" (system_prompt self)] ++ history ++ [Msg "user" message]) past
  = (Ret response, evs) ->
  let request := [Msg "system" (evaluator_system_prompt self);
                  Msg "user" (evaluator_user_prompt (content response) message history)] in
  let verdict := llm_parse E (past ++ evs) request in
  chat self fuel message history past
  = match verdict with
    | inl x => (Raise x, evs ++ [EvParse request verdict])
    | inr None => (Raise AttributeError, evs ++ [EvParse request verdict])
    | inr (Some evaluation) =>
        if is_acceptable evaluation
        then (Ret (content response), evs ++ [EvParse request verdict])
        else
          let shown := evs ++ [EvParse request verdict; EvPrint "eval";
                               EvPrint (feedback evaluation)] in
          (fst (rerun self (content response) message history (feedback evaluation)
                  (past ++ shown)),
           shown ++ snd (rerun self (content response) message history
                           (feedback evaluation) (past ++ shown)))
    end.
Proof.
  intros H request verdict. unfold chat.
  rewrite (bind_Ret _ _ _ _ _ H).
  pose proof (evaluate_run self (content response) message history (past ++ evs)) as He.
  fold request in He. fold verdict in He. clearbody verdict.
  destruct verdict as [x | [evaluation |]].
  - rewrite (bind_Raise _ _ _ _ _ He). reflexivity.
  - rewrite (bind_Ret _ _ _ _ _ He).
    destruct (is_acceptable evaluation); cbn [negb fst snd].
    + unfold ret. reflexivity.
    + unfold bind at 1 3. unfold print at 1 3. unfold bind at 1 2. unfold print at 1 2.
      rewrite <- !app_assoc. simpl.
      destruct (rerun _ _ _ _ _ _) as [o ev]. simpl.
      rewrite <- ?app_assoc. reflexivity.
  - rewrite (bind_Ret _ _ _ _ _ He). reflexivity.
Qed.

(** C3. Once the loop has produced its candidate reply, the next
    interaction of the turn is the evaluator call, and its request is built
    from the candidate reply, the new user message and the history exactly
    as the caller passed it: the working conversation of the loop, with its
    assistant tool-call messages and tool results, does not enter it.  It is
    the only evaluator call of the turn. *)
Theorem evaluator_sees_original_history (self : Me) (fuel : nat) (message : string)
    (history : list chat_message) (past : list event)
    (response : completion) (evs : list event) :
  chat_loop fuel ([Msg "system" (system_prompt self)] ++ history ++ [Msg "user" message]) past
  = (Ret response, evs) ->
  exists o rest,
    chat self fuel message history past
    = (o, evs ++ snd (evaluate self (content response) message history (past ++ evs)) ++ rest)
    /\ snd (evaluate self (content response) message history (past ++ evs))
       = [EvParse [Msg "system" (evaluator_system_prompt self);
                   Msg "user" (evaluator_user_prompt (content response) message history)]
            (llm_parse E (past ++ evs)
               [Msg "system" (evaluator_system_prompt self);
                Msg "user" (evaluator_user_prompt (content response) message history)])]
    /\ count is_parse evs = 0
    /\ count is_parse rest = 0.
Proof.
  intros H. pose proof (chat_after_loop self _ _ _ _ _ _ H) as Hc. cbv zeta in Hc.
  pose proof (chat_loop_Ret_counts _ _ _ _ _ H) as (Hp & _ & _).
  rewrite evaluate_run. cbn [snd].
  destruct (llm_parse E (past ++ evs) _) as [x | [evaluation |]] eqn:Hv.
  - exists (Raise x), []. rewrite Hc. auto.
  - destruct (is_acceptable evaluation).
    + exists (Ret (content response)), []. rewrite Hc. auto.
    + destruct (rerun_run self (content response) message history (feedback evaluation)
                  (past ++ evs ++ [EvParse
                     [Msg "system" (evaluator_system_prompt self);
                      Msg "user" (evaluator_user_prompt (content response) message history)]
                     (inr (Some evaluation)); EvPrint "eval"; EvPrint (feedback evaluation)]))
        as (request & Hr).
      rewrite Hr in Hc. cbn [fst snd] in Hc.
      eexists. eexists. split; [| split; [reflexivity | split; [assumption |]]].
      * rewrite Hc. rewrite <- !app_assoc. simpl. reflexivity.
      * reflexivity.
  - exists (Raise AttributeError), []. rewrite Hc. auto.
Qed.

(** C2. When the evaluation of the candidate reply is not acceptable, the
    rest of the turn is: the two printed lines, then one run of [rerun] on
    the candidate reply, the new user message, the original history and the
    feedback, whose outcome (the content of its completion, or the exception
    of its LLM call) is the outcome of [chat].  That run is one LLM call
    without tools; the turn as a whole has exactly one evaluator call, one
    regeneration call and at most two completions whose content is taken as
    a reply. *)
Theorem rejected_reply_is_regenerated_once (self : Me) (fuel : nat) (message : string)
    (history : list chat_message) (past : list event)
    (response : completion) (evs : list event) (evaluation : Evaluation) :
  chat_loop fuel ([Msg "system" (system_prompt self)] ++ history ++ [Msg "user" message]) past
  = (Ret response, evs) ->
  llm_parse E (past ++ evs)
    [Msg "system" (evaluator_system_prompt self);
     Msg "user" (evaluator_user_prompt (content response) message history)]
  = inr (Some evaluation) ->
  is_acceptable evaluation = false ->
  exists shown regen_request answer,
    shown = evs ++ [EvParse [Msg "system" (evaluator_system_prompt self);
                             Msg "user" (evaluator_user_prompt (content response)
                                           message history)]
                      (inr (Some evaluation));
                    EvPrint "eval"; EvPrint (feedback evaluation)]
    /\ answer = llm_create E (past ++ shown) regen_request None
    /\ rerun self (content response) message history (feedback evaluation) (past ++ shown)
       = (match answer with inr c => Ret (content c) | inl x => Raise x end,
          [EvCreate regen_request None answer])
    /\ chat self fuel message history past
       = (match answer with inr c => Ret (content c) | inl x => Raise x end,
          shown ++ [EvCreate regen_request None answer])
    /\ count is_parse (shown ++ [EvCreate regen_request None answer]) = 1
    /\ count is_regeneration (shown ++ [EvCreate regen_request None answer]) = 1
    /\ count reply_producing (shown ++ [EvCreate regen_request None answer]) <= 2.
Proof.
  intros H Hv Hacc.
  pose proof (chat_after_loop self _ _ _ _ _ _ H) as Hc. cbv zeta in Hc.
  rewrite Hv, Hacc in Hc.
  pose proof (chat_loop_Ret_counts _ _ _ _ _ H) as (Hp & Hrp & Hrg).
  match type of Hc with
  | _ = (fst (rerun _ _ _ _ _ (past ++ ?s)), _) =>
      destruct (rerun_run self (content response) message history (feedback evaluation)
                  (past ++ s)) as (request & Hr);
      exists s, request, (llm_create E (past ++ s) request None)
  end.
  rewrite Hr in Hc. cbn [fst snd] in Hc.
  split; [reflexivity |]. split; [reflexivity |]. split; [exact Hr |].
  split; [exact Hc |].
  rewrite !count_app, Hp, Hrp, Hrg. unfold count. simpl.
  repeat split; try reflexivity.
  destruct (llm_create E _ request None); simpl; lia.
Qed.

(** ** Tool calls *)

Lemma push_run text past :
  push text past
  = (match requests_post E past (os_getenv E "PUSHOVER_TOKEN") (os_getenv E "PUSHOVER_USER")
             (py_str py text) with
     | inr _ => Ret tt
     | inl x => Raise x
     end,
     [EvPost (os_getenv E "PUSHOVER_TOKEN") (os_getenv E "PUSHOVER_USER") (py_str py text)
        (requests_post E past (os_getenv E "PUSHOVER_TOKEN") (os_getenv E "PUSHOVER_USER")
           (py_str py text))]).
Proof.
  unfold push, bind, interact, ret.
  destruct (requests_post E past _ _ _); reflexivity.
Qed.

Lemma handle_tool_call_malformed tc past :
  json_loads py (tc_arguments tc) = None ->
  handle_tool_call tc past = (Raise JSONDecodeError, []).
Proof. intros H. unfold handle_tool_call. rewrite H. reflexivity. Qed.

Lemma handle_tool_call_decoded tc past arguments :
  json_loads py (tc_arguments tc) = Some arguments ->
  handle_tool_call tc past
  = (fst ((result <- (if truthy (globals_get (tc_name tc))
                      then match globals_get (tc_name tc) with
                           | Some t => call t arguments
                           | None => ret (PData (JObj []))
                           end
                      else ret (PData (JObj []))) ;;
           content <- lift (dumps result) ;;
           ret (ToolMsg content (tc_id tc)))
            (past ++ [EvPrint ("Tool called: " +++ tc_name tc)])),
     EvPrint ("Tool called: " +++ tc_name tc)
       :: snd ((result <- (if truthy (globals_get (tc_name tc))
                           then match globals_get (tc_name tc) with
                                | Some t => call t arguments
                                | None => ret (PData (JObj []))
                                end
                           else ret (PData (JObj []))) ;;
                content <- lift (dumps result) ;;
                ret (ToolMsg content (tc_id tc)))
                 (past ++ [EvPrint ("Tool called: " +++ tc_name tc)]))).
Proof.
  intros H. unfold handle_tool_call. rewrite H.
  unfold lift at 1. unfold bind at 1. unfold ret at 1. cbn [app].
  rewrite app_nil_r. unfold bind at 1. unfold print at 1.
  match goal with |- context [bind ?c ?k ?p] => destruct (bind c k p) as [o ev] end.
  reflexivity.
Qed.

Lemma handle_tool_call_unbound tc past arguments :
  json_loads py (tc_arguments tc) = Some arguments ->
  truthy (globals_get (tc_name tc)) = false ->
  handle_tool_call tc past
  = (Ret (ToolMsg "{}" (tc_id tc)), [EvPrint ("Tool called: " +++ tc_name tc)]).
Proof.
  intros H Ht. rewrite (handle_tool_call_decoded _ _ _ H), Ht. reflexivity.
Qed.

Lemma handle_tool_call_module_function tc past kwargs f :
  json_loads py (tc_arguments tc) = Some (JObj kwargs) ->
  globals_get (tc_name tc) = Some (PFunc f) ->
  handle_tool_call tc past
  = (match fst (call_func f kwargs (past ++ [EvPrint ("Tool called: " +++ tc_name tc)])) with
     | Ret r => match dumps r with
                | inr text => Ret (ToolMsg text (tc_id tc))
                | inl x => Raise x
                end
     | Raise x => Raise x
     | OutOfFuel => OutOfFuel
     end,
     EvPrint ("Tool called: " +++ tc_name tc)
       :: snd (call_func f kwargs (past ++ [EvPrint ("Tool called: " +++ tc_name tc)]))).
Proof.
  intros H Hg. rewrite (handle_tool_call_decoded _ _ _ H), Hg. cbn [truthy call].
  destruct (call_func f kwargs _) as [[r | x |] ev] eqn:Hcf.
  - rewrite (bind_Ret _ _ _ _ _ Hcf). cbn [fst snd].
    unfold bind, lift, ret, raise. destruct (dumps r); simpl; now rewrite ?app_nil_r.
  - rewrite (bind_Raise _ _ _ _ _ Hcf). reflexivity.
  - rewrite (bind_OutOfFuel _ _ _ _ Hcf). reflexivity.
Qed.

Lemma handle_tool_calls_from_app pre : forall acc past results ev1 rest,
  handle_tool_calls_from acc pre past = (Ret results, ev1) ->
  handle_tool_calls_from acc (pre ++ rest) past
  = (fst (handle_tool_calls_from results rest (past ++ ev1)),
     ev1 ++ snd (handle_tool_calls_from results rest (past ++ ev1))).
Proof.
  induction pre as [| tc pre IH]; intros acc past results ev1 rest H; simpl in H |- *.
  - unfold ret in H. inversion H; subst. rewrite app_nil_r. simpl.
    now destruct (handle_tool_calls_from results rest past).
  - apply bind_Ret_inv in H as (r & e1 & e2 & Hr & H & ->).
    rewrite (bind_Ret _ _ _ _ _ Hr). rewrite (IH _ _ _ _ rest H). cbn [fst snd].
    now rewrite <- !app_assoc.
Qed.

Lemma chat_round_raise messages past response e evh :
  llm_create E past messages (Some tools) = inr response ->
  finish_reason response = "tool_calls" ->
  handle_tool_calls (tool_calls response)
    (past ++ [EvCreate messages (Some tools) (inr response)]) = (Raise e, evh) ->
  chat_round messages past
  = (Raise e, EvCreate messages (Some tools) (inr response) :: evh).
Proof.
  intros Hllm Hf Hh. unfold chat_round.
  assert (Hc : create messages (Some tools) past
               = (Ret response, [EvCreate messages (Some tools) (inr response)])).
  { unfold create, interact. now rewrite Hllm. }
  rewrite (bind_Ret _ _ _ _ _ Hc).
  apply String.eqb_eq in Hf. rewrite Hf.
  rewrite (bind_Raise _ _ _ _ _ Hh). reflexivity.
Qed.

(** An exception raised in the round that follows [k] completed tool rounds
    leaves [chat] as it is, with the events emitted so far. *)
Lemma chat_raise_in_round self message history past k m evs e evs' fuel :
  run_rounds k ([Msg "system" (system_prompt self)] ++ history ++ [Msg "user" message]) past
  = Some (m, evs) ->
  chat_round m (past ++ evs) = (Raise e, evs') ->
  k < fuel ->
  chat self fuel message history past = (Raise e, evs ++ evs').
Proof.
  intros Hrr Hr Hk.
  assert (exists f, fuel = k + S f) as (f & ->) by (exists (fuel - S k); lia).
  unfold chat. apply bind_Raise.
  rewrite (chat_loop_after_rounds _ _ _ _ _ _ Hrr). simpl chat_loop.
  rewrite (bind_Raise _ _ _ _ _ Hr). reflexivity.
Qed.

Lemma bind_ret_map {A B} (c : M A) (f : A -> B) past :
  bind c (fun a => ret (f a)) past = (map_outcome f (fst (c past)), snd (c past)).
Proof.
  unfold bind, ret. destruct (c past) as [[a | e |] ev]; simpl; now rewrite ?app_nil_r.
Qed.

Lemma tool_entry_of_outcome (o : outcome json) (i : string) :
  match map_outcome PData o with
  | Ret r => match dumps r with
             | inr text => Ret (ToolMsg text i)
             | inl x => Raise x
             end
  | Raise x => Raise x
  | OutOfFuel => OutOfFuel
  end
  = map_outcome (fun r => ToolMsg (json_dumps r) i) o.
Proof. destruct o; reflexivity. Qed.

(** C4, as the code has it.  The tool is looked up by name in the module
    namespace.  With arguments that decode, a call named
    [record_user_details] or [record_unknown_question] whose keywords fit the
    parameters runs that function on the decoded keyword arguments (defaults
    filled in) and its result is serialised into the tool entry; a name that
    the namespace does not bind, or binds to a false value, runs no function:
    nothing but the line naming the tool is emitted, the entry's content is
    the empty object and the step returns.  The other functions of the
    module are reached in the same way: a call named [push] whose keywords
    fit runs [push] on the decoded text, and the entry's content is [null]. *)
Theorem tool_dispatch_by_module_name (tc : tool_call) (past : list event) (arguments : json) :
  json_loads py (tc_arguments tc) = Some arguments ->
  (forall kwargs email,
      tc_name tc = "record_user_details" ->
      arguments = JObj kwargs ->
      keys_within ["email"; "name"; "notes"] kwargs = true ->
      assoc "email" kwargs = Some email ->
      handle_tool_call tc past
      = (map_outcome (fun r => ToolMsg (json_dumps r) (tc_id tc))
           (fst (record_user_details email
                   (arg_or "name" (JStr "Name not provided") kwargs)
                   (arg_or "notes" (JStr "not provided") kwargs)
                   (past ++ [EvPrint ("Tool called: " +++ tc_name tc)]))),
         EvPrint ("Tool called: " +++ tc_name tc)
           :: snd (record_user_details email
                     (arg_or "name" (JStr "Name not provided") kwargs)
                     (arg_or "notes" (JStr "not provided") kwargs)
                     (past ++ [EvPrint ("Tool called: " +++ tc_name tc)]))))
  /\ (forall kwargs question,
      tc_name tc = "record_unknown_question" ->
      arguments = JObj kwargs ->
      keys_within ["question"] kwargs = true ->
      assoc "question" kwargs = Some question ->
      handle_tool_call tc past
      = (map_outcome (fun r => ToolMsg (json_dumps r) (tc_id tc))
           (fst (record_unknown_question question
                   (past ++ [EvPrint ("Tool called: " +++ tc_name tc)]))),
         EvPrint ("Tool called: " +++ tc_name tc)
           :: snd (record_unknown_question question
                     (past ++ [EvPrint ("Tool called: " +++ tc_name tc)]))))
  /\ (truthy (globals_get (tc_name tc)) = false ->
      handle_tool_call tc past
      = (Ret (ToolMsg "{}" (tc_id tc)), [EvPrint ("Tool called: " +++ tc_name tc)]))
  /\ (forall kwargs text,
      tc_name tc = "push" ->
      arguments = JObj kwargs ->
      keys_within ["text"] kwargs = true ->
      assoc "text" kwargs = Some text ->
      handle_tool_call tc past
      = (map_outcome (fun _ => ToolMsg "null" (tc_id tc))
           (fst (push text (past ++ [EvPrint ("Tool called: " +++ tc_name tc)]))),
         EvPrint ("Tool called: " +++ tc_name tc)
           :: snd (push text (past ++ [EvPrint ("Tool called: " +++ tc_name tc)])))).
Proof.
  intros H. split; [| split; [| split]]; cycle 3.
  - intros kwargs text Hn -> Hk Ht.
    assert (Hg : globals_get (tc_name tc) = Some (PFunc F_push))
      by (rewrite Hn; reflexivity).
    rewrite (handle_tool_call_module_function _ _ _ _ H Hg).
    unfold call_func. rewrite Hk, Ht, bind_ret_map. cbn [fst snd].
    destruct (fst (push text _)) as [[] | x |]; reflexivity.
  - intros kwargs email Hn -> Hk He.
    assert (Hg : globals_get (tc_name tc) = Some (PFunc F_record_user_details))
      by (rewrite Hn; reflexivity).
    rewrite (handle_tool_call_module_function _ _ _ _ H Hg).
    unfold call_func. rewrite Hk, He, bind_ret_map. cbn [fst snd].
    now rewrite tool_entry_of_outcome.
  - intros kwargs question Hn -> Hk Hq.
    assert (Hg : globals_get (tc_name tc) = Some (PFunc F_record_unknown_question))
      by (rewrite Hn; reflexivity).
    rewrite (handle_tool_call_module_function _ _ _ _ H Hg).
    unfold call_func. rewrite Hk, Hq, bind_ret_map. cbn [fst snd].
    now rewrite tool_entry_of_outcome.
  - intros Ht. now apply handle_tool_call_unbound with (arguments := arguments).
Qed.

(** C5. A tool call whose arguments are not valid JSON raises
    [JSONDecodeError] in the tool-handling step, whatever came before it in
    the same round: the tool calls before it have run, no tool entry is
    produced for it or for the ones after it, and the exception leaves
    [handle_tool_calls] and [chat]; the turn yields no reply. *)
Theorem malformed_arguments_abort_turn (self : Me) (message : string)
    (history : list chat_message) (past : list event) (k fuel : nat)
    (m : list chat_message) (evs : list event) (response : completion)
    (pre rest : list tool_call) (tc : tool_call)
    (results : list chat_message) (evs_pre : list event) :
  run_rounds k ([Msg "system" (system_prompt self)] ++ history ++ [Msg "user" message]) past
  = Some (m, evs) ->
  llm_create E (past ++ evs) m (Some tools) = inr response ->
  finish_reason response = "tool_calls" ->
  tool_calls response = pre ++ tc :: rest ->
  handle_tool_calls pre ((past ++ evs) ++ [EvCreate m (Some tools) (inr response)])
  = (Ret results, evs_pre) ->
  json_loads py (tc_arguments tc) = None ->
  k < fuel ->
  handle_tool_call tc (((past ++ evs) ++ [EvCreate m (Some tools) (inr response)]) ++ evs_pre)
  = (Raise JSONDecodeError, [])
  /\ handle_tool_calls (tool_calls response)
       ((past ++ evs) ++ [EvCreate m (Some tools) (inr response)])
     = (Raise JSONDecodeError, evs_pre)
  /\ chat self fuel message history past
     = (Raise JSONDecodeError, evs ++ EvCreate m (Some tools) (inr response) :: evs_pre).
Proof.
  intros Hrr Hllm Hf Htc Hpre Hbad Hk.
  assert (Hone : forall p, handle_tool_call tc p = (Raise JSONDecodeError, []))
    by (intros p; now apply handle_tool_call_malformed).
  assert (Hall : handle_tool_calls (tool_calls response)
                   ((past ++ evs) ++ [EvCreate m (Some tools) (inr response)])
                 = (Raise JSONDecodeError, evs_pre)).
  { rewrite Htc. unfold handle_tool_calls in *.
    rewrite (handle_tool_calls_from_app _ _ _ _ _ (tc :: rest) Hpre).
    simpl handle_tool_calls_from. rewrite (bind_Raise _ _ _ _ _ (Hone _)).
    simpl. now rewrite app_nil_r. }
  split; [apply Hone |]. split; [exact Hall |].
  eapply chat_raise_in_round; eauto.
  now apply chat_round_raise.
Qed.

(** C9. In the body of the loop over the tool calls the arguments are
    decoded first: for a tool name the namespace does not bind (or binds to a
    false value), malformed arguments raise [JSONDecodeError] before anything
    is printed or looked up, and that aborts the turn; the empty-object
    result for such a name is produced only when the arguments decode. *)
Theorem decoding_precedes_lookup (tc : tool_call) :
  truthy (globals_get (tc_name tc)) = false ->
  (json_loads py (tc_arguments tc) = None ->
     (forall past, handle_tool_call tc past = (Raise JSONDecodeError, []))
     /\ (forall self message history past fuel response rest,
           llm_create E past
             ([Msg "system" (system_prompt self)] ++ history ++ [Msg "user" message])
             (Some tools) = inr response ->
           finish_reason response = "tool_calls" ->
           tool_calls response = tc :: rest ->
           chat self (S fuel) message history past
           = (Raise JSONDecodeError,
              [EvCreate ([Msg "system" (system_prompt self)] ++ history
                           ++ [Msg "user" message]) (Some tools) (inr response)])))
  /\ (forall arguments past,
        json_loads py (tc_arguments tc) = Some arguments ->
        handle_tool_call tc past
        = (Ret (ToolMsg "{}" (tc_id tc)), [EvPrint ("Tool called: " +++ tc_name tc)])).
Proof.
  intros Ht. split.
  - intros Hbad. split.
    + intros past. now apply handle_tool_call_malformed.
    + intros self message history past fuel response rest Hllm Hf Htc.
      change [EvCreate ([Msg "system" (system_prompt self)] ++ history ++ [Msg "user" message])
                (Some tools) (inr response)]
        with ([] ++ [EvCreate ([Msg "system" (system_prompt self)] ++ history
                                 ++ [Msg "user" message]) (Some tools) (inr response)]).
      apply chat_raise_in_round with (k := 0)
        (m := [Msg "system" (system_prompt self)] ++ history ++ [Msg "user" message]);
        [reflexivity | | lia].
      rewrite app_nil_r. apply chat_round_raise; auto.
      rewrite Htc. unfold handle_tool_calls. simpl handle_tool_calls_from.
      apply bind_Raise. now apply handle_tool_call_malformed.
  - intros arguments past Hok. now apply handle_tool_call_unbound with (arguments := arguments).
Qed.

(** C6, as the code has it.  Each of the two tools makes exactly one
    notification attempt.  Whatever HTTP status the endpoint answers, 2xx or
    not, the tool returns the success status; an exception raised by the
    HTTP client (a transport error) is not caught and leaves the tool. *)
Theorem notification_outcome_of_tools (past : list event) (email name notes question : json) :
  let token := os_getenv E "PUSHOVER_TOKEN" in
  let user := os_getenv E "PUSHOVER_USER" in
  let details := "Recording interest from " +++ py_str py name +++ " with email "
                 +++ py_str py email +++ " and notes " +++ py_str py notes in
  let unknown := py_str py question +++ " it appears I don't know how to answer that" in
  record_user_details email name notes past
  = (match requests_post E past token user details with
     | inr _ => Ret status_success
     | inl x => Raise x
     end,
     [EvPost token user details (requests_post E past token user details)])
  /\ record_unknown_question question past
     = (match requests_post E past token user unknown with
        | inr _ => Ret status_success
        | inl x => Raise x
        end,
        [EvPost token user unknown (requests_post E past token user unknown)]).
Proof.
  cbv zeta. unfold record_user_details, record_unknown_question. split.
  - unfold bind. rewrite push_run. cbn [py_str].
    destruct (requests_post E past _ _ _); reflexivity.
  - unfold bind. rewrite push_run. cbn [py_str].
    destruct (requests_post E past _ _ _); reflexivity.
Qed.

(** ** The loop *)

Lemma run_rounds_S k messages past :
  run_rounds (S k) messages past
  = match chat_round messages past with
    | (Ret (inl messages'), evs) =>
        match run_rounds k messages' (past ++ evs) with
        | Some (m, evs') => Some (m, evs ++ evs')
        | None => None
        end
    | _ => None
    end.
Proof. reflexivity. Qed.

Lemma chat_round_stop messages past response :
  llm_create E past messages (Some tools) = inr response ->
  finish_reason response <> "tool_calls" ->
  chat_round messages past
  = (Ret (inr response), [EvCreate messages (Some tools) (inr response)]).
Proof.
  intros Hllm Hf. unfold chat_round.
  assert (Hc : create messages (Some tools) past
               = (Ret response, [EvCreate messages (Some tools) (inr response)])).
  { unfold create, interact. now rewrite Hllm. }
  rewrite (bind_Ret _ _ _ _ _ Hc).
  apply String.eqb_neq in Hf. rewrite Hf. reflexivity.
Qed.

Lemma chat_loop_stops_after_rounds k messages past m evs1 response fuel :
  run_rounds k messages past = Some (m, evs1) ->
  llm_create E (past ++ evs1) m (Some tools) = inr response ->
  finish_reason response <> "tool_calls" ->
  k < fuel ->
  chat_loop fuel messages past
  = (Ret response, evs1 ++ [EvCreate m (Some tools) (inr response)]).
Proof.
  intros Hrr Hllm Hf Hk.
  assert (exists f, fuel = k + S f) as (f & ->) by (exists (fuel - S k); lia).
  rewrite (chat_loop_after_rounds _ _ _ _ _ _ Hrr). simpl chat_loop.
  rewrite (bind_Ret _ _ _ _ _ (chat_round_stop _ _ _ Hllm Hf)). reflexivity.
Qed.

Lemma chat_loop_needs_fuel fuel : forall k messages past m evs1,
  run_rounds k messages past = Some (m, evs1) ->
  fuel <= k ->
  fst (chat_loop fuel messages past) = OutOfFuel.
Proof.
  induction fuel as [| fuel IH]; intros k messages past m evs1 Hrr Hk.
  - reflexivity.
  - destruct k as [| k]; [lia |]. simpl in Hrr.
    destruct (chat_round messages past) as [[[m1 | r] | e |] ev1] eqn:Hr; try discriminate.
    destruct (run_rounds k m1 (past ++ ev1)) as [[m2 ev2] |] eqn:Hk'; try discriminate.
    simpl chat_loop. rewrite (bind_Ret _ _ _ _ _ Hr). cbn [fst].
    eapply IH; [exact Hk' | lia].
Qed.

Lemma chat_round_llm_raises messages past e :
  llm_create E past messages (Some tools) = inl e ->
  chat_round messages past = (Raise e, [EvCreate messages (Some tools) (inl e)]).
Proof.
  intros Hllm. unfold chat_round. apply bind_Raise.
  unfold create, interact. now rewrite Hllm.
Qed.

Lemma chat_round_Raise_inv messages past e evs :
  chat_round messages past = (Raise e, evs) ->
  (llm_create E past messages (Some tools) = inl e
   /\ evs = [EvCreate messages (Some tools) (inl e)])
  \/ (exists response evh,
        llm_create E past messages (Some tools) = inr response
        /\ finish_reason response = "tool_calls"
        /\ handle_tool_calls (tool_calls response)
             (past ++ [EvCreate messages (Some tools) (inr response)]) = (Raise e, evh)
        /\ evs = EvCreate messages (Some tools) (inr response) :: evh).
Proof.
  intros H.
  destruct (llm_create E past messages (Some tools)) as [x | response] eqn:Hllm.
  - rewrite (chat_round_llm_raises _ _ _ Hllm) in H. inversion H; subst. now left.
  - right. exists response.
    destruct (String.eqb_spec (finish_reason response) "tool_calls") as [Hf | Hf].
    + destruct (handle_tool_calls (tool_calls response)
                  (past ++ [EvCreate messages (Some tools) (inr response)]))
        as [[results | x |] evh] eqn:Hh.
      * exfalso. revert H. unfold chat_round.
        assert (Hc : create messages (Some tools) past
                     = (Ret response, [EvCreate messages (Some tools) (inr response)]))
          by (unfold create, interact; now rewrite Hllm).
        rewrite (bind_Ret _ _ _ _ _ Hc).
        apply String.eqb_eq in Hf. rewrite Hf.
        rewrite (bind_Ret _ _ _ _ _ Hh). discriminate.
      * rewrite (chat_round_raise _ _ _ _ _ Hllm Hf Hh) in H. inversion H; subst.
        exists evh. auto.
      * exfalso. revert H. unfold chat_round.
        assert (Hc : create messages (Some tools) past
                     = (Ret response, [EvCreate messages (Some tools) (inr response)]))
          by (unfold create, interact; now rewrite Hllm).
        rewrite (bind_Ret _ _ _ _ _ Hc).
        apply String.eqb_eq in Hf. rewrite Hf.
        rewrite (bind_OutOfFuel _ _ _ _ Hh). discriminate.
    + rewrite (chat_round_stop _ _ _ Hllm Hf) in H. discriminate.
Qed.

Lemma chat_loop_raises_after_rounds k messages past m evs1 e evs' fuel :
  run_rounds k messages past = Some (m, evs1) ->
  chat_round m (past ++ evs1) = (Raise e, evs') ->
  k < fuel ->
  chat_loop fuel messages past = (Raise e, evs1 ++ evs').
Proof.
  intros Hrr Hr Hk.
  assert (exists f, fuel = k + S f) as (f & ->) by (exists (fuel - S k); lia).
  rewrite (chat_loop_after_rounds _ _ _ _ _ _ Hrr). simpl chat_loop.
  rewrite (bind_Raise _ _ _ _ _ Hr). reflexivity.
Qed.

(** A loop that is left, with a reply or with an exception, is left in a
    round that follows some number of completed tool rounds. *)
Lemma chat_loop_ends_inv fuel : forall messages past o evs,
  chat_loop fuel messages past = (o, evs) ->
  o <> OutOfFuel ->
  exists k m evs1 evs',
    k < fuel
    /\ run_rounds k messages past = Some (m, evs1)
    /\ evs = evs1 ++ evs'
    /\ ((exists response,
           o = Ret response /\ chat_round m (past ++ evs1) = (Ret (inr response), evs'))
        \/ (exists e, o = Raise e /\ chat_round m (past ++ evs1) = (Raise e, evs'))).
Proof.
  induction fuel as [| fuel IH]; intros messages past o evs H Ho.
  - simpl in H. unfold diverge in H. inversion H. congruence.
  - simpl in H. unfold bind in H.
    destruct (chat_round messages past) as [[[m1 | r] | x |] ev1] eqn:Hr.
    + destruct (chat_loop fuel m1 (past ++ ev1)) as [o1 ev2] eqn:Hl.
      inversion H; subst. clear H.
      destruct (IH _ _ _ _ Hl Ho) as (k & m & evs1 & evs' & Hk & Hrr & -> & Hend).
      exists (S k), m, (ev1 ++ evs1), evs'.
      split; [lia |]. split; [rewrite run_rounds_S, Hr, Hrr; reflexivity |].
      split; [now rewrite app_assoc |].
      rewrite app_assoc. exact Hend.
    + unfold ret in H. inversion H; subst. clear H.
      exists 0, messages, [], ev1. rewrite !app_nil_r.
      split; [lia |]. split; [reflexivity |]. split; [reflexivity |].
      left. exists r. auto.
    + inversion H; subst. clear H.
      exists 0, messages, [], evs. rewrite !app_nil_r.
      split; [lia |]. split; [reflexivity |]. split; [reflexivity |].
      right. exists x. auto.
    + inversion H. congruence.
Qed.

(** Once the loop is left nothing iterates: the turn is over exactly when
    its loop is. *)
Lemma chat_ends_with_loop self fuel message history past :
  fst (chat self fuel message history past) = OutOfFuel
  <-> fst (chat_loop fuel
             ([Msg "system" (system_prompt self)] ++ history ++ [Msg "user" message]) past)
      = OutOfFuel.
Proof.
  destruct (chat_loop fuel ([Msg "system" (system_prompt self)] ++ history
                              ++ [Msg "user" message]) past)
    as [[response | x |] evs] eqn:Hl.
  - pose proof (chat_after_loop _ _ _ _ _ _ _ Hl) as Hc. cbv zeta in Hc.
    rewrite Hc. cbn [fst].
    destruct (llm_parse E (past ++ evs) _) as [x | [evaluation |]];
      [split; discriminate | | split; discriminate].
    destruct (is_acceptable evaluation); [split; discriminate |].
    cbv zeta.
    match goal with
    | |- context [rerun ?a ?b ?c ?d ?f ?p] =>
        destruct (rerun_run a b c d f p) as (req & ->)
    end.
    cbn [fst]. destruct (llm_create E _ req None); split; discriminate.
  - unfold chat. rewrite (bind_Raise _ _ _ _ _ Hl). split; discriminate.
  - unfold chat. rewrite (bind_OutOfFuel _ _ _ _ Hl). split; reflexivity.
Qed.

(** C10, as the code has it.  Nothing bounds the iterations of the loop of
    [chat], and the turn ends, with a reply or with an exception, exactly
    when some round is not a completed tool round: after some number [k] of
    completed tool rounds the LLM call raises, or returns a completion whose
    finish reason is not [tool_calls], or returns one that asks for tools
    whose handling raises.  The loop is left with a reply exactly in the
    second case; every budget above [k] then gives the same result, with one
    LLM call for each of the [k] tool rounds (all with finish reason
    [tool_calls]) and one final call, and no budget up to [k] is enough.  In
    the other two cases the exception leaves the loop and [chat] after the
    same [k + 1] LLM calls, none of which returned a completion with a finish
    reason other than [tool_calls].  When every round is a completed tool
    round, no budget is enough. *)
Theorem chat_loop_termination (messages : list chat_message) (past : list event) :
  ((exists fuel response evs, chat_loop fuel messages past = (Ret response, evs))
   <-> (exists k m evs1 response,
          run_rounds k messages past = Some (m, evs1)
          /\ llm_create E (past ++ evs1) m (Some tools) = inr response
          /\ finish_reason response <> "tool_calls"))
  /\ (forall k m evs1 response,
        run_rounds k messages past = Some (m, evs1) ->
        llm_create E (past ++ evs1) m (Some tools) = inr response ->
        finish_reason response <> "tool_calls" ->
        (forall fuel, k < fuel ->
           chat_loop fuel messages past
           = (Ret response, evs1 ++ [EvCreate m (Some tools) (inr response)]))
        /\ (forall fuel, fuel <= k -> fst (chat_loop fuel messages past) = OutOfFuel)
        /\ count is_create (evs1 ++ [EvCreate m (Some tools) (inr response)]) = k + 1
        /\ length (completions evs1) = k
        /\ Forall (fun c => finish_reason c = "tool_calls") (completions evs1))
  /\ ((forall k, exists m evs1, run_rounds k messages past = Some (m, evs1)) ->
      forall fuel, fst (chat_loop fuel messages past) = OutOfFuel)
  /\ (forall self message history,
        messages = [Msg "system" (system_prompt self)] ++ history ++ [Msg "user" message] ->
        ((exists fuel, fst (chat self fuel message history past) <> OutOfFuel)
         <-> (exists k m evs1,
                run_rounds k messages past = Some (m, evs1)
                /\ match llm_create E (past ++ evs1) m (Some tools) with
                   | inl _ => True
                   | inr response =>
                       finish_reason response <> "tool_calls"
                       \/ exists e evh,
                            handle_tool_calls (tool_calls response)
                              ((past ++ evs1) ++ [EvCreate m (Some tools) (inr response)])
                            = (Raise e, evh)
                   end)))
  /\ (forall k m evs1 e evs',
        run_rounds k messages past = Some (m, evs1) ->
        chat_round m (past ++ evs1) = (Raise e, evs') ->
        (forall fuel, k < fuel -> chat_loop fuel messages past = (Raise e, evs1 ++ evs'))
        /\ (forall self message history fuel,
              messages = [Msg "system" (system_prompt self)] ++ history
                           ++ [Msg "user" message] ->
              k < fuel ->
              chat self fuel message history past = (Raise e, evs1 ++ evs'))
        /\ (forall fuel, fuel <= k -> fst (chat_loop fuel messages past) = OutOfFuel)
        /\ count is_create (evs1 ++ evs') = k + 1
        /\ Forall (fun c => finish_reason c = "tool_calls") (completions (evs1 ++ evs'))).
Proof.
  split; [| split; [| split; [| split]]].
  - split.
    + intros (fuel & response & evs & H).
      apply chat_loop_Ret_inv in H as (k & m & evs1 & _ & Hrr & Hllm & Hf & _).
      exists k, m, evs1, response. auto.
    + intros (k & m & evs1 & response & Hrr & Hllm & Hf).
      exists (S k), response, (evs1 ++ [EvCreate m (Some tools) (inr response)]).
      eapply chat_loop_stops_after_rounds; eauto.
  - intros k m evs1 response Hrr Hllm Hf.
    split; [intros fuel Hk; eapply chat_loop_stops_after_rounds; eauto |].
    split; [intros fuel Hk; eapply chat_loop_needs_fuel; eauto |].
    destruct (run_rounds_shape _ _ _ _ _ Hrr) as (blocks & Hlen & _ & Hwa & Hcs & Hcount).
    split; [| split].
    + rewrite count_app, Hcount. reflexivity.
    + now rewrite Hcs, length_map.
    + rewrite Hcs. apply Forall_map.
      eapply Forall_impl; [| exact Hwa]. intros b [Hb _]. exact Hb.
  - intros Hall fuel. destruct (Hall fuel) as (m & evs1 & Hrr).
    eapply chat_loop_needs_fuel; eauto.
  - intros self message history ->. split.
    + intros (fuel & Hend).
      destruct (chat_loop fuel ([Msg "system" (system_prompt self)] ++ history
                                  ++ [Msg "user" message]) past) as [o evs] eqn:Hl.
      assert (Ho : o <> OutOfFuel).
      { intros ->. apply Hend. apply chat_ends_with_loop. now rewrite Hl. }
      destruct (chat_loop_ends_inv _ _ _ _ _ Hl Ho)
        as (k & m & evs1 & evs' & _ & Hrr & _ & [(response & _ & Hr) | (e & _ & Hr)]).
      * exists k, m, evs1. split; [exact Hrr |].
        apply chat_round_inr_inv in Hr as (Hllm & Hf & _). rewrite Hllm. now left.
      * exists k, m, evs1. split; [exact Hrr |].
        apply chat_round_Raise_inv in Hr
          as [(Hllm & _) | (response & evh & Hllm & _ & Hh & _)]; rewrite Hllm; [exact I |].
        right. eauto.
    + intros (k & m & evs1 & Hrr & Hstop). exists (S k).
      destruct (llm_create E (past ++ evs1) m (Some tools)) as [x | response] eqn:Hllm.
      * rewrite (chat_raise_in_round _ _ _ _ _ _ _ _ _ _ Hrr
                   (chat_round_llm_raises _ _ _ Hllm) (Nat.lt_succ_diag_r k)).
        discriminate.
      * destruct (String.eqb_spec (finish_reason response) "tool_calls") as [Hf | Hf].
        -- destruct Hstop as [Hne | (e & evh & Hh)]; [contradiction |].
           rewrite (chat_raise_in_round _ _ _ _ _ _ _ _ _ _ Hrr
                      (chat_round_raise _ _ _ _ _ Hllm Hf Hh) (Nat.lt_succ_diag_r k)).
           discriminate.
        -- intros Hout. apply chat_ends_with_loop in Hout.
           rewrite (chat_loop_stops_after_rounds _ _ _ _ _ _ _ Hrr Hllm Hf
                      (Nat.lt_succ_diag_r k)) in Hout.
           discriminate.
  - intros k m evs1 e evs' Hrr Hr.
    split; [intros fuel Hk; eapply chat_loop_raises_after_rounds; eauto |].
    split; [intros self message history fuel -> Hk; eapply chat_raise_in_round; eauto |].
    split; [intros fuel Hk; eapply chat_loop_needs_fuel; eauto |].
    destruct (run_rounds_shape _ _ _ _ _ Hrr) as (blocks & Hlen & _ & Hwa & Hcs & Hcount).
    assert (Hall : Forall (fun c => finish_reason c = "tool_calls") (completions evs1)).
    { rewrite Hcs. apply Forall_map.
      eapply Forall_impl; [| exact Hwa]. intros b [Hb _]. exact Hb. }
    rewrite count_app, completions_app, Hcount.
    apply chat_round_Raise_inv in Hr
      as [(Hllm & ->) | (response & evh & Hllm & Hf & Hh & ->)].
    + split; [reflexivity |]. simpl. now rewrite app_nil_r.
    + pose proof (handle_tool_calls_events (tool_calls response)
                    ((past ++ evs1) ++ [EvCreate m (Some tools) (inr response)])) as Hev.
      rewrite Hh in Hev. cbn [snd] in Hev.
      split.
      * change (EvCreate m (Some tools) (inr response) :: evh)
          with ([EvCreate m (Some tools) (inr response)] ++ evh).
        rewrite count_app, (tool_events_count is_create evh); [reflexivity | | exact Hev].
        intros ev; destruct ev; simpl; congruence.
      * cbn [completions]. rewrite (tool_events_completions _ Hev).
        apply Forall_app. split; [exact Hall | now constructor].
Qed.

(** ** Properties of [database/question_db.py] *)

Lemma list_max_ge (l : list nat) x : In x l -> x <= list_max l.
Proof.
  induction l as [| y l IH]; simpl; [tauto |].
  intros [-> | H]; [lia | specialize (IH H); lia].
Qed.

Lemma fresh_handle_not_in cs : ~ In (fresh_handle cs) (map fst cs).
Proof.
  unfold fresh_handle. intros H. apply list_max_ge in H. lia.
Qed.

Lemma drop_conn_app c cs1 cs2 :
  drop_conn c (cs1 ++ cs2) = drop_conn c cs1 ++ drop_conn c cs2.
Proof. unfold drop_conn. apply filter_app. Qed.

Lemma drop_conn_absent c cs : ~ In c (map fst cs) -> drop_conn c cs = cs.
Proof.
  unfold drop_conn. induction cs as [| [c' t] cs IH]; simpl; [reflexivity |].
  intros H. destruct (Nat.eqb_spec c' c) as [-> | Hne]; simpl.
  - exfalso. apply H. now left.
  - f_equal. apply IH. intros Hin. apply H. now right.
Qed.

Lemma drop_conn_set_txn c t cs : drop_conn c (set_txn c t cs) = drop_conn c cs.
Proof.
  unfold drop_conn. induction cs as [| [c' t'] cs IH]; simpl; [reflexivity |].
  destruct (Nat.eqb_spec c' c) as [-> | Hne]; simpl.
  - rewrite Nat.eqb_refl. reflexivity.
  - destruct (Nat.eqb_spec c' c); [contradiction |]. simpl. now rewrite IH.
Qed.

Lemma drop_conn_fresh cs t :
  drop_conn (fresh_handle cs) (cs ++ [(fresh_handle cs, t)]) = cs.
Proof.
  rewrite drop_conn_app, (drop_conn_absent _ cs (fresh_handle_not_in cs)).
  unfold drop_conn. simpl. rewrite Nat.eqb_refl. simpl. apply app_nil_r.
Qed.

Lemma get_txn_fresh cs t : get_txn (fresh_handle cs) (cs ++ [(fresh_handle cs, t)]) = t.
Proof.
  pose proof (fresh_handle_not_in cs) as H. revert H. generalize (fresh_handle cs) as c.
  intros c. induction cs as [| [c' t'] cs IH]; simpl; intros H.
  - now rewrite Nat.eqb_refl.
  - destruct (Nat.eqb_spec c' c) as [-> | Hne]; [exfalso; apply H; now left |].
    apply IH. intros Hin. apply H. now right.
Qed.

Lemma set_txn_fresh cs t t' :
  set_txn (fresh_handle cs) t' (cs ++ [(fresh_handle cs, t)]) = cs ++ [(fresh_handle cs, t')].
Proof.
  pose proof (fresh_handle_not_in cs) as H. revert H. generalize (fresh_handle cs) as c.
  intros c. induction cs as [| [c' t''] cs IH]; simpl; intros H.
  - now rewrite Nat.eqb_refl.
  - destruct (Nat.eqb_spec c' c) as [-> | Hne]; [exfalso; apply H; now left |].
    f_equal. apply IH. intros Hin. apply H. now right.
Qed.

Lemma scoped_is_scoped_run {A} (st : statement) (body : nat -> list result_row -> dbM A)
    (k : list result_row -> tail A) (s : store) :
  (forall conn res s', body conn res s' = run_tail conn (k res) s') ->
  (conn <- _get_connection ;;
   try_finally
     (with_cursor conn (res <- execute conn st ;; body conn res))
     (close conn))%db s
  = scoped_run st k s.
Proof.
  intros Hbody. unfold scoped_run.
  unfold db_bind at 1. unfold _get_connection at 1.
  destruct (db_fault D (log s) AConnect) as [e |] eqn:Hc; [reflexivity |].
  set (conn := fresh_handle (conns s)).
  unfold try_finally at 1. unfold with_cursor. unfold db_bind at 1. unfold cursor at 1.
  cbn [log]. destruct (db_fault D (log s ++ [DbConnect conn]) ACursor) as [e |] eqn:Hcur.
  { unfold close. cbn [rows id_seq conns log]. subst conn.
    now rewrite drop_conn_fresh. }
  unfold emit. cbn [rows id_seq conns log].
  unfold try_finally at 1. unfold db_bind at 1. unfold execute at 1.
  cbn [rows id_seq conns log].
  destruct (db_fault D ((log s ++ [DbConnect conn]) ++ [DbCursor conn]) (AExecute st))
    as [e |] eqn:Hex.
  { unfold cursor_close, close, emit. cbn [rows id_seq conns log]. subst conn.
    rewrite drop_conn_fresh. rewrite <- !app_assoc. reflexivity. }
  subst conn. rewrite get_txn_fresh.
  destruct (run_statement (fts_match D) _ st (rows s) (id_seq s)) as [[table' seq'] res].
  rewrite set_txn_fresh, Hbody.
  destruct (k res) as [v | v | e]; cbn [run_tail].
  - unfold db_ret, cursor_close, close, emit. cbn [rows id_seq conns log].
    rewrite drop_conn_fresh. rewrite <- !app_assoc. reflexivity.
  - unfold db_bind, commit. cbn [rows id_seq conns log].
    destruct (db_fault D _ ACommit) as [e |] eqn:Hcm.
    + unfold cursor_close, close, emit. cbn [rows id_seq conns log].
      rewrite drop_conn_fresh. rewrite <- !app_assoc. reflexivity.
    + unfold db_ret, cursor_close, close, emit. cbn [rows id_seq conns log].
      rewrite get_txn_fresh, set_txn_fresh, drop_conn_fresh.
      rewrite <- !app_assoc. reflexivity.
  - unfold db_raise, cursor_close, close, emit. cbn [rows id_seq conns log].
    rewrite drop_conn_fresh. rewrite <- !app_assoc. reflexivity.
Qed.

Lemma scoped_run_map {A B} (f : A -> B) st (k : list result_row -> tail A) s :
  (let (o, s') := scoped_run st k s in (map_outcome f o, s'))
  = scoped_run st (fun res => map_tail f (k res)) s.
Proof.
  unfold scoped_run.
  destruct (db_fault D (log s) AConnect); [reflexivity |].
  destruct (db_fault D _ ACursor); [reflexivity |].
  destruct (db_fault D _ (AExecute st)); [reflexivity |].
  destruct (run_statement _ _ st _ _) as [[table' seq'] res].
  destruct (k res); cbn [map_tail]; try reflexivity.
  destruct (db_fault D _ ACommit); reflexivity.
Qed.

Lemma add_question_run q c a n s :
  add_question q c a n s
  = scoped_run (Insert q c a n)
      (fun res => match fetchone res with
                  | Some (RId question_id) => TCommitReturn question_id
                  | _ => TRaise TypeError
                  end) s.
Proof.
  unfold add_question. apply scoped_is_scoped_run.
  intros conn res s'. destruct (fetchone res) as [[i | r | cat cnt] |]; reflexivity.
Qed.

Lemma get_all_questions_run s :
  get_all_questions s = scoped_run SelectAll (fun res => TReturn (fetchall res)) s.
Proof. unfold get_all_questions. now apply scoped_is_scoped_run. Qed.

Lemma search_questions_run keyword s :
  search_questions keyword s
  = scoped_run (SelectSearch keyword) (fun res => TReturn (fetchall res)) s.
Proof. unfold search_questions. now apply scoped_is_scoped_run. Qed.

Lemma get_by_category_run c s :
  get_by_category c s
  = scoped_run (SelectByCategory c) (fun res => TReturn (fetchall res)) s.
Proof. unfold get_by_category. now apply scoped_is_scoped_run. Qed.

Lemma delete_question_run question_id s :
  delete_question question_id s
  = scoped_run (Delete question_id)
      (fun res => TCommitReturn (is_not_none (fetchone res))) s.
Proof. unfold delete_question. now apply scoped_is_scoped_run. Qed.

Lemma update_notes_run question_id n s :
  update_notes question_id n s
  = scoped_run (UpdateNotes n question_id)
      (fun res => TCommitReturn (is_not_none (fetchone res))) s.
Proof. unfold update_notes. now apply scoped_is_scoped_run. Qed.

Lemma get_category_stats_run s :
  get_category_stats s = scoped_run SelectStats (fun res => TReturn (fetchall res)) s.
Proof. unfold get_category_stats. now apply scoped_is_scoped_run. Qed.

Lemma run_operation_scoped op s :
  exists k : list result_row -> tail op_result,
    run_operation op s = scoped_run (statement_of op) k s.
Proof.
  destruct op; cbn [run_operation statement_of];
    rewrite ?add_question_run, ?get_all_questions_run, ?search_questions_run,
      ?get_by_category_run, ?delete_question_run, ?update_notes_run,
      ?get_category_stats_run;
    rewrite scoped_run_map; eauto.
Qed.

Lemma fetchone_filter_ids (i : Z) (l : list row) :
  is_not_none (fetchone (map (fun r => RId (row_id r))
                           (filter (fun r => (row_id r =? i)%Z) l)))
  = existsb (fun r => (row_id r =? i)%Z) l.
Proof.
  induction l as [| r l IH]; simpl; [reflexivity |].
  destruct (row_id r =? i)%Z; simpl; auto.
Qed.

(** C7. Every operation of the store makes one connection attempt.  If it
    fails, nothing was acquired and its exception is what the caller gets.
    Otherwise the connection is one that was not open before, and what
    happens on it is decided by the first step that fails: the call for a
    cursor (nothing else happens), the one statement of the operation (sent
    once, and failed), or, for the operations that write, the commit after
    it; the exception of that step is what the caller gets.  When no step
    fails the statement has been sent exactly once (and committed by the
    operations that write, not by those that read) and the operation returns
    its value.  In every case closing the connection is the last thing that
    happens, before the value or the exception reaches the caller, and the
    connections open afterwards are those open before. *)
Theorem connection_released_on_every_exit (op : operation) (s : store) :
  match db_fault D (log s) AConnect with
  | Some e => run_operation op s = (Raise e, emit DbConnectFailed s)
  | None =>
      ~ In (fresh_handle (conns s)) (map fst (conns s))
      /\ exists inner,
           log (snd (run_operation op s))
           = log s ++ [DbConnect (fresh_handle (conns s))] ++ inner
               ++ [DbClose (fresh_handle (conns s))]
           /\ inside_connection (fresh_handle (conns s)) (statement_of op) inner
           /\ conns (snd (run_operation op s)) = conns s
           /\ match db_fault D (log s ++ [DbConnect (fresh_handle (conns s))]) ACursor with
              | Some e => fst (run_operation op s) = Raise e /\ inner = []
              | None =>
                  match db_fault D
                          ((log s ++ [DbConnect (fresh_handle (conns s))])
                             ++ [DbCursor (fresh_handle (conns s))])
                          (AExecute (statement_of op)) with
                  | Some e =>
                      fst (run_operation op s) = Raise e
                      /\ inner = [DbCursor (fresh_handle (conns s));
                                  DbExecuteFailed (fresh_handle (conns s)) (statement_of op);
                                  DbCursorClosed (fresh_handle (conns s))]
                  | None =>
                      if is_query op then
                        fst (run_operation op s)
                        = Ret (expected_value op s
                                 (db_now D ((log s ++ [DbConnect (fresh_handle (conns s))])
                                              ++ [DbCursor (fresh_handle (conns s))])))
                        /\ inner = [DbCursor (fresh_handle (conns s));
                                    DbExecute (fresh_handle (conns s)) (statement_of op);
                                    DbCursorClosed (fresh_handle (conns s))]
                      else
                        match db_fault D
                                (((log s ++ [DbConnect (fresh_handle (conns s))])
                                    ++ [DbCursor (fresh_handle (conns s))])
                                   ++ [DbExecute (fresh_handle (conns s)) (statement_of op)])
                                ACommit with
                        | Some e =>
                            fst (run_operation op s) = Raise e
                            /\ inner = [DbCursor (fresh_handle (conns s));
                                        DbExecute (fresh_handle (conns s)) (statement_of op);
                                        DbCommitFailed (fresh_handle (conns s));
                                        DbCursorClosed (fresh_handle (conns s))]
                        | None =>
                            fst (run_operation op s)
                            = Ret (expected_value op s
                                     (db_now D
                                        ((log s ++ [DbConnect (fresh_handle (conns s))])
                                           ++ [DbCursor (fresh_handle (conns s))])))
                            /\ inner = [DbCursor (fresh_handle (conns s));
                                        DbExecute (fresh_handle (conns s)) (statement_of op);
                                        DbCommit (fresh_handle (conns s));
                                        DbCursorClosed (fresh_handle (conns s))]
                        end
                  end
              end
  end.
Proof.
  assert (Hlog : forall l inner,
             l = (log s ++ [DbConnect (fresh_handle (conns s))]) ++ inner
                 ++ [DbClose (fresh_handle (conns s))] ->
             l = log s ++ [DbConnect (fresh_handle (conns s))] ++ inner
                 ++ [DbClose (fresh_handle (conns s))])
    by (intros l inner ->; now rewrite <- app_assoc).
  assert (Hrun : exists k : list result_row -> tail op_result,
             run_operation op s = scoped_run (statement_of op) k s
             /\ forall now,
                  k (snd (run_statement (fts_match D) now (statement_of op)
                            (rows s) (id_seq s)))
                  = if is_query op then TReturn (expected_value op s now)
                    else TCommitReturn (expected_value op s now)).
  { destruct op; cbn [run_operation statement_of is_query expected_value];
      rewrite ?add_question_run, ?get_all_questions_run, ?search_questions_run,
        ?get_by_category_run, ?delete_question_run, ?update_notes_run,
        ?get_category_stats_run;
      rewrite scoped_run_map; eexists; (split; [reflexivity |]); intros now;
      cbn [run_statement snd fetchone fetchall hd_error map_tail];
      rewrite ?fetchone_filter_ids; reflexivity. }
  destruct Hrun as (k & -> & Hk).
  unfold scoped_run. cbv zeta.
  destruct (db_fault D (log s) AConnect) as [e |]; [reflexivity |].
  split; [apply fresh_handle_not_in |].
  set (conn := fresh_handle (conns s)).
  set (st := statement_of op).
  unfold inside_connection.
  destruct (db_fault D (log s ++ [DbConnect conn]) ACursor) as [e |].
  { exists []. cbn [fst snd log conns]. split; [now apply Hlog |]. auto 6. }
  destruct (db_fault D ((log s ++ [DbConnect conn]) ++ [DbCursor conn]) (AExecute st))
    as [e |].
  { exists [DbCursor conn; DbExecuteFailed conn st; DbCursorClosed conn].
    cbn [fst snd log conns]. split; [apply Hlog; now rewrite <- !app_assoc |]. auto 6. }
  specialize (Hk (db_now D ((log s ++ [DbConnect conn]) ++ [DbCursor conn]))).
  fold st in Hk.
  destruct (run_statement (fts_match D) _ st (rows s) (id_seq s)) as [[table' seq'] res].
  cbn [snd] in Hk. rewrite Hk. clear Hk.
  destruct (is_query op).
  - exists [DbCursor conn; DbExecute conn st; DbCursorClosed conn].
    cbn [fst snd log conns]. split; [apply Hlog; now rewrite <- !app_assoc |]. auto 6.
  - destruct (db_fault D _ ACommit) as [e |].
    + exists [DbCursor conn; DbExecute conn st; DbCommitFailed conn; DbCursorClosed conn].
      cbn [fst snd log conns]. split; [apply Hlog; now rewrite <- !app_assoc |]. auto 8.
    + exists [DbCursor conn; DbExecute conn st; DbCommit conn; DbCursorClosed conn].
      cbn [fst snd log conns]. split; [apply Hlog; now rewrite <- !app_assoc |]. auto 8.
Qed.

Lemma existsb_row_id (i : Z) (l : list row) :
  existsb (fun r => (row_id r =? i)%Z) l = true <-> In i (map row_id l).
Proof.
  rewrite existsb_exists, in_map_iff. split.
  - intros (r & Hin & Heq). apply Z.eqb_eq in Heq. eauto.
  - intros (r & Heq & Hin). exists r. split; [assumption | now apply Z.eqb_eq].
Qed.

Lemma filter_out_id_absent (i : Z) (l : list row) :
  ~ In i (map row_id (filter (fun r => negb (row_id r =? i)%Z) l)).
Proof.
  rewrite in_map_iff. intros (r & Heq & Hin). apply filter_In in Hin as [_ Hne].
  apply Z.eqb_eq in Heq. rewrite Heq in Hne. discriminate.
Qed.

Lemma filter_out_id_same (i : Z) (l : list row) :
  existsb (fun r => (row_id r =? i)%Z) l = false ->
  filter (fun r => negb (row_id r =? i)%Z) l = l.
Proof.
  induction l as [| r l IH]; simpl; [reflexivity |].
  destruct (row_id r =? i)%Z; simpl; [discriminate |].
  intros H. now rewrite IH.
Qed.

(** The outcome and the rows of a delete, case by case. *)
Lemma delete_question_cases (question_id : Z) (s : store) :
  (fst (delete_question question_id s)
   = Ret (existsb (fun r => (row_id r =? question_id)%Z) (rows s))
   /\ rows (snd (delete_question question_id s))
      = filter (fun r => negb (row_id r =? question_id)%Z) (rows s))
  \/ ((exists e, fst (delete_question question_id s) = Raise e)
      /\ rows (snd (delete_question question_id s)) = rows s).
Proof.
  rewrite delete_question_run. unfold scoped_run.
  destruct (db_fault D (log s) AConnect) as [e |]; [right; simpl; eauto |].
  destruct (db_fault D _ ACursor) as [e |]; [right; simpl; eauto |].
  destruct (db_fault D _ (AExecute _)) as [e |]; [right; simpl; eauto |].
  cbn [run_statement].
  destruct (db_fault D _ ACommit) as [e |]; [right; simpl; eauto |].
  left. cbn [fst snd rows]. now rewrite fetchone_filter_ids.
Qed.

(** C8. [delete_question] returns true exactly when a row with the
    identifier was there before and is gone afterwards; the rows are then the
    old ones without it, and a second delete of the same identifier does not
    return true: it returns false unless the store fails.  A delete that
    returns false leaves the rows as they were.  When the store never fails,
    the first delete returns whether the identifier was present and the
    second returns false. *)
Theorem delete_question_true_iff_removed (question_id : Z) (s : store) :
  (fst (delete_question question_id s) = Ret true
   <-> In question_id (map row_id (rows s))
       /\ ~ In question_id (map row_id (rows (snd (delete_question question_id s)))))
  /\ (fst (delete_question question_id s) = Ret true ->
      rows (snd (delete_question question_id s))
      = filter (fun r => negb (row_id r =? question_id)%Z) (rows s)
      /\ (fst (delete_question question_id (snd (delete_question question_id s))) = Ret false
          \/ exists e,
               fst (delete_question question_id (snd (delete_question question_id s)))
               = Raise e))
  /\ (fst (delete_question question_id s) = Ret false ->
      rows (snd (delete_question question_id s)) = rows s)
  /\ ((forall l a, db_fault D l a = None) ->
      fst (delete_question question_id s)
      = Ret (existsb (fun r => (row_id r =? question_id)%Z) (rows s))
      /\ fst (delete_question question_id (snd (delete_question question_id s)))
         = Ret false).
Proof.
  assert (Hgone : forall s0,
             rows s0 = filter (fun r => negb (row_id r =? question_id)%Z) (rows s) ->
             existsb (fun r => (row_id r =? question_id)%Z) (rows s0) = false).
  { intros s0 H0. apply not_true_is_false. intros Hex.
    apply existsb_row_id in Hex. rewrite H0 in Hex.
    exact (filter_out_id_absent _ _ Hex). }
  destruct (delete_question_cases question_id s) as [[Ho Hr] | [(e & Ho) Hr]];
    rewrite Ho, Hr.
  - split; [| split; [| split]].
    + split.
      * intros H. inversion H as [Hex]. split.
        -- now apply existsb_row_id.
        -- apply filter_out_id_absent.
      * intros [Hin _]. f_equal. now apply existsb_row_id.
    + intros _. split; [reflexivity |].
      destruct (delete_question_cases question_id (snd (delete_question question_id s)))
        as [[Ho2 _] | [He2 _]]; [left | now right].
      rewrite Ho2. f_equal. now apply Hgone.
    + intros H. inversion H as [Hex]. now apply filter_out_id_same.
    + intros Hnf. split; [reflexivity |].
      destruct (delete_question_cases question_id (snd (delete_question question_id s)))
        as [[Ho2 _] | [(e2 & He2) _]].
      * rewrite Ho2. f_equal. now apply Hgone.
      * exfalso. revert He2. rewrite delete_question_run. unfold scoped_run.
        rewrite !Hnf. cbn [run_statement fst]. discriminate.
  - split; [| split; [| split]]; try discriminate.
    + split; [discriminate | tauto].
    + intros Hnf. exfalso. revert Ho. rewrite delete_question_run. unfold scoped_run.
      rewrite !Hnf. cbn [run_statement fst]. discriminate.
Qed.

(** ** Further properties of the chat turn *)

(** X1. When the evaluator accepts the candidate reply, [chat] returns it
    unchanged; the turn ends with the evaluator call and has no regeneration
    call, one evaluator call and one completion taken as a reply. *)
Theorem accepted_reply_is_returned (self : Me) (fuel : nat) (message : string)
    (history : list chat_message) (past : list event)
    (response : completion) (evs : list event) (evaluation : Evaluation) :
  chat_loop fuel ([Msg "system" (system_prompt self)] ++ history ++ [Msg "user" message]) past
  = (Ret response, evs) ->
  llm_parse E (past ++ evs)
    [Msg "system" (evaluator_system_prompt self);
     Msg "user" (evaluator_user_prompt (content response) message history)]
  = inr (Some evaluation) ->
  is_acceptable evaluation = true ->
  chat self fuel message history past
  = (Ret (content response),
     evs ++ [EvParse [Msg "system" (evaluator_system_prompt self);
                      Msg "user" (evaluator_user_prompt (content response) message history)]
               (inr (Some evaluation))])
  /\ count is_parse (snd (chat self fuel message history past)) = 1
  /\ count is_regeneration (snd (chat self fuel message history past)) = 0
  /\ count reply_producing (snd (chat self fuel message history past)) = 1.
Proof.
  intros H Hv Hacc.
  pose proof (chat_after_loop self _ _ _ _ _ _ H) as Hc. cbv zeta in Hc.
  rewrite Hv, Hacc in Hc.
  pose proof (chat_loop_Ret_counts _ _ _ _ _ H) as (Hp & Hrp & Hrg).
  rewrite Hc. cbn [snd]. rewrite !count_app, Hp, Hrp, Hrg. auto.
Qed.

(** X2. When the first completion does not ask for tools and the evaluator
    accepts, the turn is exactly one LLM call followed by one evaluator
    call, whatever the iteration budget, and the reply is the content of that
    completion. *)
Theorem direct_answer_takes_one_call (self : Me) (fuel : nat) (message : string)
    (history : list chat_message) (past : list event)
    (response : completion) (evaluation : Evaluation) :
  llm_create E past
    ([Msg "system" (system_prompt self)] ++ history ++ [Msg "user" message]) (Some tools)
  = inr response ->
  finish_reason response <> "tool_calls" ->
  llm_parse E
    (past ++ [EvCreate ([Msg "system" (system_prompt self)] ++ history
                          ++ [Msg "user" message]) (Some tools) (inr response)])
    [Msg "system" (evaluator_system_prompt self);
     Msg "user" (evaluator_user_prompt (content response) message history)]
  = inr (Some evaluation) ->
  is_acceptable evaluation = true ->
  chat self (S fuel) message history past
  = (Ret (content response),
     [EvCreate ([Msg "system" (system_prompt self)] ++ history ++ [Msg "user" message])
        (Some tools) (inr response);
      EvParse [Msg "system" (evaluator_system_prompt self);
               Msg "user" (evaluator_user_prompt (content response) message history)]
        (inr (Some evaluation))]).
Proof.
  intros Hllm Hf Hv Hacc.
  assert (Hloop : chat_loop (S fuel)
                    ([Msg "system" (system_prompt self)] ++ history ++ [Msg "user" message])
                    past
                  = (Ret response,
                     [] ++ [EvCreate ([Msg "system" (system_prompt self)] ++ history
                                        ++ [Msg "user" message]) (Some tools) (inr response)])).
  { apply chat_loop_stops_after_rounds with (k := 0); try assumption.
    - reflexivity.
    - now rewrite app_nil_r.
    - lia. }
  pose proof (chat_after_loop self _ _ _ _ _ _ Hloop) as Hc. cbv zeta in Hc.
  cbn [app] in Hc, Hv. cbn [app]. rewrite Hv, Hacc in Hc. exact Hc.
Qed.

(** X3. An exception of the LLM call, in the first round or after any
    number of completed tool rounds, leaves [chat] as it is: the turn ends
    with that call and the evaluator is not asked. *)
Theorem llm_failure_aborts_turn (self : Me) (message : string)
    (history : list chat_message) (past : list event) (k fuel : nat)
    (m : list chat_message) (evs : list event) (x : exn) :
  run_rounds k ([Msg "system" (system_prompt self)] ++ history ++ [Msg "user" message]) past
  = Some (m, evs) ->
  llm_create E (past ++ evs) m (Some tools) = inl x ->
  k < fuel ->
  chat self fuel message history past
  = (Raise x, evs ++ [EvCreate m (Some tools) (inl x)])
  /\ count is_parse (evs ++ [EvCreate m (Some tools) (inl x)]) = 0.
Proof.
  intros Hrr Hllm Hk. split.
  - eapply chat_raise_in_round; eauto.
    unfold chat_round. apply bind_Raise. unfold create, interact. now rewrite Hllm.
  - destruct (run_rounds_counts _ _ _ _ _ Hrr) as (Hp & _ & _).
    rewrite count_app, Hp. reflexivity.
Qed.

(** X4. A failure of the evaluator ends the turn without a reply and
    without a regeneration call: an exception of the evaluator call leaves
    [chat] as it is, and a completion without a parsed evaluation raises
    [AttributeError] where the flag is read. *)
Theorem evaluator_failure_aborts_turn (self : Me) (fuel : nat) (message : string)
    (history : list chat_message) (past : list event)
    (response : completion) (evs : list event) :
  chat_loop fuel ([Msg "system" (system_prompt self)] ++ history ++ [Msg "user" message]) past
  = (Ret response, evs) ->
  (forall x,
      llm_parse E (past ++ evs)
        [Msg "system" (evaluator_system_prompt self);
         Msg "user" (evaluator_user_prompt (content response) message history)]
      = inl x ->
      chat self fuel message history past
      = (Raise x,
         evs ++ [EvParse [Msg "system" (evaluator_system_prompt self);
                          Msg "user" (evaluator_user_prompt (content response)
                                        message history)] (inl x)]))
  /\ (llm_parse E (past ++ evs)
        [Msg "system" (evaluator_system_prompt self);
         Msg "user" (evaluator_user_prompt (content response) message history)]
      = inr None ->
      chat self fuel message history past
      = (Raise AttributeError,
         evs ++ [EvParse [Msg "system" (evaluator_system_prompt self);
                          Msg "user" (evaluator_user_prompt (content response)
                                        message history)] (inr None)])).
Proof.
  intros H. pose proof (chat_after_loop self _ _ _ _ _ _ H) as Hc. cbv zeta in Hc.
  split.
  - intros x Hv. now rewrite Hv in Hc.
  - intros Hv. now rewrite Hv in Hc.
Qed.

(** X5. Nothing in the turn catches an exception of a tool: whatever
    [handle_tool_calls] raises in a round (a [TypeError] of the call, a
    transport error of the notification, an exception of a library object)
    leaves [chat], after the events of that round so far. *)
Theorem tool_exception_aborts_turn (self : Me) (message : string)
    (history : list chat_message) (past : list event) (k fuel : nat)
    (m : list chat_message) (evs : list event) (response : completion)
    (e : exn) (evh : list event) :
  run_rounds k ([Msg "system" (system_prompt self)] ++ history ++ [Msg "user" message]) past
  = Some (m, evs) ->
  llm_create E (past ++ evs) m (Some tools) = inr response ->
  finish_reason response = "tool_calls" ->
  handle_tool_calls (tool_calls response)
    ((past ++ evs) ++ [EvCreate m (Some tools) (inr response)])
  = (Raise e, evh) ->
  k < fuel ->
  chat self fuel message history past
  = (Raise e, evs ++ EvCreate m (Some tools) (inr response) :: evh).
Proof.
  intros Hrr Hllm Hf Hh Hk.
  eapply chat_raise_in_round; eauto. now apply chat_round_raise.
Qed.

(** ** Further properties of the tool calls *)

Lemma call_func_cases f kwargs past :
  call_func f kwargs past = (Raise TypeError, [])
  \/ (exists text x,
        call_func f kwargs past
        = (Raise x, [EvPost (os_getenv E "PUSHOVER_TOKEN") (os_getenv E "PUSHOVER_USER")
                       text (inl x)]))
  \/ (exists text st j,
        call_func f kwargs past
        = (Ret (PData j), [EvPost (os_getenv E "PUSHOVER_TOKEN") (os_getenv E "PUSHOVER_USER")
                             text (inr st)])).
Proof.
  destruct f; unfold call_func.
  - destruct (keys_within ["text"] kwargs); [| now left].
    destruct (assoc "text" kwargs) as [text |]; [| now left].
    unfold bind. rewrite push_run.
    destruct (requests_post E past _ _ _) as [x | st];
      [right; left | right; right]; unfold ret; cbn [app]; eauto.
  - destruct (keys_within ["email"; "name"; "notes"] kwargs); [| now left].
    destruct (assoc "email" kwargs) as [email |]; [| now left].
    unfold record_user_details, bind. rewrite push_run.
    destruct (requests_post E past _ _ _) as [x | st];
      [right; left | right; right]; unfold ret; cbn [app]; eauto.
  - destruct (keys_within ["question"] kwargs); [| now left].
    destruct (assoc "question" kwargs) as [question |]; [| now left].
    unfold record_unknown_question, bind. rewrite push_run.
    destruct (requests_post E past _ _ _) as [x | st];
      [right; left | right; right]; unfold ret; cbn [app]; eauto.
Qed.

Lemma handle_tool_call_not_callable tc past arguments :
  json_loads py (tc_arguments tc) = Some arguments ->
  truthy (globals_get (tc_name tc)) = true ->
  (forall f kwargs, globals_get (tc_name tc) = Some (PFunc f) -> arguments <> JObj kwargs) ->
  (forall nm kwargs, globals_get (tc_name tc) = Some (POpaque nm) -> arguments <> JObj kwargs) ->
  handle_tool_call tc past = (Raise TypeError, [EvPrint ("Tool called: " +++ tc_name tc)]).
Proof.
  intros H Ht Hf Ho. rewrite (handle_tool_call_decoded _ _ _ H), Ht.
  destruct (globals_get (tc_name tc)) as [[j | f | nm] |] eqn:Hg; [| | | discriminate].
  - assert (Hc : forall p, call (PData j) arguments p = (Raise TypeError, []))
      by (intros p; destruct arguments; reflexivity).
    rewrite (bind_Raise _ _ _ _ _ (Hc _)). reflexivity.
  - assert (Hc : forall p, call (PFunc f) arguments p = (Raise TypeError, [])).
    { intros p. destruct arguments; try reflexivity. now destruct (Hf f fields eq_refl). }
    rewrite (bind_Raise _ _ _ _ _ (Hc _)). reflexivity.
  - assert (Hc : forall p, call (POpaque nm) arguments p = (Raise TypeError, [])).
    { intros p. destruct arguments; try reflexivity. now destruct (Ho nm fields eq_refl). }
    rewrite (bind_Raise _ _ _ _ _ (Hc _)). reflexivity.
Qed.

(** X7. A call of [record_user_details] without the required [email], or
    with a keyword that is not one of its parameters, and likewise a call of
    [record_unknown_question] without [question] or with another keyword,
    raises [TypeError] when the function is called: the line naming the tool
    has been printed, no notification is sent and no tool entry is made. *)
Theorem bad_keywords_raise_type_error (tc : tool_call) (past : list event)
    (kwargs : list (string * json)) :
  json_loads py (tc_arguments tc) = Some (JObj kwargs) ->
  (tc_name tc = "record_user_details"
   /\ (keys_within ["email"; "name"; "notes"] kwargs = false
       \/ assoc "email" kwargs = None))
  \/ (tc_name tc = "record_unknown_question"
      /\ (keys_within ["question"] kwargs = false \/ assoc "question" kwargs = None)) ->
  handle_tool_call tc past = (Raise TypeError, [EvPrint ("Tool called: " +++ tc_name tc)]).
Proof.
  intros H Hbad.
  assert (exists f, globals_get (tc_name tc) = Some (PFunc f)
                    /\ forall p, call_func f kwargs p = (Raise TypeError, []))
    as (f & Hg & Hc).
  { destruct Hbad as [[Hn Hk] | [Hn Hk]].
    - exists F_record_user_details. split; [rewrite Hn; reflexivity |].
      intros p. unfold call_func. destruct Hk as [Hk | Hk]; rewrite Hk; [reflexivity |].
      now destruct (keys_within _ kwargs).
    - exists F_record_unknown_question. split; [rewrite Hn; reflexivity |].
      intros p. unfold call_func. destruct Hk as [Hk | Hk]; rewrite Hk; [reflexivity |].
      now destruct (keys_within _ kwargs). }
  rewrite (handle_tool_call_module_function _ _ _ _ H Hg), Hc. reflexivity.
Qed.

(** X8. Arguments that are valid JSON but not an object (a list, a string,
    a number, [null]) cannot be unpacked as keywords: for every name the
    module namespace binds to a true value the call raises [TypeError] after
    the line naming the tool, and nothing else happens. *)
Theorem non_object_arguments_raise_type_error (tc : tool_call) (past : list event)
    (arguments : json) :
  json_loads py (tc_arguments tc) = Some arguments ->
  (forall kwargs, arguments <> JObj kwargs) ->
  truthy (globals_get (tc_name tc)) = true ->
  handle_tool_call tc past = (Raise TypeError, [EvPrint ("Tool called: " +++ tc_name tc)]).
Proof.
  intros H Hno Ht. apply handle_tool_call_not_callable with (arguments := arguments); auto.
Qed.

(** X9. A tool call that names one of the module's data objects (the list
    [tools], one of the two schemas) finds it, since it is a true value, and
    fails with [TypeError] when it calls it: such a name is not treated as an
    unknown tool. *)
Theorem data_names_are_not_callable (tc : tool_call) (past : list event)
    (arguments j : json) :
  json_loads py (tc_arguments tc) = Some arguments ->
  globals_get (tc_name tc) = Some (PData j) ->
  json_truthy j = true ->
  handle_tool_call tc past = (Raise TypeError, [EvPrint ("Tool called: " +++ tc_name tc)]).
Proof.
  intros H Hg Ht.
  apply handle_tool_call_not_callable with (arguments := arguments); auto.
  - rewrite Hg. exact Ht.
  - intros f kwargs Hf. congruence.
  - intros nm kwargs Hf. congruence.
Qed.

(** What a tool call that returns has done: printed its line and then
    nothing, or one notification that was answered, or one call of a library
    object that returned. *)
Lemma handle_tool_call_Ret_shape tc past r evs :
  handle_tool_call tc past = (Ret r, evs) ->
  (names_function tc = false /\ evs = [EvPrint ("Tool called: " +++ tc_name tc)])
  \/ (names_function tc = true
      /\ exists text st,
           evs = [EvPrint ("Tool called: " +++ tc_name tc);
                  EvPost (os_getenv E "PUSHOVER_TOKEN") (os_getenv E "PUSHOVER_USER")
                    text (inr st)])
  \/ (names_function tc = false
      /\ exists nm kwargs o,
           evs = [EvPrint ("Tool called: " +++ tc_name tc); EvForeign nm kwargs (inr o)]).
Proof.
  intros H.
  destruct (json_loads py (tc_arguments tc)) as [arguments |] eqn:Hj;
    [| rewrite (handle_tool_call_malformed _ _ Hj) in H; discriminate].
  destruct (truthy (globals_get (tc_name tc))) eqn:Ht.
  2:{ rewrite (handle_tool_call_unbound _ _ _ Hj Ht) in H. inversion H; subst.
      left. split; [| reflexivity]. unfold names_function.
      destruct (globals_get (tc_name tc)) as [[j | f | nm] |]; try reflexivity.
      discriminate. }
  destruct (globals_get (tc_name tc)) as [[j | f | nm] |] eqn:Hg; [| | | discriminate].
  - rewrite (handle_tool_call_not_callable tc past _ Hj) in H;
      [discriminate | now rewrite Hg | intros; congruence | intros; congruence].
  - destruct arguments as [| b | z | rp | s0 | items | kwargs];
      try (rewrite (handle_tool_call_not_callable tc past _ Hj) in H;
           [discriminate | now rewrite Hg | intros; discriminate | intros; discriminate]).
    rewrite (handle_tool_call_module_function _ _ _ _ Hj Hg) in H.
    destruct (call_func_cases f kwargs (past ++ [EvPrint ("Tool called: " +++ tc_name tc)]))
      as [Hc | [(text & x & Hc) | (text & st & j & Hc)]];
      rewrite Hc in H; cbn [fst snd dumps] in H; try discriminate.
    inversion H; subst. right; left. split; [unfold names_function; now rewrite Hg |].
    eauto.
  - destruct arguments as [| b | z | rp | s0 | items | kwargs];
      try (rewrite (handle_tool_call_not_callable tc past _ Hj) in H;
           [discriminate | now rewrite Hg | intros; discriminate | intros; discriminate]).
    rewrite (handle_tool_call_decoded _ _ _ Hj), Hg in H. cbn [truthy call] in H.
    unfold bind at 1 3, interact in H.
    destruct (foreign_call E _ nm kwargs) as [x | o]; [discriminate |].
    inversion H; subst. right; right. split; [unfold names_function; now rewrite Hg |].
    exists nm, kwargs, o.
    unfold bind, lift, ret, raise. destruct (dumps o); simpl; reflexivity.
Qed.

Lemma printed_app evs1 evs2 : printed (evs1 ++ evs2) = printed evs1 ++ printed evs2.
Proof.
  induction evs1 as [| e evs1 IH]; simpl; [reflexivity |].
  destruct e; simpl; now rewrite ?IH.
Qed.

Lemma handle_tool_calls_from_trace tcs : forall acc past results evs,
  handle_tool_calls_from acc tcs past = (Ret results, evs) ->
  printed evs = map (fun tc => "Tool called: " +++ tc_name tc) tcs
  /\ count is_post evs = length (filter names_function tcs).
Proof.
  induction tcs as [| tc rest IH]; intros acc past results evs H; simpl in H.
  - unfold ret in H. inversion H; subst. split; reflexivity.
  - apply bind_Ret_inv in H as (r & ev1 & ev2 & Hr & H & ->).
    apply IH in H as (Hp & Hc).
    rewrite printed_app, count_app, Hp, Hc. cbn [map filter].
    destruct (handle_tool_call_Ret_shape _ _ _ _ Hr)
      as [[Hn ->] | [[Hn (text & st & ->)] | [Hn (nm & kwargs & o & ->)]]];
      rewrite Hn; split; reflexivity.
Qed.

(** X10. When the tool calls of a round have all been handled, one line
    [Tool called: name] has been printed for each of them, in the order of
    the requests, and nothing else has been printed. *)
Theorem one_line_per_tool_call (tool_calls : list tool_call) (past : list event)
    (results : list chat_message) (evs : list event) :
  handle_tool_calls tool_calls past = (Ret results, evs) ->
  printed evs = map (fun tc => "Tool called: " +++ tc_name tc) tool_calls.
Proof. intros H. now apply handle_tool_calls_from_trace in H. Qed.

(** X11. When the tool calls of a round have all been handled, the number
    of notifications sent is the number of tool calls that name a function of
    the module: each such call sends exactly one, repeated calls with the
    same arguments are not merged, and a call with an unknown name sends
    none. *)
Theorem one_notification_per_executed_tool (tool_calls : list tool_call) (past : list event)
    (results : list chat_message) (evs : list event) :
  handle_tool_calls tool_calls past = (Ret results, evs) ->
  count is_post evs = length (filter names_function tool_calls)
  /\ length results = length tool_calls.
Proof.
  intros H. split.
  - now apply handle_tool_calls_from_trace in H.
  - apply handle_tool_calls_answers in H. symmetry. eapply Forall2_length; eauto.
Qed.

(** ** Prompts and initialisation *)

Lemma string_app_assoc (a b c : string) : (a +++ b) +++ c = a +++ (b +++ c).
Proof. induction a as [| ch a IH]; simpl; [reflexivity | now rewrite IH]. Qed.

Lemma string_app_nil_r (a : string) : a +++ "" = a.
Proof. induction a as [| ch a IH]; simpl; [reflexivity | now rewrite IH]. Qed.

(** X12. The regeneration call sends the history and the user message of
    the turn's first request, advertises no tools, and its system entry is
    the persona system prompt followed by a note that quotes the rejected
    answer and then the evaluator's feedback. *)
Theorem regeneration_request (self : Me) (reply : option string) (message : string)
    (history : list chat_message) (fb : string) (past : list event) :
  exists note before between after,
    note = before +++ str_opt reply +++ between +++ fb +++ after
    /\ rerun self reply message history fb past
       = (match llm_create E past
                  ([Msg "system" (system_prompt self +++ note)] ++ history
                     ++ [Msg "user" message]) None with
          | inr c => Ret (content c)
          | inl x => Raise x
          end,
          [EvCreate ([Msg "system" (system_prompt self +++ note)] ++ history
                       ++ [Msg "user" message])
             None
             (llm_create E past
                ([Msg "system" (system_prompt self +++ note)] ++ history
                   ++ [Msg "user" message]) None)]).
Proof.
  exists ((nl +++ nl +++ "## Previous answer rejected" +++ nl
           +++ "You just tried to reply, but the quality control rejected your reply" +++ nl)
          +++ ("## Your attempted answer:" +++ nl +++ str_opt reply +++ nl +++ nl)
          +++ ("## Reason for rejection:" +++ nl +++ fb +++ nl +++ nl)).
  exists (nl +++ nl +++ "## Previous answer rejected" +++ nl
          +++ "You just tried to reply, but the quality control rejected your reply" +++ nl
          +++ "## Your attempted answer:" +++ nl).
  exists (nl +++ nl +++ "## Reason for rejection:" +++ nl).
  exists (nl +++ nl).
  split.
  - rewrite !string_app_assoc. reflexivity.
  - unfold rerun, create, bind, interact, ret.
    cbv zeta. rewrite (string_app_assoc (system_prompt self)).
    destruct (llm_create E past _ None); reflexivity.
Qed.

Lemma fold_page_texts (pages : list (option string)) : forall acc,
  fold_left (fun acc page =>
               match page with
               | Some text => if (text =? "")%string then acc else acc +++ text
               | None => acc
               end) pages acc
  = acc +++ fold_right String.append "" (map page_text pages).
Proof.
  induction pages as [| page pages IH]; intros acc; simpl.
  - now rewrite string_app_nil_r.
  - rewrite IH. destruct page as [text |]; simpl; [| reflexivity].
    destruct (String.eqb_spec text "") as [-> | Hne]; simpl; [reflexivity |].
    now rewrite string_app_assoc.
Qed.

(** X13. [Me.__init__] succeeds exactly when the client can be built, the
    PDF can be opened and the summary can be read.  The profile text is then
    the texts of the pages joined in page order, a page without text (or
    with an empty one) adding nothing; the summary is the content of the
    file and the name is the fixed one. *)
Theorem init_reads_profile_and_summary (F : files) :
  (forall me,
      Me_init F = inr me ->
      exists pages text,
        pdf_pages F "me/profile_summary.pdf" = inr pages
        /\ read_text F "me/summary.txt" = inr text
        /\ name me = "Michael Di Giatnomasso"
        /\ linkedin me = fold_right String.append "" (map page_text pages)
        /\ summary me = text)
  /\ ((exists me, Me_init F = inr me)
      <-> ((exists u, new_client F = inr u)
           /\ (exists pages, pdf_pages F "me/profile_summary.pdf" = inr pages)
           /\ (exists text, read_text F "me/summary.txt" = inr text))).
Proof.
  unfold Me_init. split.
  - intros me H.
    destruct (new_client F) as [x | u]; [discriminate |].
    destruct (pdf_pages F "me/profile_summary.pdf") as [x | pages]; [discriminate |].
    destruct (read_text F "me/summary.txt") as [x | text]; [discriminate |].
    inversion H; subst. exists pages, text. cbn [name linkedin summary].
    rewrite fold_page_texts. auto.
  - split.
    + intros (me & H).
      destruct (new_client F) as [x | u]; [discriminate |].
      destruct (pdf_pages F "me/profile_summary.pdf") as [x | pages]; [discriminate |].
      destruct (read_text F "me/summary.txt") as [x | text]; [discriminate |].
      repeat split; eauto.
    + intros ((u & ->) & (pages & ->) & (text & ->)). eauto.
Qed.

(** ** Further properties of the question store *)

(** How an operation can end: with an exception and the rows it found, with
    a value and the rows it found (no commit), or with a value and the rows
    the statement produced (commit). *)
Lemma scoped_run_cases {A} st (k : list result_row -> tail A) s :
  exists now table' seq' res evs,
    run_statement (fts_match D) now st (rows s) (id_seq s) = (table', seq', res)
    /\ log (snd (scoped_run st k s)) = log s ++ evs
    /\ conns (snd (scoped_run st k s)) = conns s
    /\ ((exists e, fst (scoped_run st k s) = Raise e
                   /\ rows (snd (scoped_run st k s)) = rows s
                   /\ (id_seq (snd (scoped_run st k s)) = id_seq s
                       \/ id_seq (snd (scoped_run st k s)) = seq')
                   /\ forallb (fun e => negb (is_commit e)) evs = true)
        \/ (exists v, k res = TReturn v
                      /\ fst (scoped_run st k s) = Ret v
                      /\ rows (snd (scoped_run st k s)) = rows s
                      /\ id_seq (snd (scoped_run st k s)) = seq'
                      /\ forallb (fun e => negb (is_commit e)) evs = true)
        \/ (exists v, k res = TCommitReturn v
                      /\ fst (scoped_run st k s) = Ret v
                      /\ rows (snd (scoped_run st k s)) = table'
                      /\ id_seq (snd (scoped_run st k s)) = seq')).
Proof.
  unfold scoped_run.
  destruct (db_fault D (log s) AConnect) as [e |].
  { destruct (run_statement (fts_match D) 0 st (rows s) (id_seq s)) as [[t q] r] eqn:Hrs.
    exists 0, t, q, r, [DbConnectFailed]. split; [exact Hrs |].
    cbn [fst snd emit log conns rows id_seq]. do 2 (split; [reflexivity |]).
    left. exists e. auto. }
  set (conn := fresh_handle (conns s)).
  destruct (db_fault D _ ACursor) as [e |].
  { destruct (run_statement (fts_match D) 0 st (rows s) (id_seq s)) as [[t q] r] eqn:Hrs.
    exists 0, t, q, r, [DbConnect conn; DbClose conn]. split; [exact Hrs |].
    cbn [fst snd log conns rows id_seq]. split; [now rewrite <- app_assoc |].
    split; [reflexivity |]. left. exists e. auto. }
  destruct (db_fault D _ (AExecute st)) as [e |].
  { destruct (run_statement (fts_match D) 0 st (rows s) (id_seq s)) as [[t q] r] eqn:Hrs.
    exists 0, t, q, r,
      [DbConnect conn; DbCursor conn; DbExecuteFailed conn st; DbCursorClosed conn;
       DbClose conn].
    split; [exact Hrs |].
    cbn [fst snd log conns rows id_seq]. split; [now rewrite <- !app_assoc |].
    split; [reflexivity |]. left. exists e. auto. }
  destruct (run_statement (fts_match D) _ st (rows s) (id_seq s)) as [[t q] r] eqn:Hrs.
  destruct (k r) as [v | v | e] eqn:Hk.
  - eexists _, t, q, r,
      [DbConnect conn; DbCursor conn; DbExecute conn st; DbCursorClosed conn; DbClose conn].
    split; [exact Hrs |].
    cbn [fst snd log conns rows id_seq]. split; [now rewrite <- !app_assoc |].
    split; [reflexivity |]. right; left. exists v. auto.
  - destruct (db_fault D _ ACommit) as [e |].
    + eexists _, t, q, r,
        [DbConnect conn; DbCursor conn; DbExecute conn st; DbCommitFailed conn;
         DbCursorClosed conn; DbClose conn].
      split; [exact Hrs |].
      cbn [fst snd log conns rows id_seq]. split; [now rewrite <- !app_assoc |].
      split; [reflexivity |]. left. exists e. auto.
    + eexists _, t, q, r,
        [DbConnect conn; DbCursor conn; DbExecute conn st; DbCommit conn;
         DbCursorClosed conn; DbClose conn].
      split; [exact Hrs |].
      cbn [fst snd log conns rows id_seq]. split; [now rewrite <- !app_assoc |].
      split; [reflexivity |]. right; right. exists v. auto.
  - eexists _, t, q, r,
      [DbConnect conn; DbCursor conn; DbExecute conn st; DbCursorClosed conn; DbClose conn].
    split; [exact Hrs |].
    cbn [fst snd log conns rows id_seq]. split; [now rewrite <- !app_assoc |].
    split; [reflexivity |]. left. exists e. auto.
Qed.

Lemma scoped_run_no_fault {A} st (k : list result_row -> tail A) s :
  (forall l a, db_fault D l a = None) ->
  exists now evs,
    log (snd (scoped_run st k s)) = log s ++ evs
    /\ conns (snd (scoped_run st k s)) = conns s
    /\ id_seq (snd (scoped_run st k s))
       = snd (fst (run_statement (fts_match D) now st (rows s) (id_seq s)))
    /\ match k (snd (run_statement (fts_match D) now st (rows s) (id_seq s))) with
       | TReturn v =>
           fst (scoped_run st k s) = Ret v /\ rows (snd (scoped_run st k s)) = rows s
       | TCommitReturn v =>
           fst (scoped_run st k s) = Ret v
           /\ rows (snd (scoped_run st k s))
              = fst (fst (run_statement (fts_match D) now st (rows s) (id_seq s)))
       | TRaise e =>
           fst (scoped_run st k s) = Raise e /\ rows (snd (scoped_run st k s)) = rows s
       end.
Proof.
  intros Hnf. unfold scoped_run. rewrite !Hnf.
  set (conn := fresh_handle (conns s)).
  exists (db_now D ((log s ++ [DbConnect conn]) ++ [DbCursor conn])).
  destruct (run_statement (fts_match D) _ st (rows s) (id_seq s)) as [[t q] r].
  cbn [fst snd].
  destruct (k r) as [v | v | e]; eexists;
    cbn [fst snd log conns rows id_seq]; rewrite <- ?app_assoc; auto.
Qed.

Lemma run_operation_query op s :
  is_query op = true ->
  run_operation op s
  = scoped_run (statement_of op) (fun res => TReturn (ResRows (fetchall res))) s.
Proof.
  destruct op; try discriminate; intros _; cbn [run_operation statement_of];
    rewrite ?get_all_questions_run, ?search_questions_run, ?get_by_category_run,
      ?get_category_stats_run;
    now rewrite scoped_run_map.
Qed.

Lemma query_statement_reads op now table seq :
  is_query op = true ->
  fst (run_statement (fts_match D) now (statement_of op) table seq) = (table, seq).
Proof. destruct op; try discriminate; reflexivity. Qed.

(** X14. The four reading operations ([get_all_questions],
    [search_questions], [get_by_category], [get_category_stats]) leave the
    rows, the identifier sequence and the open connections as they found
    them and never commit, whether they return or raise. *)
Theorem queries_change_nothing (op : operation) (s : store) :
  is_query op = true ->
  rows (snd (run_operation op s)) = rows s
  /\ id_seq (snd (run_operation op s)) = id_seq s
  /\ conns (snd (run_operation op s)) = conns s
  /\ exists evs,
       log (snd (run_operation op s)) = log s ++ evs
       /\ forallb (fun e => negb (is_commit e)) evs = true.
Proof.
  intros Hq. rewrite (run_operation_query _ _ Hq).
  destruct (scoped_run_cases (statement_of op)
              (fun res => TReturn (ResRows (fetchall res))) s)
    as (now & t & q & r & evs & Hrs & Hlog & Hconns & Hcase).
  pose proof (query_statement_reads op now (rows s) (id_seq s) Hq) as Hread.
  rewrite Hrs in Hread. cbn [fst] in Hread. injection Hread as -> ->.
  destruct Hcase as [(e & _ & Hr & Hseq & Hnc) | [(v & _ & _ & Hr & Hseq & Hnc)
                                                  | (v & Hk & _)]].
  - repeat split; auto; [now destruct Hseq | eauto].
  - repeat split; eauto.
  - discriminate.
Qed.

(** X15. An operation of the store that raises has changed no row: what the
    statement wrote before the failure is not committed, and the connection
    it opened is closed. *)
Theorem failed_operation_changes_no_row (op : operation) (s : store) (e : exn) :
  fst (run_operation op s) = Raise e ->
  rows (snd (run_operation op s)) = rows s
  /\ conns (snd (run_operation op s)) = conns s.
Proof.
  destruct (run_operation_scoped op s) as (k & ->). intros H.
  destruct (scoped_run_cases (statement_of op) k s)
    as (now & t & q & r & evs & _ & _ & Hconns & Hcase).
  split; [| exact Hconns].
  destruct Hcase as [(e' & _ & Hr & _) | [(v & _ & Hv & _) | (v & _ & Hv & _)]];
    [exact Hr | congruence | congruence].
Qed.

Lemma map_row_id_set_notes (i : Z) (n : string) (l : list row) :
  map row_id (map (fun r => if (row_id r =? i)%Z then set_notes n r else r) l)
  = map row_id l.
Proof.
  induction l as [| r l IH]; simpl; [reflexivity |].
  rewrite IH. now destruct (row_id r =? i)%Z.
Qed.

Lemma set_notes_absent (i : Z) (n : string) (l : list row) :
  existsb (fun r => (row_id r =? i)%Z) l = false ->
  map (fun r => if (row_id r =? i)%Z then set_notes n r else r) l = l.
Proof.
  induction l as [| r l IH]; simpl; [reflexivity |].
  destruct (row_id r =? i)%Z; simpl; [discriminate |].
  intros H. now rewrite IH.
Qed.

(** The outcome and the rows of an update of the notes, case by case. *)
Lemma update_notes_cases (question_id : Z) (n : string) (s : store) :
  (fst (update_notes question_id n s)
   = Ret (existsb (fun r => (row_id r =? question_id)%Z) (rows s))
   /\ rows (snd (update_notes question_id n s))
      = map (fun r => if (row_id r =? question_id)%Z then set_notes n r else r) (rows s))
  \/ ((exists e, fst (update_notes question_id n s) = Raise e)
      /\ rows (snd (update_notes question_id n s)) = rows s).
Proof.
  rewrite update_notes_run. unfold scoped_run.
  destruct (db_fault D (log s) AConnect) as [e |]; [right; simpl; eauto |].
  destruct (db_fault D _ ACursor) as [e |]; [right; simpl; eauto |].
  destruct (db_fault D _ (AExecute _)) as [e |]; [right; simpl; eauto |].
  cbn [run_statement].
  destruct (db_fault D _ ACommit) as [e |]; [right; simpl; eauto |].
  left. cbn [fst snd rows]. now rewrite fetchone_filter_ids.
Qed.

(** X16. [update_notes] returns true exactly when it returns and a row has
    the identifier; the rows are then the old ones with the notes of that
    row replaced and every other column and row as before.  When it returns
    false or raises, the rows are unchanged.  It never adds or removes a row,
    and when the store never fails it returns whether the identifier is
    present. *)
Theorem update_notes_sets_notes_of_that_row (question_id : Z) (n : string) (s : store) :
  (fst (update_notes question_id n s) = Ret true ->
     In question_id (map row_id (rows s))
     /\ rows (snd (update_notes question_id n s))
        = map (fun r => if (row_id r =? question_id)%Z then set_notes n r else r) (rows s))
  /\ (fst (update_notes question_id n s) = Ret false ->
      ~ In question_id (map row_id (rows s))
      /\ rows (snd (update_notes question_id n s)) = rows s)
  /\ (forall e, fst (update_notes question_id n s) = Raise e ->
      rows (snd (update_notes question_id n s)) = rows s)
  /\ map row_id (rows (snd (update_notes question_id n s))) = map row_id (rows s)
  /\ ((forall l a, db_fault D l a = None) ->
      fst (update_notes question_id n s)
      = Ret (existsb (fun r => (row_id r =? question_id)%Z) (rows s))).
Proof.
  destruct (update_notes_cases question_id n s) as [[Ho Hr] | [(e & Ho) Hr]];
    rewrite Ho, Hr.
  - split; [| split; [| split; [| split]]].
    + intros H. inversion H as [Hex]. split; [now apply existsb_row_id | reflexivity].
    + intros H. inversion H as [Hex]. split.
      * intros Hin. apply existsb_row_id in Hin. congruence.
      * now apply set_notes_absent.
    + discriminate.
    + apply map_row_id_set_notes.
    + reflexivity.
  - split; [| split; [| split; [| split]]]; try discriminate; auto.
    intros Hnf. exfalso. revert Ho. rewrite update_notes_run. unfold scoped_run.
    rewrite !Hnf. cbn [run_statement fst]. discriminate.
Qed.

(** The outcome and the rows of an insertion, case by case. *)
Lemma add_question_cases q c a n s :
  (exists now,
      fst (add_question q c a n s) = Ret (id_seq s + 1)%Z
      /\ rows (snd (add_question q c a n s))
         = rows s ++ [{| row_id := (id_seq s + 1)%Z; question_text := q; category := c;
                        asked_by := a; notes := n; created_at := now |}]
      /\ id_seq (snd (add_question q c a n s)) = (id_seq s + 1)%Z)
  \/ ((exists e, fst (add_question q c a n s) = Raise e)
      /\ rows (snd (add_question q c a n s)) = rows s
      /\ (id_seq (snd (add_question q c a n s)) = id_seq s
          \/ id_seq (snd (add_question q c a n s)) = (id_seq s + 1)%Z)).
Proof.
  rewrite add_question_run. unfold scoped_run.
  destruct (db_fault D (log s) AConnect) as [e |]; [right; simpl; eauto |].
  destruct (db_fault D _ ACursor) as [e |]; [right; simpl; eauto |].
  destruct (db_fault D _ (AExecute _)) as [e |]; [right; simpl; eauto |].
  cbn [run_statement fetchone hd_error].
  destruct (db_fault D _ ACommit) as [e |]; [right; simpl; eauto |].
  left. cbn [fst snd rows id_seq]. eauto.
Qed.

(** X17. [add_question] returns the next value of the identifier sequence;
    the rows are then the old ones followed by one new row that has that
    identifier and the four given columns.  When it raises, no row has been
    added.  When the store never fails it returns. *)
Theorem add_question_appends_one_row (q : string) (c a n : option string) (s : store) :
  (forall i,
      fst (add_question q c a n s) = Ret i ->
      i = (id_seq s + 1)%Z
      /\ id_seq (snd (add_question q c a n s)) = i
      /\ exists now,
           rows (snd (add_question q c a n s))
           = rows s ++ [{| row_id := i; question_text := q; category := c;
                          asked_by := a; notes := n; created_at := now |}])
  /\ (forall e, fst (add_question q c a n s) = Raise e ->
      rows (snd (add_question q c a n s)) = rows s)
  /\ ((forall l a', db_fault D l a' = None) ->
      fst (add_question q c a n s) = Ret (id_seq s + 1)%Z).
Proof.
  destruct (add_question_cases q c a n s)
    as [(now & Ho & Hr & Hs) | [(e & Ho) [Hr Hs]]]; rewrite Ho.
  - split; [| split].
    + intros i H. inversion H; subst. rewrite Hr. eauto.
    + discriminate.
    + reflexivity.
  - split; [| split]; try discriminate; auto.
    intros Hnf. exfalso. revert Ho. rewrite add_question_run. unfold scoped_run.
    rewrite !Hnf. cbn [run_statement fetchone hd_error fst]. discriminate.
Qed.

Lemma filter_keeps_ids_distinct (keep : row -> bool) (table : list row) :
  NoDup (map row_id table) -> NoDup (map row_id (filter keep table)).
Proof.
  intros Hnd. induction table as [| r table IH]; simpl in *; [exact Hnd |].
  inversion Hnd as [| i ids Hfresh Hrest]; subst.
  destruct (keep r); simpl; [| now apply IH].
  constructor; [| now apply IH].
  intros Hin. apply Hfresh. apply in_map_iff in Hin as (r' & Hid & Hin).
  apply filter_In in Hin as [Hin _]. apply in_map_iff. eauto.
Qed.

(** A statement keeps the identifiers distinct and within the sequence,
    which it never moves back. *)
Lemma run_statement_keeps_ids now st table seq table' seq' res :
  NoDup (map row_id table) ->
  Forall (fun r => (row_id r <= seq)%Z) table ->
  run_statement (fts_match D) now st table seq = (table', seq', res) ->
  (seq <= seq')%Z
  /\ NoDup (map row_id table')
  /\ Forall (fun r => (row_id r <= seq')%Z) table'.
Proof.
  intros Hnd Hle H. destruct st; cbn [run_statement] in H; inversion H; subst; clear H;
    try (split; [lia | split; assumption]).
  - split; [lia |]. split.
    + rewrite map_app. cbn [map row_id]. apply NoDup_app.
      * exact Hnd.
      * constructor; [intros [] | constructor].
      * intros x Hin [<- | []]. apply in_map_iff in Hin as (r & Hr & Hin).
        rewrite Forall_forall in Hle. specialize (Hle r Hin). lia.
    + apply Forall_app. split.
      * eapply Forall_impl; [| exact Hle]. cbn. intros r Hr. lia.
      * constructor; [cbn; lia | constructor].
  - split; [lia |]. split.
    + now apply filter_keeps_ids_distinct.
    + rewrite Forall_forall in *. intros r Hin. apply filter_In in Hin as [Hin _]. auto.
  - split; [lia |]. split.
    + now rewrite map_row_id_set_notes.
    + rewrite Forall_forall in *. intros r Hin.
      apply in_map_iff in Hin as (r0 & <- & Hin). specialize (Hle r0 Hin).
      now destruct (row_id r0 =? question_id)%Z.
Qed.

(** X18. Every operation of the store, whether it returns or raises, keeps
    the identifiers of the rows pairwise distinct and not beyond the last
    value the sequence gave out. *)
Theorem identifiers_stay_unique (op : operation) (s : store) :
  ids_consistent s -> ids_consistent (snd (run_operation op s)).
Proof.
  intros [Hnd Hle]. destruct (run_operation_scoped op s) as (k & ->).
  destruct (scoped_run_cases (statement_of op) k s)
    as (now & t & q & r & evs & Hrs & _ & _ & Hcase).
  destruct (run_statement_keeps_ids _ _ _ _ _ _ _ Hnd Hle Hrs) as (Hq & Hnd' & Hle').
  unfold ids_consistent.
  destruct Hcase as [(e & _ & Hr & Hseq & _) | [(v & _ & _ & Hr & Hseq & _)
                                                | (v & _ & _ & Hr & Hseq)]];
    rewrite Hr.
  - split; [exact Hnd |]. eapply Forall_impl; [| exact Hle]. cbn. intros r0 Hr0.
    destruct Hseq as [-> | ->]; lia.
  - split; [exact Hnd |]. rewrite Hseq. eapply Forall_impl; [| exact Hle]. cbn.
    intros r0 Hr0. lia.
  - rewrite Hseq. split; assumption.
Qed.

(** X19. When the identifiers of the store are consistent, the identifier
    [add_question] returns is one no row had before, and is positive when the
    sequence was not negative; afterwards exactly one row has it. *)
Theorem added_identifier_is_new (q : string) (c a n : option string) (s : store) (i : Z) :
  ids_consistent s ->
  fst (add_question q c a n s) = Ret i ->
  ~ In i (map row_id (rows s))
  /\ ((0 <= id_seq s)%Z -> (0 < i)%Z)
  /\ length (filter (fun r => (row_id r =? i)%Z) (rows (snd (add_question q c a n s)))) = 1.
Proof.
  intros [Hnd Hle] H.
  destruct (add_question_cases q c a n s)
    as [(now & Ho & Hr & Hs) | [(e & Ho) _]]; [| congruence].
  rewrite Ho in H. inversion H; subst i. clear H.
  assert (Hnew : ~ In (id_seq s + 1)%Z (map row_id (rows s))).
  { intros Hin. apply in_map_iff in Hin as (r & Hr' & Hin).
    rewrite Forall_forall in Hle. specialize (Hle r Hin). lia. }
  split; [exact Hnew |]. split; [lia |].
  rewrite Hr, filter_app, length_app. cbn [filter row_id].
  rewrite Z.eqb_refl. cbn [length].
  assert (Hnone : filter (fun r => (row_id r =? id_seq s + 1)%Z) (rows s) = []).
  { destruct (filter _ (rows s)) as [| r l] eqn:Hf; [reflexivity |].
    assert (Hin : In r (filter (fun r => (row_id r =? id_seq s + 1)%Z) (rows s)))
      by (rewrite Hf; now left).
    apply filter_In in Hin as [Hin Heq]. apply Z.eqb_eq in Heq.
    exfalso. apply Hnew. apply in_map_iff. eauto. }
  rewrite Hnone. reflexivity.
Qed.

Lemma insert_desc_perm {A} (key : A -> nat) (x : A) (l : list A) :
  Permutation (insert_desc key x l) (x :: l).
Proof.
  induction l as [| y l IH]; simpl; [reflexivity |].
  destruct (Nat.leb (key y) (key x)); [reflexivity |].
  rewrite IH. apply perm_swap.
Qed.

Lemma order_desc_perm {A} (key : A -> nat) (l : list A) :
  Permutation (order_desc key l) l.
Proof.
  unfold order_desc. induction l as [| x l IH]; simpl; [reflexivity |].
  rewrite insert_desc_perm. now constructor.
Qed.

Lemma insert_desc_sorted {A} (key : A -> nat) (x : A) (l : list A) :
  StronglySorted (fun a b => key b <= key a) l ->
  StronglySorted (fun a b => key b <= key a) (insert_desc key x l).
Proof.
  induction l as [| y l IH]; simpl; intros Hs.
  - constructor; constructor.
  - inversion Hs as [| y' l' Hsl Hall]; subst.
    destruct (Nat.leb_spec (key y) (key x)) as [Hle | Hgt].
    + constructor; [exact Hs |]. constructor; [exact Hle |].
      eapply Forall_impl; [| exact Hall]. cbn. intros z Hz. lia.
    + constructor; [now apply IH |].
      eapply Permutation_Forall; [symmetry; apply insert_desc_perm |].
      constructor; [lia | exact Hall].
Qed.

Lemma order_desc_sorted {A} (key : A -> nat) (l : list A) :
  StronglySorted (fun a b => key b <= key a) (order_desc key l).
Proof.
  unfold order_desc. induction l as [| x l IH]; simpl; [constructor |].
  now apply insert_desc_sorted.
Qed.

(** The result of a reading operation: the rows its statement selects from
    the committed rows, or an exception. *)
Lemma query_result (st : statement) (s : store) :
  (forall now table seq,
      run_statement (fts_match D) now st table seq
      = (table, seq, snd (run_statement (fts_match D) 0 st table seq))) ->
  (fst (scoped_run st (fun res => TReturn (fetchall res)) s)
   = Ret (snd (run_statement (fts_match D) 0 st (rows s) (id_seq s)))
   \/ exists e, fst (scoped_run st (fun res => TReturn (fetchall res)) s) = Raise e)
  /\ ((forall l a, db_fault D l a = None) ->
      fst (scoped_run st (fun res => TReturn (fetchall res)) s)
      = Ret (snd (run_statement (fts_match D) 0 st (rows s) (id_seq s)))).
Proof.
  intros Hst. unfold scoped_run. split.
  - destruct (db_fault D (log s) AConnect) as [e |]; [right; simpl; eauto |].
    destruct (db_fault D _ ACursor) as [e |]; [right; simpl; eauto |].
    destruct (db_fault D _ (AExecute st)) as [e |]; [right; simpl; eauto |].
    rewrite Hst. left. reflexivity.
  - intros Hnf. rewrite !Hnf, Hst. reflexivity.
Qed.

(** X20. What [get_by_category] returns is exactly the rows whose category
    is the given one, each once, newest first; when the store never fails it
    returns. *)
Theorem get_by_category_returns_the_category (c : string) (s : store) :
  (forall l,
      fst (get_by_category c s) = Ret l ->
      exists rs,
        l = map RRow rs
        /\ Permutation rs (filter (fun r => opt_string_eqb (category r) (Some c)) (rows s))
        /\ Forall (fun r => category r = Some c) rs
        /\ newest_first rs)
  /\ ((forall l a, db_fault D l a = None) -> exists l, fst (get_by_category c s) = Ret l).
Proof.
  rewrite get_by_category_run.
  destruct (query_result (SelectByCategory c) s) as [Hres Htotal]; [reflexivity |].
  split.
  - intros l H. destruct Hres as [Hres | (e & Hres)]; [| congruence].
    rewrite Hres in H. inversion H; subst l. cbn [run_statement snd].
    eexists. split; [reflexivity |]. split; [apply order_desc_perm |].
    split; [| apply order_desc_sorted].
    eapply Permutation_Forall; [symmetry; apply order_desc_perm |].
    rewrite Forall_forall. intros r Hin. apply filter_In in Hin as [_ Hc].
    destruct (category r) as [c' |]; cbn in Hc; [| discriminate].
    apply String.eqb_eq in Hc. now subst.
  - intros Hnf. eexists. now apply Htotal.
Qed.

(** X21. What [search_questions] returns is exactly the rows whose question
    text the engine matches against the keyword, each once, newest first;
    when the store never fails it returns. *)
Theorem search_questions_returns_the_matches (keyword : string) (s : store) :
  (forall l,
      fst (search_questions keyword s) = Ret l ->
      exists rs,
        l = map RRow rs
        /\ Permutation rs (filter (fun r => fts_match D keyword (question_text r)) (rows s))
        /\ newest_first rs)
  /\ ((forall l a, db_fault D l a = None) -> exists l, fst (search_questions keyword s) = Ret l).
Proof.
  rewrite search_questions_run.
  destruct (query_result (SelectSearch keyword) s) as [Hres Htotal]; [reflexivity |].
  split.
  - intros l H. destruct Hres as [Hres | (e & Hres)]; [| congruence].
    rewrite Hres in H. inversion H; subst l. cbn [run_statement snd].
    eexists. split; [reflexivity |]. split; [apply order_desc_perm | apply order_desc_sorted].
  - intros Hnf. eexists. now apply Htotal.
Qed.

(** X22. What [get_all_questions] returns is every row, each once, newest
    first; when the store never fails it returns. *)
Theorem get_all_questions_returns_every_row (s : store) :
  (forall l,
      fst (get_all_questions s) = Ret l ->
      exists rs, l = map RRow rs /\ Permutation rs (rows s) /\ newest_first rs)
  /\ ((forall l a, db_fault D l a = None) -> exists l, fst (get_all_questions s) = Ret l).
Proof.
  rewrite get_all_questions_run.
  destruct (query_result SelectAll s) as [Hres Htotal]; [reflexivity |].
  split.
  - intros l H. destruct Hres as [Hres | (e & Hres)]; [| congruence].
    rewrite Hres in H. inversion H; subst l. cbn [run_statement snd].
    eexists. split; [reflexivity |]. split; [apply order_desc_perm | apply order_desc_sorted].
  - intros Hnf. eexists. now apply Htotal.
Qed.

Lemma opt_string_eqb_eq (a b : option string) : opt_string_eqb a b = true <-> a = b.
Proof.
  destruct a as [x |], b as [y |]; simpl; split; intros H;
    try discriminate; try reflexivity.
  - apply String.eqb_eq in H. now subst.
  - inversion H. apply String.eqb_refl.
Qed.

Lemma opt_string_eqb_refl (a : option string) : opt_string_eqb a a = true.
Proof. now apply opt_string_eqb_eq. Qed.

Lemma opt_string_eqb_neq (a b : option string) : opt_string_eqb a b = false <-> a <> b.
Proof.
  split.
  - intros H Heq. apply opt_string_eqb_eq in Heq. congruence.
  - intros H. apply not_true_is_false. intros Heq. now apply opt_string_eqb_eq in Heq.
Qed.

Lemma option_string_dec (a b : option string) : {a = b} + {a <> b}.
Proof. decide equality. apply string_dec. Defined.

(** The counters after one more row of category [c]: the categories stay
    distinct, the counter of [c] goes up by one (from nothing to one when it
    is new) and the others stay. *)
Lemma bump_spec (c : option string) (acc : list (option string * nat)) :
  NoDup (map fst acc) ->
  NoDup (map fst (bump c acc))
  /\ (forall c' n,
        In (c', n) (bump c acc)
        <-> (c' = c /\ (exists m, In (c, m) acc /\ n = S m))
            \/ (c' = c /\ ~ In c (map fst acc) /\ n = 1)
            \/ (c' <> c /\ In (c', n) acc)).
Proof.
  induction acc as [| [c0 n0] acc IH]; simpl; intros Hnd.
  - split; [constructor; [intros [] | constructor] |].
    intros c' n. split.
    + intros [H | []]. inversion H; subst. right; left. auto.
    + intros [(_ & (m & [] & _)) | [(-> & _ & ->) | (_ & [])]]. now left.
  - inversion Hnd as [| x xs Hnin Hnd']; subst.
    destruct (IH Hnd') as [IHnd IHin]. clear IH.
    destruct (opt_string_eqb c0 c) eqn:Heq.
    + apply opt_string_eqb_eq in Heq. subst c0. split; [now constructor |].
      intros c' n. simpl. split.
      * intros [H | H].
        -- inversion H; subst. left. split; [reflexivity |]. exists n0. auto.
        -- right; right. split; [| now right].
           intros ->. apply Hnin. apply in_map_iff. exists (c, n). auto.
      * intros [(-> & (m & [H | H] & ->)) | [(-> & Hno & ->) | (Hne & [H | H])]].
        -- inversion H; subst. now left.
        -- exfalso. apply Hnin. apply in_map_iff. exists (c, m). auto.
        -- exfalso. apply Hno. now left.
        -- inversion H; subst. congruence.
        -- now right.
    + apply opt_string_eqb_neq in Heq. split.
      * simpl. constructor; [| exact IHnd].
        intros Hin. apply in_map_iff in Hin as ([c1 n1] & Hc1 & Hin). simpl in Hc1. subst c1.
        apply IHin in Hin as [(-> & _) | [(-> & _) | (_ & Hin)]]; try congruence.
        apply Hnin. apply in_map_iff. exists (c0, n1). auto.
      * intros c' n. simpl. rewrite IHin. split.
        -- intros [H | [(-> & (m & Hin & ->)) | [(-> & Hno & ->) | (Hne & Hin)]]].
           ++ inversion H; subst. right; right. auto.
           ++ left. split; [reflexivity |]. exists m. auto.
           ++ right; left. split; [reflexivity |]. split; [| reflexivity].
              intros [H | H]; [congruence | contradiction].
           ++ right; right. auto.
        -- intros [(-> & (m & [H | Hin] & ->)) | [(-> & Hno & ->) | (Hne & [H | Hin])]].
           ++ inversion H; subst. congruence.
           ++ right; left. split; [reflexivity |]. eauto.
           ++ right; right; left. split; [reflexivity |]. split; [| reflexivity].
              intros Hin. apply Hno. now right.
           ++ now left.
           ++ right; right; right. auto.
Qed.

Lemma bump_sum (c : option string) (acc : list (option string * nat)) :
  list_sum (map snd (bump c acc)) = S (list_sum (map snd acc)).
Proof.
  induction acc as [| [c0 n0] acc IH]; simpl; [reflexivity |].
  destruct (opt_string_eqb c0 c); simpl; [reflexivity |]. rewrite IH. lia.
Qed.

(** The counters built from the rows: one entry per category that occurs,
    holding the number of its rows. *)
Lemma group_count_from (l : list row) : forall acc,
  NoDup (map fst acc) ->
  let out := fold_left (fun acc r => bump (category r) acc) l acc in
  NoDup (map fst out)
  /\ list_sum (map snd out) = list_sum (map snd acc) + length l
  /\ (forall c n,
        In (c, n) out
        <-> (exists m, In (c, m) acc /\ n = m + rows_of_category c l)
            \/ (~ In c (map fst acc) /\ n = rows_of_category c l /\ 0 < n)).
Proof.
  unfold rows_of_category.
  induction l as [| r l IH]; intros acc Hnd; cbn [fold_left].
  - split; [exact Hnd |]. split; [simpl; lia |].
    intros c n. simpl. split.
    + intros Hin. left. exists n. split; [exact Hin | lia].
    + intros [(m & Hin & ->) | (_ & -> & Hpos)]; [now rewrite Nat.add_0_r | lia].
  - destruct (bump_spec (category r) acc Hnd) as [Hnd' Hin'].
    destruct (IH (bump (category r) acc) Hnd') as (IH1 & IH2 & IH3). clear IH.
    split; [exact IH1 |]. split; [rewrite IH2, bump_sum; simpl; lia |].
    intros c n. rewrite IH3. clear IH3. cbn [filter].
    assert (Hkeys : In c (map fst (bump (category r) acc))
                    <-> c = category r \/ In c (map fst acc)).
    { split.
      - intros Hin. apply in_map_iff in Hin as ([c1 n1] & Hc1 & Hin). simpl in Hc1. subst c1.
        apply Hin' in Hin as [(-> & _) | [(-> & _) | (_ & Hin)]]; auto.
        right. apply in_map_iff. exists (c, n1). auto.
      - intros [-> | Hin].
        + destruct (in_dec option_string_dec (category r) (map fst acc))
            as [Hyes | Hno].
          * apply in_map_iff in Hyes as ([c1 n1] & Hc1 & Hyes). simpl in Hc1. subst c1.
            apply in_map_iff. exists (category r, S n1). split; [reflexivity |].
            apply Hin'. left. eauto.
          * apply in_map_iff. exists (category r, 1). split; [reflexivity |].
            apply Hin'. right; left. auto.
        + apply in_map_iff in Hin as ([c1 n1] & Hc1 & Hin). simpl in Hc1. subst c1.
          destruct (option_string_dec c (category r)) as [-> | Hne].
          * apply in_map_iff. exists (category r, S n1). split; [reflexivity |].
            apply Hin'. left. eauto.
          * apply in_map_iff. exists (c, n1). split; [reflexivity |].
            apply Hin'. right; right. auto. }
    destruct (opt_string_eqb (category r) c) eqn:Heq.
    + apply opt_string_eqb_eq in Heq. subst c. cbn [length]. split.
      * intros [(m & Hin & ->) | (Hno & _)].
        -- apply Hin' in Hin as [(_ & (m0 & Hin & ->)) | [(_ & Hno & ->) | (Hne & _)]].
           ++ left. exists m0. split; [exact Hin | lia].
           ++ right. split; [exact Hno |]. split; lia.
           ++ congruence.
        -- exfalso. apply Hno. apply Hkeys. now left.
      * intros [(m & Hin & ->) | (Hno & -> & _)].
        -- left. exists (S m). split; [| lia]. apply Hin'. left. eauto.
        -- left. exists 1. split; [| lia]. apply Hin'. right; left. auto.
    + apply opt_string_eqb_neq in Heq. split.
      * intros [(m & Hin & ->) | (Hno & -> & Hpos)].
        -- apply Hin' in Hin as [(-> & _) | [(-> & _) | (_ & Hin)]]; try congruence.
           left. eauto.
        -- right. split; [| auto]. intros Hin. apply Hno. apply Hkeys. now right.
      * intros [(m & Hin & ->) | (Hno & -> & Hpos)].
        -- left. exists m. split; [| reflexivity]. apply Hin'. right; right. split; congruence.
        -- right. split; [| auto]. intros Hin. apply Hkeys in Hin as [-> | Hin]; congruence.
Qed.

Lemma list_sum_perm (l1 l2 : list nat) : Permutation l1 l2 -> list_sum l1 = list_sum l2.
Proof.
  induction 1; simpl; lia.
Qed.

(** X23. What [get_category_stats] returns has one entry for each category
    that occurs among the rows (rows without a category form one group),
    holding the number of its rows; the counts add up to the number of rows
    and the entries come in descending order of count.  When the store never
    fails it returns. *)
Theorem category_stats_count_the_rows (s : store) :
  (forall l,
      fst (get_category_stats s) = Ret l ->
      exists stats,
        l = map (fun cn => RStat (fst cn) (snd cn)) stats
        /\ NoDup (map fst stats)
        /\ (forall c n, In (c, n) stats <-> n = rows_of_category c (rows s) /\ 0 < n)
        /\ list_sum (map snd stats) = length (rows s)
        /\ StronglySorted (fun a b => snd b <= snd a) stats)
  /\ ((forall l a, db_fault D l a = None) -> exists l, fst (get_category_stats s) = Ret l).
Proof.
  rewrite get_category_stats_run.
  destruct (query_result SelectStats s) as [Hres Htotal]; [reflexivity |].
  split; [| intros Hnf; eexists; now apply Htotal].
  intros l H. destruct Hres as [Hres | (e & Hres)]; [| congruence].
  rewrite Hres in H. inversion H; subst l. cbn [run_statement snd].
  exists (order_desc snd (group_count (rows s))).
  pose proof (order_desc_perm snd (group_count (rows s))) as Hperm.
  destruct (group_count_from (rows s) [] (NoDup_nil _)) as (Hnd & Hsum & Hin).
  fold (group_count (rows s)) in Hnd, Hsum, Hin.
  split; [reflexivity |]. split; [| split; [| split]].
  - eapply Permutation_NoDup; [| exact Hnd].
    apply Permutation_map. now symmetry.
  - intros c n. split.
    + intros Hc. apply (Permutation_in _ Hperm) in Hc.
      apply Hin in Hc as [(m & [] & _) | (_ & -> & Hpos)]. auto.
    + intros [-> Hpos]. apply (Permutation_in _ (Permutation_sym Hperm)).
      apply Hin. right. split; [intros [] | auto].
  - rewrite (list_sum_perm _ _ (Permutation_map snd Hperm)), Hsum. reflexivity.
  - apply order_desc_sorted.
Qed.

Lemma add_question_no_fault q c a n s :
  (forall l x, db_fault D l x = None) ->
  exists now,
    fst (add_question q c a n s) = Ret (id_seq s + 1)%Z
    /\ rows (snd (add_question q c a n s))
       = rows s ++ [{| row_id := (id_seq s + 1)%Z; question_text := q; category := c;
                      asked_by := a; notes := n; created_at := now |}].
Proof.
  intros Hnf. rewrite add_question_run. unfold scoped_run. rewrite !Hnf.
  cbn [run_statement fetchone hd_error fst snd rows]. eauto.
Qed.

Lemma get_by_category_no_fault c s :
  (forall l x, db_fault D l x = None) ->
  fst (get_by_category c s)
  = Ret (map RRow (order_desc created_at
                     (filter (fun r => opt_string_eqb (category r) (Some c)) (rows s))))
  /\ rows (snd (get_by_category c s)) = rows s.
Proof.
  intros Hnf. rewrite get_by_category_run. unfold scoped_run. rewrite !Hnf.
  cbn [run_statement fst snd rows fetchall]. auto.
Qed.

Lemma delete_question_no_fault i s :
  (forall l x, db_fault D l x = None) ->
  fst (delete_question i s) = Ret (existsb (fun r => (row_id r =? i)%Z) (rows s))
  /\ rows (snd (delete_question i s)) = filter (fun r => negb (row_id r =? i)%Z) (rows s).
Proof.
  intros Hnf. rewrite delete_question_run. unfold scoped_run. rewrite !Hnf.
  cbn [run_statement fst snd rows]. now rewrite fetchone_filter_ids.
Qed.

(** X24. On a store that does not fail and whose identifiers are
    consistent, a question added with a category is listed under that
    category, as the only row with the identifier that was returned; deleting
    that identifier then returns true and leaves the rows as they were before
    the question was added, and deleting it again returns false. *)
Theorem added_question_is_listed_and_deleted_once (q c : string) (a n : option string)
    (s : store) :
  (forall l x, db_fault D l x = None) ->
  ids_consistent s ->
  let i := (id_seq s + 1)%Z in
  let s1 := snd (add_question q (Some c) a n s) in
  let s2 := snd (get_by_category c s1) in
  let s3 := snd (delete_question i s2) in
  fst (add_question q (Some c) a n s) = Ret i
  /\ (exists l r,
        fst (get_by_category c s1) = Ret l
        /\ In (RRow r) l
        /\ row_id r = i /\ question_text r = q /\ category r = Some c
        /\ forall r', In (RRow r') l -> row_id r' = i -> r' = r)
  /\ fst (delete_question i s2) = Ret true
  /\ rows s3 = rows s
  /\ fst (delete_question i s3) = Ret false.
Proof.
  intros Hnf [Hnd Hle] i s1 s2 s3.
  destruct (add_question_no_fault q (Some c) a n s Hnf) as (now & Hadd & Hrows1).
  fold s1 in Hrows1. fold i in Hadd, Hrows1.
  destruct (get_by_category_no_fault c s1 Hnf) as [Hget Hrows2]. fold s2 in Hrows2.
  destruct (delete_question_no_fault i s2 Hnf) as [Hdel Hrows3]. fold s3 in Hrows3.
  destruct (delete_question_no_fault i s3 Hnf) as [Hdel2 _].
  set (new := {| row_id := i; question_text := q; category := Some c;
                 asked_by := a; notes := n; created_at := now |}) in *.
  assert (Hold : existsb (fun r => (row_id r =? i)%Z) (rows s) = false).
  { apply not_true_is_false. intros Hex. apply existsb_row_id in Hex.
    apply in_map_iff in Hex as (r & Hr & Hin).
    rewrite Forall_forall in Hle. specialize (Hle r Hin). unfold i in Hr. lia. }
  assert (Hback : rows s3 = rows s).
  { rewrite Hrows3, Hrows2, Hrows1, filter_app. cbn [filter new row_id].
    rewrite Z.eqb_refl. cbn [negb]. rewrite app_nil_r. now apply filter_out_id_same. }
  split; [exact Hadd |]. split; [| split; [| split; [exact Hback |]]].
  - exists (map RRow (order_desc created_at
                        (filter (fun r => opt_string_eqb (category r) (Some c)) (rows s1)))),
      new.
    split; [exact Hget |]. split; [| split; [reflexivity | split; [reflexivity |
                                                        split; [reflexivity |]]]].
    + apply in_map.
      apply (Permutation_in _ (Permutation_sym (order_desc_perm created_at _))).
      apply filter_In. split.
      * rewrite Hrows1. apply in_or_app. right. now left.
      * cbn [new category]. apply opt_string_eqb_refl.
    + intros r' Hin Hid. apply in_map_iff in Hin as (r0 & Hr0 & Hin).
      inversion Hr0; subst r0.
      apply (Permutation_in _ (order_desc_perm created_at _)) in Hin.
      apply filter_In in Hin as [Hin _]. rewrite Hrows1 in Hin.
      apply in_app_or in Hin as [Hin | [Hin | []]]; [| now symmetry].
      exfalso. assert (Hex : existsb (fun r => (row_id r =? i)%Z) (rows s) = true).
      { apply existsb_exists. exists r'. split; [exact Hin | now apply Z.eqb_eq]. }
      congruence.
  - rewrite Hdel. f_equal. apply existsb_exists. exists new. split.
    + rewrite Hrows2, Hrows1. apply in_or_app. right. now left.
    + cbn [new row_id]. apply Z.eqb_refl.
  - rewrite Hdel2, Hback, Hold. reflexivity.
Qed.

End Program.

(** ** Examples *)

Lemma chat_working_conversation_witness :
  exists m evs,
    run_rounds sample_runtime env_one_round 1
      ([Msg "system" (system_prompt test_me)] ++ earlier ++ [Msg "user" user_said]) []
    = Some (m, evs)
    /\ ((exists blocks,
           length blocks = 1
           /\ m = ([Msg "system" (system_prompt test_me)] ++ earlier ++ [Msg "user" user_said])
                  ++ flat_map block_messages blocks
           /\ Forall well_answered blocks
           /\ completions evs = map fst blocks)
        /\ forall fuel, 1 < fuel ->
             exists o rest,
               chat sample_runtime env_one_round test_me fuel user_said earlier []
               = (o, evs ++ EvCreate m (Some tools)
                          (llm_create env_one_round ([] ++ evs) m (Some tools)) :: rest)).
Proof.
  eexists. eexists. split.
  - vm_compute. reflexivity.
  - apply (chat_working_conversation sample_runtime env_one_round test_me user_said earlier [] 1).
    vm_compute. reflexivity.
Defined.

Lemma evaluator_sees_original_history_witness :
  exists response evs,
    chat_loop sample_runtime env_one_round 5
      ([Msg "system" (system_prompt test_me)] ++ earlier ++ [Msg "user" user_said]) []
    = (Ret response, evs)
    /\ exists o rest,
         chat sample_runtime env_one_round test_me 5 user_said earlier []
         = (o, evs ++ snd (evaluate sample_runtime env_one_round test_me (content response)
                             user_said earlier ([] ++ evs)) ++ rest)
         /\ snd (evaluate sample_runtime env_one_round test_me (content response)
                   user_said earlier ([] ++ evs))
            = [EvParse [Msg "system" (evaluator_system_prompt test_me);
                        Msg "user" (evaluator_user_prompt sample_runtime (content response)
                                      user_said earlier)]
                 (llm_parse env_one_round ([] ++ evs)
                    [Msg "system" (evaluator_system_prompt test_me);
                     Msg "user" (evaluator_user_prompt sample_runtime (content response)
                                   user_said earlier)])]
         /\ count is_parse evs = 0
         /\ count is_parse rest = 0.
Proof.
  eexists. eexists. split.
  - vm_compute. reflexivity.
  - apply (evaluator_sees_original_history sample_runtime env_one_round test_me 5
             user_said earlier []).
    vm_compute. reflexivity.
Defined.

Lemma rejected_reply_is_regenerated_once_witness :
  exists response evs evaluation,
    chat_loop sample_runtime env_rejected 3
      ([Msg "system" (system_prompt test_me)] ++ earlier ++ [Msg "user" "Hello"]) []
    = (Ret response, evs)
    /\ is_acceptable evaluation = false
    /\ fst (chat sample_runtime env_rejected test_me 3 "Hello" earlier [])
       = Ret (Some "Improved reply")
    /\ exists shown regen_request answer,
         shown = evs ++ [EvParse [Msg "system" (evaluator_system_prompt test_me);
                                  Msg "user" (evaluator_user_prompt sample_runtime
                                                (content response) "Hello" earlier)]
                           (inr (Some evaluation));
                         EvPrint "eval"; EvPrint (feedback evaluation)]
         /\ answer = llm_create env_rejected ([] ++ shown) regen_request None
         /\ rerun env_rejected test_me (content response) "Hello" earlier
              (feedback evaluation) ([] ++ shown)
            = (match answer with inr c => Ret (content c) | inl x => Raise x end,
               [EvCreate regen_request None answer])
         /\ chat sample_runtime env_rejected test_me 3 "Hello" earlier []
            = (match answer with inr c => Ret (content c) | inl x => Raise x end,
               shown ++ [EvCreate regen_request None answer])
         /\ count is_parse (shown ++ [EvCreate regen_request None answer]) = 1
         /\ count is_regeneration (shown ++ [EvCreate regen_request None answer]) = 1
         /\ count reply_producing (shown ++ [EvCreate regen_request None answer]) <= 2.
Proof.
  eexists. eexists. exists {| is_acceptable := false; feedback := "Too vague" |}.
  split; [vm_compute; reflexivity |].
  split; [reflexivity |].
  split; [vm_compute; reflexivity |].
  apply (rejected_reply_is_regenerated_once sample_runtime env_rejected test_me 3
           "Hello" earlier []).
  - vm_compute. reflexivity.
  - vm_compute. reflexivity.
  - reflexivity.
Defined.

(** The tool that does not exist, the two advertised tools on their decoded
    keyword arguments, and [push]. *)
Lemma tool_dispatch_by_module_name_witness :
  handle_tool_call sample_runtime env_one_round call_unknown []
  = (Ret (ToolMsg "{}" "call_789"), [EvPrint "Tool called: does_not_exist"])
  /\ handle_tool_call sample_runtime env_one_round call_question []
     = (Ret (ToolMsg (json_dumps status_success) "call_2"),
        [EvPrint "Tool called: record_unknown_question";
         EvPost (Some "test-pushover-token") (Some "test-pushover-user")
           "Test? it appears I don't know how to answer that" (inr 200)])
  /\ handle_tool_call sample_runtime env_one_round call_details []
     = (Ret (ToolMsg (json_dumps status_success) "call_1"),
        [EvPrint "Tool called: record_user_details";
         EvPost (Some "test-pushover-token") (Some "test-pushover-user")
           "Recording interest from Name not provided with email test@example.com and notes not provided"
           (inr 200)])
  /\ handle_tool_call sample_runtime env_asks_push call_push []
     = (Ret (ToolMsg "null" "call_3"),
        [EvPrint "Tool called: push";
         EvPost (Some "test-pushover-token") (Some "test-pushover-user") "hi" (inr 200)]).
Proof.
  split; [| split; [| split]]; cycle 3.
  - etransitivity.
    + apply (proj2 (proj2 (proj2 (tool_dispatch_by_module_name sample_runtime env_asks_push
                                    call_push [] (JObj [("text", JStr "hi")]) eq_refl)))
               [("text", JStr "hi")] (JStr "hi")); reflexivity.
    + vm_compute. reflexivity.
  - apply (proj1 (proj2 (proj2 (tool_dispatch_by_module_name sample_runtime env_one_round
                                  call_unknown [] (JObj []) eq_refl)))).
    reflexivity.
  - etransitivity.
    + apply (proj1 (proj2 (tool_dispatch_by_module_name sample_runtime env_one_round
                             call_question [] (JObj [("question", JStr "Test?")]) eq_refl))
               [("question", JStr "Test?")] (JStr "Test?")); reflexivity.
    + vm_compute. reflexivity.
  - etransitivity.
    + apply (proj1 (tool_dispatch_by_module_name sample_runtime env_one_round
                      call_details [] (JObj [("email", JStr "test@example.com")]) eq_refl)
               [("email", JStr "test@example.com")] (JStr "test@example.com")); reflexivity.
    + vm_compute. reflexivity.
Defined.

(** C4 as stated fails: [push] is neither of the two tools, yet a tool call
    that names it runs it (a notification is sent) and the entry's content is
    [null], not the empty object. *)
Lemma registry_reaches_push :
  tc_name call_push <> "record_user_details"
  /\ tc_name call_push <> "record_unknown_question"
  /\ sample_json_loads (tc_arguments call_push) = Some (JObj [("text", JStr "hi")])
  /\ handle_tool_call sample_runtime env_asks_push call_push []
     = (Ret (ToolMsg "null" "call_3"),
        [EvPrint "Tool called: push";
         EvPost (Some "test-pushover-token") (Some "test-pushover-user") "hi" (inr 200)])
  /\ handle_tool_call sample_runtime env_asks_push call_push []
     <> (Ret (ToolMsg "{}" "call_3"), [EvPrint "Tool called: push"]).
Proof.
  repeat split; try discriminate; vm_compute; reflexivity.
Qed.

(** A name bound to data that is not callable makes the step fail. *)
Example tools_is_not_callable :
  handle_tool_call sample_runtime env_one_round
    {| tc_id := "call_5"; tc_name := "tools"; tc_arguments := "{}" |} []
  = (Raise TypeError, [EvPrint "Tool called: tools"]).
Proof. vm_compute. reflexivity. Qed.

Lemma malformed_arguments_abort_turn_witness :
  handle_tool_calls sample_runtime env_malformed [call_question]
    (([] ++ []) ++ [EvCreate ([Msg "system" (system_prompt test_me)] ++ []
                               ++ [Msg "user" "What is your shoe size?"])
                      (Some tools)
                      (inr (ask_tools [call_question; call_malformed; call_details]))])
  = (Ret [ToolMsg (json_dumps status_success) "call_2"],
     [EvPrint "Tool called: record_unknown_question";
      EvPost (Some "test-pushover-token") (Some "test-pushover-user")
        "Test? it appears I don't know how to answer that" (inr 200)])
  /\ sample_json_loads (tc_arguments call_malformed) = None
  /\ chat sample_runtime env_malformed test_me 3 "What is your shoe size?" [] []
     = (Raise JSONDecodeError,
        [] ++ EvCreate ([Msg "system" (system_prompt test_me)] ++ []
                          ++ [Msg "user" "What is your shoe size?"])
                (Some tools)
                (inr (ask_tools [call_question; call_malformed; call_details]))
           :: [EvPrint "Tool called: record_unknown_question";
               EvPost (Some "test-pushover-token") (Some "test-pushover-user")
                 "Test? it appears I don't know how to answer that" (inr 200)]).
Proof.
  split; [vm_compute; reflexivity |]. split; [reflexivity |].
  apply (fun h1 h2 h3 h4 h5 h6 h7 =>
           proj2 (proj2 (malformed_arguments_abort_turn sample_runtime env_malformed test_me
             "What is your shoe size?" [] [] 0 3
             ([Msg "system" (system_prompt test_me)] ++ []
                ++ [Msg "user" "What is your shoe size?"])
             [] (ask_tools [call_question; call_malformed; call_details])
             [call_question] [call_details] call_malformed
             [ToolMsg (json_dumps status_success) "call_2"]
             [EvPrint "Tool called: record_unknown_question";
              EvPost (Some "test-pushover-token") (Some "test-pushover-user")
                "Test? it appears I don't know how to answer that" (inr 200)]
             h1 h2 h3 h4 h5 h6 h7))).
  all: first [lia | vm_compute; reflexivity].
Defined.

Lemma decoding_precedes_lookup_witness :
  handle_tool_call sample_runtime env_unknown_malformed call_unknown_malformed []
  = (Raise JSONDecodeError, [])
  /\ chat sample_runtime env_unknown_malformed test_me 1 "Hi" [] []
     = (Raise JSONDecodeError,
        [EvCreate ([Msg "system" (system_prompt test_me)] ++ [] ++ [Msg "user" "Hi"])
           (Some tools) (inr (ask_tools [call_unknown_malformed]))])
  /\ handle_tool_call sample_runtime env_unknown_malformed
       {| tc_id := "call_4"; tc_name := "does_not_exist"; tc_arguments := "[1, 2]" |} []
     = (Ret (ToolMsg "{}" "call_4"), [EvPrint "Tool called: does_not_exist"]).
Proof.
  split; [| split].
  - apply (proj1 (proj1 (decoding_precedes_lookup sample_runtime env_unknown_malformed
                           call_unknown_malformed eq_refl) eq_refl)).
  - apply (proj2 (proj1 (decoding_precedes_lookup sample_runtime env_unknown_malformed
                           call_unknown_malformed eq_refl) eq_refl)
             test_me "Hi" [] [] 0 (ask_tools [call_unknown_malformed]) []);
      reflexivity.
  - apply (proj2 (decoding_precedes_lookup sample_runtime env_unknown_malformed
                    {| tc_id := "call_4"; tc_name := "does_not_exist";
                       tc_arguments := "[1, 2]" |} eq_refl)
             (JArr [JInt 1; JInt 2]) []).
    reflexivity.
Defined.

(** C6 as stated fails: when [requests.post] raises, the tool raises too,
    and so does the chat turn that asked for it. *)
Lemma transport_error_leaves_tool :
  record_unknown_question sample_runtime env_transport_down (JStr "Test?") []
  = (Raise (ExternalError "requests.exceptions.ConnectionError"),
     [EvPost (Some "test-pushover-token") (Some "test-pushover-user")
        "Test? it appears I don't know how to answer that"
        (inl (ExternalError "requests.exceptions.ConnectionError"))])
  /\ record_user_details sample_runtime env_transport_down
       (JStr "test@example.com") (JStr "Name not provided") (JStr "not provided") []
     = (Raise (ExternalError "requests.exceptions.ConnectionError"),
        [EvPost (Some "test-pushover-token") (Some "test-pushover-user")
           "Recording interest from Name not provided with email test@example.com and notes not provided"
           (inl (ExternalError "requests.exceptions.ConnectionError"))])
  /\ fst (chat sample_runtime env_transport_down test_me 3 "Test?" [] [])
     = Raise (ExternalError "requests.exceptions.ConnectionError").
Proof.
  repeat split; vm_compute; reflexivity.
Qed.

(** A server error is not surfaced: the tool reports success. *)
Example server_error_is_silent :
  record_unknown_question sample_runtime env_server_error (JStr "Test?") []
  = (Ret status_success,
     [EvPost (Some "test-pushover-token") (Some "test-pushover-user")
        "Test? it appears I don't know how to answer that" (inr 500)])
  /\ fst (chat sample_runtime env_server_error test_me 3 "Test?" [] [])
     = Ret (Some "Noted").
Proof. split; vm_compute; reflexivity. Qed.

(** C10 as stated fails: a turn ends although no completion has a finish
    reason other than [tool_calls].  The only completion of the first turn
    asks for a tool whose arguments do not decode, and the exception leaves
    [chat]; in the second the first LLM call raises, and there is no
    completion at all.  Both hold for every positive number of iterations
    allowed. *)
Lemma turn_ends_without_final_completion :
  (forall fuel, 0 < fuel ->
     chat sample_runtime env_unknown_malformed test_me fuel user_said [] []
     = (Raise JSONDecodeError,
        [EvCreate ([Msg "system" (system_prompt test_me)] ++ [] ++ [Msg "user" user_said])
           (Some tools) (inr (ask_tools [call_unknown_malformed]))]))
  /\ completions
       [EvCreate ([Msg "system" (system_prompt test_me)] ++ [] ++ [Msg "user" user_said])
          (Some tools) (inr (ask_tools [call_unknown_malformed]))]
     = [ask_tools [call_unknown_malformed]]
  /\ finish_reason (ask_tools [call_unknown_malformed]) = "tool_calls"
  /\ (forall fuel, 0 < fuel ->
        chat sample_runtime env_llm_down test_me fuel user_said [] []
        = (Raise (ExternalError "API Error"),
           [EvCreate ([Msg "system" (system_prompt test_me)] ++ [] ++ [Msg "user" user_said])
              (Some tools) (inl (ExternalError "API Error"))]))
  /\ completions
       [EvCreate ([Msg "system" (system_prompt test_me)] ++ [] ++ [Msg "user" user_said])
          (Some tools) (inl (ExternalError "API Error"))]
     = [].
Proof.
  split; [| split; [reflexivity | split; [reflexivity | split; [| reflexivity]]]].
  - intros fuel Hfuel.
    apply (chat_raise_in_round sample_runtime env_unknown_malformed test_me user_said [] []
             0 ([Msg "system" (system_prompt test_me)] ++ [] ++ [Msg "user" user_said]) []);
      [reflexivity | vm_compute; reflexivity | exact Hfuel].
  - intros fuel Hfuel.
    apply (chat_raise_in_round sample_runtime env_llm_down test_me user_said [] []
             0 ([Msg "system" (system_prompt test_me)] ++ [] ++ [Msg "user" user_said]) []);
      [reflexivity | vm_compute; reflexivity | exact Hfuel].
Qed.

(** One tool round, then the answer: two LLM calls, and a budget of one
    iteration is not enough. *)
Lemma chat_loop_termination_witness :
  exists m evs1,
    run_rounds sample_runtime env_one_round 1
      ([Msg "system" (system_prompt test_me)] ++ [] ++ [Msg "user" user_said]) []
    = Some (m, evs1)
    /\ llm_create env_one_round ([] ++ evs1) m (Some tools)
       = inr (stop_with "I've recorded your details!")
    /\ (forall fuel, 1 < fuel ->
          chat_loop sample_runtime env_one_round fuel
            ([Msg "system" (system_prompt test_me)] ++ [] ++ [Msg "user" user_said]) []
          = (Ret (stop_with "I've recorded your details!"),
             evs1 ++ [EvCreate m (Some tools) (inr (stop_with "I've recorded your details!"))]))
    /\ (forall fuel, fuel <= 1 ->
          fst (chat_loop sample_runtime env_one_round fuel
                 ([Msg "system" (system_prompt test_me)] ++ [] ++ [Msg "user" user_said]) [])
          = OutOfFuel)
    /\ count is_create
         (evs1 ++ [EvCreate m (Some tools) (inr (stop_with "I've recorded your details!"))])
       = 1 + 1
    /\ length (completions evs1) = 1
    /\ Forall (fun c => finish_reason c = "tool_calls") (completions evs1).
Proof.
  eexists. eexists. split; [vm_compute; reflexivity |]. split; [vm_compute; reflexivity |].
  apply (proj1 (proj2 (chat_loop_termination sample_runtime env_one_round
                         ([Msg "system" (system_prompt test_me)] ++ []
                            ++ [Msg "user" user_said]) []))
           1 _ _ (stop_with "I've recorded your details!")).
  - vm_compute. reflexivity.
  - vm_compute. reflexivity.
  - discriminate.
Defined.

(** When the LLM asks for a tool in every completion the loop never ends. *)
Lemma always_tools_round messages past :
  chat_round sample_runtime env_always_tools messages past
  = (Ret (inl (messages ++ [MessageObj None [call_unknown]; ToolMsg "{}" "call_789"])),
     [EvCreate messages (Some tools) (inr (ask_tools [call_unknown]));
      EvPrint "Tool called: does_not_exist"]).
Proof.
  unfold chat_round, create, bind, interact. simpl.
  rewrite <- app_assoc. reflexivity.
Qed.

Lemma always_tools_rounds k : forall messages past,
  exists m evs1, run_rounds sample_runtime env_always_tools k messages past = Some (m, evs1).
Proof.
  induction k as [| k IH]; intros messages past.
  - simpl. eauto.
  - rewrite run_rounds_S, always_tools_round.
    destruct (IH (messages ++ [MessageObj None [call_unknown]; ToolMsg "{}" "call_789"])
                (past ++ [EvCreate messages (Some tools) (inr (ask_tools [call_unknown]));
                          EvPrint "Tool called: does_not_exist"]))
      as (m & evs1 & H).
    rewrite H. eauto.
Qed.

Lemma loop_can_run_forever (self : Me) (message : string) (history : list chat_message)
    (fuel : nat) :
  fst (chat sample_runtime env_always_tools self fuel message history []) = OutOfFuel.
Proof.
  unfold chat.
  destruct (always_tools_rounds fuel
              ([Msg "system" (system_prompt self)] ++ history ++ [Msg "user" message]) [])
    as (m & evs1 & Hrr).
  pose proof (chat_loop_needs_fuel sample_runtime env_always_tools fuel fuel _ _ _ _
                Hrr (le_n fuel)) as H.
  destruct (chat_loop sample_runtime env_always_tools fuel _ []) as [o evs] eqn:Hl.
  simpl in H. subst o. rewrite (bind_OutOfFuel _ _ _ _ Hl). reflexivity.
Qed.

(** ** Examples on the store *)

(** The statement is rejected: the connection is closed before the error
    reaches the caller. *)
Example rejected_statement_closes_connection :
  delete_question db_rejects_statements 1 two_rows
  = (Raise (ExternalError "psycopg2.Error"),
     {| rows := rows two_rows; id_seq := 2%Z; conns := [];
        log := [DbConnect 1; DbCursor 1; DbExecuteFailed 1 (Delete 1);
                DbCursorClosed 1; DbClose 1] |}).
Proof. vm_compute. reflexivity. Qed.

(** The server cannot be reached: nothing is acquired. *)
Example unreachable_server_acquires_nothing :
  get_all_questions db_unreachable two_rows
  = (Raise (ExternalError "psycopg2.OperationalError"),
     {| rows := rows two_rows; id_seq := 2%Z; conns := []; log := [DbConnectFailed] |}).
Proof. vm_compute. reflexivity. Qed.

(** The scenario of the spec: add, list by category, delete twice. *)
Example add_list_delete_delete :
  let r1 := add_question db_no_faults "Q1" (Some "X") None None empty_store in
  let r2 := get_by_category db_no_faults "X" (snd r1) in
  let r3 := delete_question db_no_faults 1 (snd r2) in
  let r4 := delete_question db_no_faults 1 (snd r3) in
  fst r1 = Ret 1%Z
  /\ fst r2 = Ret [RRow {| row_id := 1; question_text := "Q1"; category := Some "X";
                           asked_by := None; notes := None; created_at := 2 |}]
  /\ fst r3 = Ret true
  /\ fst r4 = Ret false
  /\ rows (snd r4) = []
  /\ conns (snd r4) = [].
Proof. vm_compute. repeat split; reflexivity. Qed.

Example stats_in_descending_order :
  let r1 := add_question db_no_faults "q1" (Some "B") None None empty_store in
  let r2 := add_question db_no_faults "q2" (Some "A") None None (snd r1) in
  let r3 := add_question db_no_faults "q3" (Some "A") None None (snd r2) in
  fst (get_category_stats db_no_faults (snd r3))
  = Ret [RStat (Some "A") 2; RStat (Some "B") 1].
Proof. vm_compute. reflexivity. Qed.

Lemma delete_question_true_iff_removed_witness :
  In 1%Z (map row_id (rows two_rows))
  /\ fst (delete_question db_no_faults 1 two_rows) = Ret true
  /\ rows (snd (delete_question db_no_faults 1 two_rows))
     = filter (fun r => negb (row_id r =? 1)%Z) (rows two_rows)
  /\ fst (delete_question db_no_faults 1 (snd (delete_question db_no_faults 1 two_rows)))
     = Ret false
  /\ fst (delete_question db_no_faults 7 two_rows) = Ret false
  /\ rows (snd (delete_question db_no_faults 7 two_rows)) = rows two_rows.
Proof.
  assert (Hnf : forall l a, db_fault db_no_faults l a = None) by reflexivity.
  pose proof (delete_question_true_iff_removed db_no_faults 1 two_rows)
    as (Hiff & Htrue & _ & Htotal).
  pose proof (delete_question_true_iff_removed db_no_faults 7 two_rows)
    as (_ & _ & Hfalse & Htotal7).
  assert (H1 : fst (delete_question db_no_faults 1 two_rows) = Ret true)
    by exact (proj1 (Htotal Hnf)).
  assert (H7 : fst (delete_question db_no_faults 7 two_rows) = Ret false)
    by exact (proj1 (Htotal7 Hnf)).
  split; [simpl; auto |].
  split; [exact H1 |].
  split; [exact (proj1 (Htrue H1)) |].
  split; [exact (proj2 (Htotal Hnf)) |].
  split; [exact H7 |].
  exact (Hfalse H7).
Defined.

Lemma connection_released_on_every_exit_witness :
  exists inner,
    log (snd (run_operation db_rejects_statements (OpDelete 1) two_rows))
    = log two_rows ++ [DbConnect 1] ++ inner ++ [DbClose 1]
    /\ inside_connection 1 (Delete 1) inner
    /\ conns (snd (run_operation db_rejects_statements (OpDelete 1) two_rows))
       = conns two_rows
    /\ fst (run_operation db_rejects_statements (OpDelete 1) two_rows)
       = Raise (ExternalError "psycopg2.Error")
       /\ inner = [DbCursor 1; DbExecuteFailed 1 (Delete 1); DbCursorClosed 1].
Proof.
  exact (proj2 (connection_released_on_every_exit db_rejects_statements (OpDelete 1) two_rows)).
Defined.

(** ** The decoder and the encoder of the examples *)

Example sample_loads_empty_object : sample_json_loads "{}" = Some (JObj []).
Proof. reflexivity. Qed.

Example sample_loads_garbage : sample_json_loads "not valid json" = None.
Proof. reflexivity. Qed.

Example sample_loads_email :
  sample_json_loads email_args = Some (JObj [("email", JStr "test@example.com")]).
Proof. reflexivity. Qed.

Example sample_loads_nested :
  sample_json_loads "[1, -20, [true, null], {}]"
  = Some (JArr [JInt 1; JInt (-20); JArr [JBool true; JNull]; JObj []]).
Proof. reflexivity. Qed.

Example dumps_status :
  json_dumps status_success
  = "{" +++ dq +++ "status" +++ dq +++ ": " +++ dq +++ "success" +++ dq +++ "}".
Proof. reflexivity. Qed.

Example dumps_empty_object : json_dumps (JObj []) = "{}".
Proof. reflexivity. Qed.

(** The scenario of the spec, end to end: two LLM calls, one evaluation. *)
Example recorded_details_scenario :
  let r := chat sample_runtime env_one_round test_me 5 user_said [] [] in
  fst r = Ret (Some "I've recorded your details!")
  /\ count is_create (snd r) = 2
  /\ count is_parse (snd r) = 1
  /\ count is_post (snd r) = 1.
Proof. vm_compute. repeat split; reflexivity. Qed.

(** ** Examples for the further properties *)

Lemma accepted_reply_is_returned_witness :
  exists response evs,
    chat_loop sample_runtime env_one_round 5
      ([Msg "system" (system_prompt test_me)] ++ earlier ++ [Msg "user" user_said]) []
    = (Ret response, evs)
    /\ fst (chat sample_runtime env_one_round test_me 5 user_said earlier [])
       = Ret (Some "I've recorded your details!")
    /\ count is_parse (snd (chat sample_runtime env_one_round test_me 5 user_said earlier []))
       = 1
    /\ count is_regeneration
         (snd (chat sample_runtime env_one_round test_me 5 user_said earlier [])) = 0
    /\ count reply_producing
         (snd (chat sample_runtime env_one_round test_me 5 user_said earlier [])) = 1.
Proof.
  exists (stop_with "I've recorded your details!").
  eexists. split; [vm_compute; reflexivity |].
  split; [vm_compute; reflexivity |].
  eapply (fun h1 h2 h3 =>
            proj2 (accepted_reply_is_returned sample_runtime env_one_round test_me 5
                     user_said earlier [] (stop_with "I've recorded your details!") _
                     {| is_acceptable := true; feedback := "Good" |} h1 h2 h3)).
  - vm_compute. reflexivity.
  - reflexivity.
  - reflexivity.
Defined.

Lemma direct_answer_takes_one_call_witness :
  chat sample_runtime env_direct test_me 1 "Hello" [] []
  = (Ret (Some "Reply"),
     [EvCreate ([Msg "system" (system_prompt test_me)] ++ [] ++ [Msg "user" "Hello"])
        (Some tools) (inr (stop_with "Reply"));
      EvParse [Msg "system" (evaluator_system_prompt test_me);
               Msg "user" (evaluator_user_prompt sample_runtime (Some "Reply") "Hello" [])]
        (inr (Some {| is_acceptable := true; feedback := "Good" |}))]).
Proof.
  apply (direct_answer_takes_one_call sample_runtime env_direct test_me 0 "Hello" [] []
           (stop_with "Reply") {| is_acceptable := true; feedback := "Good" |}).
  - reflexivity.
  - discriminate.
  - reflexivity.
  - reflexivity.
Defined.

Lemma llm_failure_aborts_turn_witness :
  exists m evs,
    run_rounds sample_runtime env_llm_fails_later 1
      ([Msg "system" (system_prompt test_me)] ++ [] ++ [Msg "user" "Test?"]) []
    = Some (m, evs)
    /\ chat sample_runtime env_llm_fails_later test_me 4 "Test?" [] []
       = (Raise (ExternalError "API Error"),
          evs ++ [EvCreate m (Some tools) (inl (ExternalError "API Error"))])
    /\ count is_parse (evs ++ [EvCreate m (Some tools) (inl (ExternalError "API Error"))]) = 0.
Proof.
  eexists. eexists. split; [vm_compute; reflexivity |].
  apply (llm_failure_aborts_turn sample_runtime env_llm_fails_later test_me "Test?" [] [] 1 4).
  - vm_compute. reflexivity.
  - vm_compute. reflexivity.
  - lia.
Defined.

Lemma evaluator_failure_aborts_turn_witness :
  fst (chat sample_runtime env_evaluator_down test_me 2 "Hello" [] [])
  = Raise (ExternalError "API Error")
  /\ fst (chat sample_runtime env_evaluator_unparsed test_me 2 "Hello" [] [])
     = Raise AttributeError.
Proof.
  split.
  - rewrite (proj1 (evaluator_failure_aborts_turn sample_runtime env_evaluator_down test_me 2
                      "Hello" [] [] (stop_with "Reply") _ eq_refl)
               (ExternalError "API Error") eq_refl).
    reflexivity.
  - rewrite (proj2 (evaluator_failure_aborts_turn sample_runtime env_evaluator_unparsed
                      test_me 2 "Hello" [] [] (stop_with "Reply") _ eq_refl) eq_refl).
    reflexivity.
Defined.

Lemma tool_exception_aborts_turn_witness :
  chat sample_runtime env_transport_down test_me 3 "Test?" [] []
  = (Raise (ExternalError "requests.exceptions.ConnectionError"),
     [] ++ EvCreate ([Msg "system" (system_prompt test_me)] ++ [] ++ [Msg "user" "Test?"])
             (Some tools) (inr (ask_tools [call_question]))
        :: [EvPrint "Tool called: record_unknown_question";
            EvPost (Some "test-pushover-token") (Some "test-pushover-user")
              "Test? it appears I don't know how to answer that"
              (inl (ExternalError "requests.exceptions.ConnectionError"))]).
Proof.
  apply (tool_exception_aborts_turn sample_runtime env_transport_down test_me "Test?" [] []
           0 3 ([Msg "system" (system_prompt test_me)] ++ [] ++ [Msg "user" "Test?"]) []
           (ask_tools [call_question])).
  - reflexivity.
  - reflexivity.
  - reflexivity.
  - vm_compute. reflexivity.
  - lia.
Defined.

Lemma bad_keywords_raise_type_error_witness :
  handle_tool_call sample_runtime env_one_round
    {| tc_id := "call_6"; tc_name := "record_user_details";
       tc_arguments := "{" +++ dq +++ "name" +++ dq +++ ": " +++ dq +++ "Ann" +++ dq +++ "}" |} []
  = (Raise TypeError, [EvPrint "Tool called: record_user_details"])
  /\ handle_tool_call sample_runtime env_one_round
       {| tc_id := "call_7"; tc_name := "record_unknown_question"; tc_arguments := email_args |} []
     = (Raise TypeError, [EvPrint "Tool called: record_unknown_question"]).
Proof.
  split.
  - apply (bad_keywords_raise_type_error sample_runtime env_one_round
             {| tc_id := "call_6"; tc_name := "record_user_details";
                tc_arguments := "{" +++ dq +++ "name" +++ dq +++ ": " +++ dq +++ "Ann"
                                +++ dq +++ "}" |} [] [("name", JStr "Ann")]).
    + reflexivity.
    + left. split; [reflexivity | right; reflexivity].
  - apply (bad_keywords_raise_type_error sample_runtime env_one_round
             {| tc_id := "call_7"; tc_name := "record_unknown_question";
                tc_arguments := email_args |} [] [("email", JStr "test@example.com")]).
    + reflexivity.
    + right. split; [reflexivity | left; reflexivity].
Defined.

Lemma non_object_arguments_raise_type_error_witness :
  handle_tool_call sample_runtime env_one_round
    {| tc_id := "call_8"; tc_name := "record_unknown_question"; tc_arguments := "[1, 2]" |} []
  = (Raise TypeError, [EvPrint "Tool called: record_unknown_question"]).
Proof.
  apply (non_object_arguments_raise_type_error sample_runtime env_one_round
           {| tc_id := "call_8"; tc_name := "record_unknown_question";
              tc_arguments := "[1, 2]" |} [] (JArr [JInt 1; JInt 2])).
  - reflexivity.
  - discriminate.
  - reflexivity.
Defined.

Lemma data_names_are_not_callable_witness :
  handle_tool_call sample_runtime env_one_round
    {| tc_id := "call_5"; tc_name := "tools"; tc_arguments := "{}" |} []
  = (Raise TypeError, [EvPrint "Tool called: tools"]).
Proof.
  apply (data_names_are_not_callable sample_runtime env_one_round
           {| tc_id := "call_5"; tc_name := "tools"; tc_arguments := "{}" |} []
           (JObj []) tools); reflexivity.
Defined.

Lemma one_line_per_tool_call_witness :
  exists results evs,
    handle_tool_calls sample_runtime env_one_round
      [call_question; call_unknown; call_question; call_details] []
    = (Ret results, evs)
    /\ printed evs
       = ["Tool called: record_unknown_question"; "Tool called: does_not_exist";
          "Tool called: record_unknown_question"; "Tool called: record_user_details"].
Proof.
  eexists. eexists. split; [vm_compute; reflexivity |].
  apply (one_line_per_tool_call sample_runtime env_one_round
           [call_question; call_unknown; call_question; call_details] []
           [ToolMsg (json_dumps status_success) "call_2"; ToolMsg "{}" "call_789";
            ToolMsg (json_dumps status_success) "call_2";
            ToolMsg (json_dumps status_success) "call_1"]).
  vm_compute. reflexivity.
Defined.

(** The same question recorded twice: two notifications. *)
Lemma one_notification_per_executed_tool_witness :
  exists results evs,
    handle_tool_calls sample_runtime env_one_round
      [call_question; call_unknown; call_question] []
    = (Ret results, evs)
    /\ count is_post evs = 2
    /\ length results = 3.
Proof.
  eexists. eexists. split; [vm_compute; reflexivity |].
  apply (one_notification_per_executed_tool sample_runtime env_one_round
           [call_question; call_unknown; call_question] []
           [ToolMsg (json_dumps status_success) "call_2"; ToolMsg "{}" "call_789";
            ToolMsg (json_dumps status_success) "call_2"]).
  vm_compute. reflexivity.
Defined.

Lemma init_reads_profile_and_summary_witness :
  exists me,
    Me_init test_files = inr me
    /\ name me = "Michael Di Giatnomasso"
    /\ linkedin me = "Page 1 contentPage 2 content"
    /\ summary me = "Summary".
Proof.
  destruct (proj2 (proj2 (init_reads_profile_and_summary test_files)))
    as (me & Hme).
  { split; [exists tt; reflexivity |].
    split; [eexists; reflexivity | eexists; reflexivity]. }
  exists me. split; [exact Hme |].
  destruct (proj1 (init_reads_profile_and_summary test_files) me Hme)
    as (pages & text & Hp & Ht & Hn & Hl & Hs).
  injection Hp as <-. injection Ht as <-.
  split; [exact Hn |]. split; [exact Hl | exact Hs].
Defined.

(** ** Examples for the further properties of the store *)

Lemma two_rows_consistent : ids_consistent two_rows.
Proof.
  split.
  - simpl. constructor; [simpl; intros [H | []]; discriminate |].
    constructor; [intros [] | constructor].
  - simpl. repeat constructor; simpl; lia.
Defined.

Lemma queries_change_nothing_witness :
  rows (snd (run_operation db_rejects_statements (OpSearch "career") two_rows))
  = rows two_rows
  /\ id_seq (snd (run_operation db_rejects_statements (OpSearch "career") two_rows))
     = id_seq two_rows
  /\ conns (snd (run_operation db_rejects_statements (OpSearch "career") two_rows))
     = conns two_rows
  /\ exists evs,
       log (snd (run_operation db_rejects_statements (OpSearch "career") two_rows))
       = log two_rows ++ evs
       /\ forallb (fun e => negb (is_commit e)) evs = true.
Proof.
  exact (queries_change_nothing db_rejects_statements (OpSearch "career") two_rows eq_refl).
Defined.

Lemma failed_operation_changes_no_row_witness :
  fst (run_operation db_rejects_statements (OpDelete 1) two_rows)
  = Raise (ExternalError "psycopg2.Error")
  /\ rows (snd (run_operation db_rejects_statements (OpDelete 1) two_rows)) = rows two_rows
  /\ conns (snd (run_operation db_rejects_statements (OpDelete 1) two_rows)) = conns two_rows.
Proof.
  split; [reflexivity |].
  apply (failed_operation_changes_no_row db_rejects_statements (OpDelete 1) two_rows
           (ExternalError "psycopg2.Error")).
  reflexivity.
Defined.

Lemma update_notes_sets_notes_of_that_row_witness :
  fst (update_notes db_no_faults 2 "answered by mail" two_rows) = Ret true
  /\ In 2%Z (map row_id (rows two_rows))
  /\ rows (snd (update_notes db_no_faults 2 "answered by mail" two_rows))
     = map (fun r => if (row_id r =? 2)%Z then set_notes "answered by mail" r else r)
         (rows two_rows)
  /\ fst (update_notes db_no_faults 9 "nobody" two_rows) = Ret false
  /\ rows (snd (update_notes db_no_faults 9 "nobody" two_rows)) = rows two_rows.
Proof.
  split; [reflexivity |].
  destruct (proj1 (update_notes_sets_notes_of_that_row db_no_faults 2 "answered by mail"
                     two_rows) eq_refl) as [Hin Hrows].
  split; [exact Hin |]. split; [exact Hrows |].
  split; [reflexivity |].
  exact (proj2 (proj1 (proj2 (update_notes_sets_notes_of_that_row db_no_faults 9 "nobody"
                                two_rows)) eq_refl)).
Defined.

Lemma add_question_appends_one_row_witness :
  fst (add_question db_no_faults "Q1" (Some "X") None None two_rows) = Ret 3%Z
  /\ id_seq (snd (add_question db_no_faults "Q1" (Some "X") None None two_rows)) = 3%Z
  /\ exists now,
       rows (snd (add_question db_no_faults "Q1" (Some "X") None None two_rows))
       = rows two_rows ++ [{| row_id := 3; question_text := "Q1"; category := Some "X";
                              asked_by := None; notes := None; created_at := now |}].
Proof.
  split; [reflexivity |].
  exact (proj2 (proj1 (add_question_appends_one_row db_no_faults "Q1" (Some "X") None None
                         two_rows) 3%Z eq_refl)).
Defined.

Lemma identifiers_stay_unique_witness :
  ids_consistent two_rows
  /\ ids_consistent
       (snd (run_operation db_no_faults (OpAdd "Q1" (Some "X") None None) two_rows)).
Proof.
  split; [exact two_rows_consistent |].
  apply (identifiers_stay_unique db_no_faults (OpAdd "Q1" (Some "X") None None) two_rows).
  exact two_rows_consistent.
Defined.

Lemma added_identifier_is_new_witness :
  ~ In 3%Z (map row_id (rows two_rows))
  /\ ((0 <= id_seq two_rows)%Z -> (0 < 3)%Z)
  /\ length (filter (fun r => (row_id r =? 3)%Z)
               (rows (snd (add_question db_no_faults "Q1" (Some "X") None None two_rows))))
     = 1.
Proof.
  apply (added_identifier_is_new db_no_faults "Q1" (Some "X") None None two_rows 3).
  - exact two_rows_consistent.
  - reflexivity.
Defined.

Lemma get_by_category_returns_the_category_witness :
  exists l,
    fst (get_by_category db_no_faults "Career Change" two_rows) = Ret l
    /\ exists rs,
         l = map RRow rs
         /\ Permutation rs
              (filter (fun r => opt_string_eqb (category r) (Some "Career Change"))
                 (rows two_rows))
         /\ Forall (fun r => category r = Some "Career Change") rs
         /\ newest_first rs.
Proof.
  eexists. split; [vm_compute; reflexivity |].
  apply (proj1 (get_by_category_returns_the_category db_no_faults "Career Change" two_rows)).
  vm_compute. reflexivity.
Defined.

Lemma search_questions_returns_the_matches_witness :
  exists l,
    fst (search_questions db_no_faults "marketing" two_rows) = Ret l
    /\ exists rs,
         l = map RRow rs
         /\ Permutation rs
              (filter (fun r => contains "marketing" (question_text r)) (rows two_rows))
         /\ newest_first rs.
Proof.
  eexists. split; [vm_compute; reflexivity |].
  apply (proj1 (search_questions_returns_the_matches db_no_faults "marketing" two_rows)).
  vm_compute. reflexivity.
Defined.

Lemma get_all_questions_returns_every_row_witness :
  exists l,
    fst (get_all_questions db_no_faults two_rows) = Ret l
    /\ exists rs, l = map RRow rs /\ Permutation rs (rows two_rows) /\ newest_first rs.
Proof.
  eexists. split; [vm_compute; reflexivity |].
  apply (proj1 (get_all_questions_returns_every_row db_no_faults two_rows)).
  vm_compute. reflexivity.
Defined.

Lemma category_stats_count_the_rows_witness :
  exists l,
    fst (get_category_stats db_no_faults two_rows) = Ret l
    /\ exists stats,
         l = map (fun cn => RStat (fst cn) (snd cn)) stats
         /\ NoDup (map fst stats)
         /\ (forall c n,
               In (c, n) stats <-> n = rows_of_category c (rows two_rows) /\ 0 < n)
         /\ list_sum (map snd stats) = length (rows two_rows)
         /\ StronglySorted (fun a b => snd b <= snd a) stats.
Proof.
  eexists. split; [vm_compute; reflexivity |].
  apply (proj1 (category_stats_count_the_rows db_no_faults two_rows)).
  vm_compute. reflexivity.
Defined.

Lemma added_question_is_listed_and_deleted_once_witness :
  fst (add_question db_no_faults "Q1" (Some "X") None None two_rows) = Ret 3%Z
  /\ fst (delete_question db_no_faults 3
            (snd (get_by_category db_no_faults "X"
                    (snd (add_question db_no_faults "Q1" (Some "X") None None two_rows)))))
     = Ret true
  /\ rows (snd (delete_question db_no_faults 3
                  (snd (get_by_category db_no_faults "X"
                          (snd (add_question db_no_faults "Q1" (Some "X") None None
                                  two_rows))))))
     = rows two_rows.
Proof.
  pose proof (added_question_is_listed_and_deleted_once db_no_faults "Q1" "X" None None
                two_rows (fun _ _ => eq_refl) two_rows_consistent)
    as (Hadd & _ & Hdel & Hrows & _).
  split; [exact Hadd |]. split; [exact Hdel | exact Hrows].
Defined.
